(** * Session authentication of the chat backend: token rotation, reuse
      detection, logout, the placeholder login route and the environment
      schema.

    The development embeds
    - the handlers of the guide's chapters 9 and 10 ([authenticate],
      [/auth/login], [/auth/refresh], [/auth/logout]) over the persisted
      [refreshToken] table,
    - the in-memory variant of the guide's full example (chapter 28),
    - [apps/backend/src/routes/auth.ts] and the [@chat/config] environment
      schema,
    and states the properties of the design document about them. *)

From Stdlib Require Import String Ascii ZArith NArith List Bool Lia.
From Stdlib Require Import DecimalString.
Import ListNotations.

Local Open Scope string_scope.
Local Open Scope Z_scope.

(** ** JavaScript values the handlers manipulate *)

(** Claims carried by a token.  The access tokens of the handlers carry
    [email] and [role]; the refresh tokens carry [type = "refresh"]. *)
Module Payload.
Record t : Type := make
  { sub : string;
    email : option string;
    role : option string;
    type : option string;
    iat : Z;
    exp : Z }.

Definition eq_dec (a b : t) : {a = b} + {a <> b}.
Proof.
  decide equality;
    solve [ apply Z.eq_dec | apply string_dec
          | decide equality; apply string_dec ].
Defined.
End Payload.

(** Strings that reach the handlers as tokens or that the handlers store.
    A JavaScript string is modelled by its UTF-8 bytes.  [hono/jwt] and
    [bcrypt] are dependencies of the code; their results are kept symbolic:
    [Jwt p k] is the string [sign(p, k)], [BcryptHash s n] the string
    [bcrypt.hash(s, _)] computed with salt [n], and [Lit s] any other string:
    one that is no token, because it has not three parts between dots or
    because its parts do not decode.
    The characters of [sign(p, k)] up to its signature are computed below;
    signatures and hashes are taken to be collision free. *)
Inductive Str : Type :=
| Lit (s : string)
| Jwt (p : Payload.t) (key : string)
| BcryptHash (plain : Str) (salt : N).

Definition Str_eq_dec (a b : Str) : {a = b} + {a <> b}.
Proof.
  decide equality;
    solve [ apply string_dec | apply Payload.eq_dec | apply N.eq_dec ].
Defined.

Definition Str_eqb (a b : Str) : bool :=
  if Str_eq_dec a b then true else false.

(** [!s] of JavaScript on a string: only the empty string is falsy. *)
Definition truthy (s : Str) : bool :=
  match s with
  | Lit "" => false
  | _ => true
  end.

(** [s.includes(needle)] *)
Fixpoint includes (needle s : string) : bool :=
  String.prefix needle s
  || match s with
     | EmptyString => false
     | String _ rest => includes needle rest
     end.

(** ** The characters of a signed token *)

(** Base64 with the URL alphabet and without padding, as [sign] applies it
    to the bytes of the header and of the payload. *)
Module Base64Url.

Definition alphabet : string :=
  "ABCDEFGHIJKLMNOPQRSTUVWXYZabcdefghijklmnopqrstuvwxyz0123456789-_".

Definition digit (n : N) : ascii :=
  match String.get (N.to_nat n) alphabet with
  | Some c => c
  | None => "A"%char
  end.

Fixpoint encode (s : string) : string :=
  match s with
  | String a (String b (String c rest)) =>
      let x := N_of_ascii a in
      let y := N_of_ascii b in
      let z := N_of_ascii c in
      String (digit (x / 4))
        (String (digit (x mod 4 * 16 + y / 16))
           (String (digit (y mod 16 * 4 + z / 64))
              (String (digit (z mod 64)) (encode rest))))
  | String a (String b EmptyString) =>
      let x := N_of_ascii a in
      let y := N_of_ascii b in
      String (digit (x / 4))
        (String (digit (x mod 4 * 16 + y / 16))
           (String (digit (y mod 16 * 4)) EmptyString))
  | String a EmptyString =>
      let x := N_of_ascii a in
      String (digit (x / 4)) (String (digit (x mod 4 * 16)) EmptyString)
  | EmptyString => EmptyString
  end%N.

End Base64Url.

(** [JSON.stringify] on what the handlers sign: strings, whole numbers and
    the payload objects, whose keys come in the order the handlers write
    them ([sub], [email], [role], [type], [iat], [exp]). *)
Module Json.

Definition quote : string := String (ascii_of_nat 34) EmptyString.

Definition hex (n : N) : ascii :=
  match String.get (N.to_nat n) "0123456789abcdef" with
  | Some c => c
  | None => "0"%char
  end.

(** The quotation mark, the backslash and the control characters are
    escaped; every other byte is written as it is. *)
Definition escape_char (c : ascii) : string :=
  let n := N_of_ascii c in
  (if n =? 34 then "\" ++ quote
   else if n =? 92 then "\\"
   else if n =? 8 then "\b"
   else if n =? 12 then "\f"
   else if n =? 10 then "\n"
   else if n =? 13 then "\r"
   else if n =? 9 then "\t"
   else if n <? 32
        then "\u00" ++ String (hex (n / 16)) (String (hex (n mod 16)) "")
        else String c "")%N.

Fixpoint escape (s : string) : string :=
  match s with
  | EmptyString => EmptyString
  | String c rest => escape_char c ++ escape rest
  end.

Definition of_string (s : string) : string := quote ++ escape s ++ quote.

(** A whole number of fewer than 22 digits is written in decimal. *)
Definition of_number (n : Z) : string := NilZero.string_of_int (Z.to_int n).

Definition key (k : string) : string := quote ++ k ++ quote ++ ":".

(** A key whose value is [undefined] is left out. *)
Definition optional (k : string) (v : option string) : string :=
  match v with
  | Some s => "," ++ key k ++ of_string s
  | None => ""
  end.

Definition of_payload (p : Payload.t) : string :=
  "{" ++ key "sub" ++ of_string (Payload.sub p)
  ++ optional "email" (Payload.email p)
  ++ optional "role" (Payload.role p)
  ++ optional "type" (Payload.type p)
  ++ "," ++ key "iat" ++ of_number (Payload.iat p)
  ++ "," ++ key "exp" ++ of_number (Payload.exp p) ++ "}".

End Json.

(** ** hono/jwt *)
Module HonoJwt.

(** The errors [verify] throws.  Three of them are built around the token
    that was presented, the fourth around the clock and the [iat] claim. *)
Inductive JwtError : Type :=
| JwtTokenInvalid (token : Str)
| JwtTokenExpired (token : Str)
| JwtTokenIssuedAt (currentTimestamp iat : Z)
| JwtTokenSignatureMismatched (token : Str).

(** [sign(payload, secret)]: a function of its two arguments. *)
Definition sign (payload : Payload.t) (secret : string) : Str :=
  Jwt payload secret.

(** The header [sign] writes for its default algorithm, encoded. *)
Definition header : string :=
  Base64Url.encode
    ("{" ++ Json.key "alg" ++ Json.of_string "HS256" ++ ","
     ++ Json.key "typ" ++ Json.of_string "JWT" ++ "}").

(** What [sign] signs, and what the token starts with: the encoded header,
    a dot, the encoded payload.  A dot and the signature follow. *)
Definition signing_input (p : Payload.t) : string :=
  header ++ "." ++ Base64Url.encode (Json.of_payload p).

(** The characters of a string that are determined by how it was built.
    The 43 characters of a signature and the characters of a bcrypt hash are
    outputs of the primitives; they are left out here, which takes them not
    to spell the word the guard looks for. *)
Definition characters (s : Str) : string :=
  match s with
  | Lit s => s
  | Jwt p _ => signing_input p ++ "."
  | BcryptHash _ _ => ""
  end.

(** The number of parts [token.split(".")] has.  A string of other than
    three parts is no token. *)
Fixpoint parts (s : string) : nat :=
  match s with
  | EmptyString => 1%nat
  | String c rest => if Ascii.eqb c "."%char then S (parts rest) else parts rest
  end.

(** [verify(token, secret)] at clock [now] (seconds): "throws an error if
    the token was tampered with, signed by a different secret, or is
    expired".  The claims are checked before the signature: [exp] first,
    then [iat], which must not lie after the clock.  Both claims are taken
    to be present and not zero, as the handlers write them, and the clock
    to be a whole number of seconds below [2^31]. *)
Definition verify (token : Str) (secret : string) (now : Z)
  : JwtError + Payload.t :=
  match token with
  | Jwt p k =>
      if Payload.exp p <=? now then inl (JwtTokenExpired token)
      else if now <? Payload.iat p
           then inl (JwtTokenIssuedAt now (Payload.iat p))
           else if String.eqb k secret then inr p
                else inl (JwtTokenSignatureMismatched token)
  | _ => inl (JwtTokenInvalid token)
  end.

(** [err.message] *)
Definition message (err : JwtError) : string :=
  match err with
  | JwtTokenInvalid token => "invalid JWT token: " ++ characters token
  | JwtTokenExpired token => "token (" ++ characters token ++ ") expired"
  | JwtTokenIssuedAt currentTimestamp iat =>
      "Invalid " ++ Json.of_string "iat"
      ++ " claim, must be a valid number lower than "
      ++ Json.of_string (Json.of_number currentTimestamp)
      ++ " (iat: " ++ Json.of_string (Json.of_number iat) ++ ")"
  | JwtTokenSignatureMismatched token =>
      "token(" ++ characters token ++ ") signature mismatched"
  end.

End HonoJwt.

(** ** bcrypt *)
Module Bcrypt.

(** What bcrypt hashes of a string: its first 72 bytes and nothing after
    them.  A signed token is longer than that: its first 72 bytes are the
    header, the dot and the first 35 characters of the encoded payload.  The
    60 characters of a hash all count. *)
Inductive Input : Type :=
| bytes (s : string)
| of_hash (i : Input) (salt : N).

Fixpoint input (s : Str) : Input :=
  match s with
  | Lit s => bytes (substring 0 72 s)
  | Jwt p _ => bytes (substring 0 72 (HonoJwt.signing_input p))
  | BcryptHash plain salt => of_hash (input plain) salt
  end.

Definition Input_eq_dec (a b : Input) : {a = b} + {a <> b}.
Proof. decide equality; [apply string_dec | apply N.eq_dec]. Defined.

(** [bcrypt.hash(s, rounds)]; the salt is drawn by the library. *)
Definition hash (s : Str) (salt : N) : Str := BcryptHash s salt.

(** [bcrypt.compare(s, h)]: [s] is hashed with the salt of [h] and the
    result compared with [h], so the answer is that of comparing what is
    hashed. *)
Definition compare (s h : Str) : bool :=
  match h with
  | BcryptHash plain _ =>
      if Input_eq_dec (input s) (input plain) then true else false
  | _ => false
  end.

End Bcrypt.

(** ** The persisted tables *)

(** A row of [db.user]. *)
Module User.
Record t : Type := make
  { id : string;
    email : string;
    passwordHash : Str;
    role : string }.
End User.

(** A row of [db.refreshToken]: one per issued refresh token.  Dates are
    milliseconds since the epoch; [revokedAt = None] is SQL [NULL]. *)
Module RefreshToken.
Record t : Type := make
  { id : N;
    userId : string;
    tokenHash : Str;
    expiresAt : Z;
    revokedAt : option Z }.

(** [data: { revokedAt }]: the only update the handlers issue. *)
Definition set_revokedAt (d : Z) (r : t) : t :=
  make (id r) (userId r) (tokenHash r) (expiresAt r) (Some d).

Definition eq_dec (a b : t) : {a = b} + {a <> b}.
Proof.
  decide equality;
    solve [ apply N.eq_dec | apply string_dec | apply Str_eq_dec
          | apply Z.eq_dec | decide equality; apply Z.eq_dec ].
Defined.
End RefreshToken.

Module Db.

Record t : Type := make
  { user : list User.t;
    refreshToken : list RefreshToken.t }.

(** The [where] clauses the handlers use on [db.refreshToken]. *)
Record Where : Type := mkWhere
  { w_userId : string;
    w_expiresAt_gt : option Z;
    w_revokedAt_null : bool }.

Definition satisfies (w : Where) (r : RefreshToken.t) : bool :=
  String.eqb (RefreshToken.userId r) (w_userId w)
  && match w_expiresAt_gt w with
     | Some d => d <? RefreshToken.expiresAt r
     | None => true
     end
  && (if w_revokedAt_null w
      then match RefreshToken.revokedAt r with None => true | Some _ => false end
      else true).

(** The database calls of the handlers.  Each is one round trip to the
    store, and one [await] of the handler. *)
Inductive Query : Type :=
| user_findUnique_email (email : string)
| user_findUnique_id (id : string)
| refreshToken_findMany (w : Where)
| refreshToken_updateMany (w : Where) (revokedAt : Z)
| refreshToken_update (id : N) (revokedAt : Z)
| refreshToken_create (userId : string) (tokenHash : Str) (expiresAt : Z).

Definition Reply (q : Query) : Type :=
  match q with
  | user_findUnique_email _ => option User.t
  | user_findUnique_id _ => option User.t
  | refreshToken_findMany _ => list RefreshToken.t
  | refreshToken_updateMany _ _ => unit
  | refreshToken_update _ _ => bool
  | refreshToken_create _ _ _ => unit
  end.

Definition has_id (i : N) (r : RefreshToken.t) : bool :=
  N.eqb (RefreshToken.id r) i.

(** Ids are generated by the store; rows are never removed, so the number of
    rows is a fresh id. *)
Definition fresh_id (rows : list RefreshToken.t) : N :=
  N.of_nat (length rows).

(** One database call on the tables.  [update] on an id that has no row
    raises in the client library: its reply is [false] then, and the table is
    left as it was. *)
Definition perform (q : Query) (db : t) : Reply q * t :=
  match q return Reply q * t with
  | user_findUnique_email e =>
      (find (fun u => String.eqb (User.email u) e) (user db), db)
  | user_findUnique_id i =>
      (find (fun u => String.eqb (User.id u) i) (user db), db)
  | refreshToken_findMany w =>
      (filter (satisfies w) (refreshToken db), db)
  | refreshToken_updateMany w d =>
      (tt, make (user db)
             (map (fun r => if satisfies w r
                            then RefreshToken.set_revokedAt d r else r)
                  (refreshToken db)))
  | refreshToken_update i d =>
      (existsb (has_id i) (refreshToken db),
       make (user db)
         (map (fun r => if has_id i r
                        then RefreshToken.set_revokedAt d r else r)
              (refreshToken db)))
  | refreshToken_create u h e =>
      (tt, make (user db)
             (refreshToken db
              ++ [RefreshToken.make (fresh_id (refreshToken db)) u h e None]))
  end.

End Db.

(** ** Handlers as programs over database calls *)

(** An [async] handler: it either returns, or awaits a database call and
    continues with the reply.  Calls of [hono/jwt] and [bcrypt] touch no
    shared state and are computed in place. *)
Inductive Prog (A : Type) : Type :=
| Ret (a : A)
| Await (q : Db.Query) (k : Db.Reply q -> Prog A).

Arguments Ret {A} a.
Arguments Await {A} q k.

Notation "x <- q ;; k" := (Await q (fun x => k))
  (at level 61, q at next level, right associativity).

(** A handler run from start to end with no other request in between. *)
Fixpoint exec {A : Type} (p : Prog A) (db : Db.t) : A * Db.t :=
  match p with
  | Ret a => (a, db)
  | Await q k => let (r, db') := Db.perform q db in exec (k r) db'
  end.

(** One scheduling step of a handler: up to its next [await]. *)
Definition step {A : Type} (p : Prog A) (db : Db.t) : Prog A * Db.t :=
  match p with
  | Ret a => (Ret a, db)
  | Await q k => let (r, db') := Db.perform q db in (k r, db')
  end.

(** [l] with its element at index [i] replaced by [x]. *)
Fixpoint replace_nth {A : Type} (i : nat) (x : A) (l : list A) : list A :=
  match l, i with
  | [], _ => []
  | _ :: t, O => x :: t
  | h :: t, S j => h :: replace_nth j x t
  end.

(** Several handlers in flight on one event loop: [sched] names, step by
    step, the handler that runs up to its next [await]. *)
Fixpoint run_schedule {A : Type} (sched : list nat) (pool : list (Prog A))
    (db : Db.t) : list (Prog A) * Db.t :=
  match sched with
  | [] => (pool, db)
  | i :: rest =>
      match nth_error pool i with
      | Some p =>
          let (p', db') := step p db in
          run_schedule rest (replace_nth i p' pool) db'
      | None => run_schedule rest pool db
      end
  end.

(** What a handler has answered, if it has. *)
Definition answer {A : Type} (p : Prog A) : option A :=
  match p with
  | Ret a => Some a
  | Await _ _ => None
  end.

(** ** Responses *)

Inductive Body : Type :=
| error_body (error : string) (code : option string)
| login_body (accessToken refreshToken : Str) (expiresIn : Z)
    (tokenType : string) (user_id user_email user_role : string)
| tokens_body (accessToken refreshToken : Str) (expiresIn : option Z)
| message_body (message : string)
| user_body (id email name role : string) (createdAt : Z).

Record Response : Type := json
  { body : Body;
    status : Z }.

(** The machine-readable code of an answer. *)
Definition code_of (r : Response) : option string :=
  match body r with
  | error_body _ c => c
  | _ => None
  end.

(** What the framework's default error handler answers when a handler
    throws. *)
Definition internal_server_error : Response :=
  json (error_body "Internal Server Error" None) 500.

(** What a handler reads from outside the request: the clock
    ([Date.now()], milliseconds) and the salt [bcrypt.hash] draws. *)
Record Ambient : Type := mkAmbient
  { date_now : Z;
    salt : N }.

(** [Math.floor(Date.now() / 1000)]. *)
Definition seconds (a : Ambient) : Z := date_now a / 1000.

(** ** The handlers of chapters 9 and 10 *)
Module Auth.

(** [process.env] and the bindings [c.env] as the handlers read them. *)
Record Env : Type := mkEnv
  { JWT_SECRET : string;
    JWT_REFRESH_SECRET : string;
    c_env_JWT_SECRET : option string }.

(** The [Authorization] header: [Bearer t] is the header ["Bearer " + t];
    [other_scheme] is a header that does not start with ["Bearer "]. *)
Inductive Authorization : Type :=
| Bearer (token : Str)
| other_scheme (raw : string).

(** What [authenticate] attaches to the context. *)
Record Ctx : Type := mkCtx
  { userId : string;
    userRole : option string;
    jwtPayload : Payload.t }.

(** [c.env.JWT_SECRET || process.env.JWT_SECRET!] *)
Definition access_secret (e : Env) : string :=
  match c_env_JWT_SECRET e with
  | Some s => if String.eqb s "" then JWT_SECRET e else s
  | None => JWT_SECRET e
  end.

(** The custom JWT middleware: [inl] is the response it answers itself,
    [inr] the context with which [next()] runs. *)
Definition authenticate (e : Env) (now : Z) (authHeader : option Authorization)
  : Response + Ctx :=
  match authHeader with
  | Some (Bearer token) =>
      match HonoJwt.verify token (access_secret e) now with
      | inr payload =>
          inr (mkCtx (Payload.sub payload) (Payload.role payload) payload)
      | inl err =>
          if includes "expired" (HonoJwt.message err)
          then inl (json (error_body "Token expired" (Some "TOKEN_EXPIRED")) 401)
          else inl (json (error_body "Invalid token" None) 401)
      end
  | _ =>
      inl (json (error_body "Missing or invalid authorization header" None) 401)
  end.

Definition access_payload (u : User.t) (now : Z) : Payload.t :=
  Payload.make (User.id u) (Some (User.email u)) (Some (User.role u)) None
    now (now + 60 * 15).

Definition refresh_payload (u : User.t) (now : Z) : Payload.t :=
  Payload.make (User.id u) None None (Some "refresh")
    now (now + 60 * 60 * 24 * 7).

(** [new Date(Date.now() + 7 * 24 * 60 * 60 * 1000)] *)
Definition in_seven_days (a : Ambient) : Z :=
  date_now a + 7 * 24 * 60 * 60 * 1000.

(** [POST /auth/login], on the body the validator has accepted. *)
Definition login (e : Env) (a : Ambient) (email password : string)
  : Prog Response :=
  user <- Db.user_findUnique_email email ;;
  match user with
  | None => Ret (json (error_body "Invalid credentials" None) 401)
  | Some user =>
      if negb (Bcrypt.compare (Lit password) (User.passwordHash user))
      then Ret (json (error_body "Invalid credentials" None) 401)
      else
        let now := seconds a in
        let accessToken :=
          HonoJwt.sign (access_payload user now) (JWT_SECRET e) in
        let refreshToken :=
          HonoJwt.sign (refresh_payload user now) (JWT_REFRESH_SECRET e) in
        _ <- Db.refreshToken_create (User.id user)
               (Bcrypt.hash refreshToken (salt a)) (in_seven_days a) ;;
        Ret (json (login_body accessToken refreshToken 900 "Bearer"
                     (User.id user) (User.email user) (User.role user)) 200)
  end.

(** The [for ... of] loop of the refresh and logout handlers: the first
    stored record whose hash the presented token matches. *)
Definition first_match (token : Str) (stored : list RefreshToken.t)
  : option RefreshToken.t :=
  find (fun record => Bcrypt.compare token (RefreshToken.tokenHash record))
    stored.

Definition reuse_detected : Response :=
  json (error_body "Token reuse detected. Please log in again." None) 401.

Definition invalid_or_expired : Response :=
  json (error_body "Invalid or expired refresh token" None) 401.

Definition invalid_token_type : Response :=
  json (error_body "Invalid token type" None) 401.

(** [POST /auth/refresh]; [refreshToken] is [body.refreshToken], [None] when
    the body has no such field. *)
Definition refresh (e : Env) (a : Ambient) (refreshToken : option Str)
  : Prog Response :=
  match refreshToken with
  | None => Ret (json (error_body "Refresh token required" None) 400)
  | Some refreshToken =>
      if negb (truthy refreshToken)
      then Ret (json (error_body "Refresh token required" None) 400)
      else
        match HonoJwt.verify refreshToken (JWT_REFRESH_SECRET e) (seconds a) with
        | inl _ => Ret invalid_or_expired
        | inr payload =>
            if negb (match Payload.type payload with
                     | Some ty => String.eqb ty "refresh"
                     | None => false
                     end)
            then Ret invalid_token_type
            else
              storedTokens <- Db.refreshToken_findMany
                (Db.mkWhere (Payload.sub payload) (Some (date_now a)) true) ;;
              match first_match refreshToken storedTokens with
              | None =>
                  _ <- Db.refreshToken_updateMany
                         (Db.mkWhere (Payload.sub payload) None false)
                         (date_now a) ;;
                  Ret reuse_detected
              | Some tokenRecord =>
                  found <- Db.refreshToken_update (RefreshToken.id tokenRecord)
                             (date_now a) ;;
                  if negb found then Ret internal_server_error
                  else
                    user <- Db.user_findUnique_id (Payload.sub payload) ;;
                    match user with
                    | None => Ret (json (error_body "User not found" None) 401)
                    | Some user =>
                        let now := seconds a in
                        let newAccessToken :=
                          HonoJwt.sign (access_payload user now) (JWT_SECRET e) in
                        let newRefreshToken :=
                          HonoJwt.sign (refresh_payload user now)
                            (JWT_REFRESH_SECRET e) in
                        _ <- Db.refreshToken_create (User.id user)
                               (Bcrypt.hash newRefreshToken (salt a))
                               (in_seven_days a) ;;
                        Ret (json (tokens_body newAccessToken newRefreshToken
                                     (Some 900)) 200)
                    end
              end
        end
  end.

Definition logged_out : Response :=
  json (message_body "Logged out successfully") 200.

(** The body of [POST /auth/logout], run by [next()] with the [userId]
    that [authenticate] has set. *)
Definition logout_handler (a : Ambient) (userId : string)
    (refreshToken : option Str) : Prog Response :=
  match refreshToken with
  | Some token =>
      if truthy token
      then
        stored <- Db.refreshToken_findMany (Db.mkWhere userId None true) ;;
        match first_match token stored with
        | Some record =>
            found <- Db.refreshToken_update (RefreshToken.id record)
                       (date_now a) ;;
            if found then Ret logged_out else Ret internal_server_error
        | None => Ret logged_out
        end
      else
        _ <- Db.refreshToken_updateMany (Db.mkWhere userId None false)
               (date_now a) ;;
        Ret logged_out
  | None =>
      _ <- Db.refreshToken_updateMany (Db.mkWhere userId None false)
             (date_now a) ;;
      Ret logged_out
  end.

(** [POST /auth/logout] with its middleware. *)
Definition logout (e : Env) (a : Ambient) (authHeader : option Authorization)
    (refreshToken : option Str) : Prog Response :=
  match authenticate e (seconds a) authHeader with
  | inl response => Ret response
  | inr ctx => logout_handler a (userId ctx) refreshToken
  end.

End Auth.

(** The requests of the token endpoints, and a server that handles them one
    at a time. *)
Module Server.

Inductive Request : Type :=
| POST_auth_login (email password : string)
| POST_auth_refresh (refreshToken : option Str)
| POST_auth_logout (authHeader : option Auth.Authorization)
    (refreshToken : option Str).

Definition handle (e : Auth.Env) (a : Ambient) (r : Request) : Prog Response :=
  match r with
  | POST_auth_login email password => Auth.login e a email password
  | POST_auth_refresh t => Auth.refresh e a t
  | POST_auth_logout h t => Auth.logout e a h t
  end.

(** The table after a sequence of requests, each with the clock and salt it
    was served under. *)
Fixpoint serve (e : Auth.Env) (events : list (Ambient * Request)) (db : Db.t)
  : Db.t :=
  match events with
  | [] => db
  | (a, r) :: rest => serve e rest (snd (exec (handle e a r) db))
  end.

End Server.

(** ** The in-memory variant of chapter 28 *)
Module Example.

(** An element of the module-level [users] array. *)
Module XUser.
Record t : Type := make
  { id : string;
    email : string;
    name : string;
    passwordHash : string;
    role : string;
    createdAt : Z }.
End XUser.

(** The module-level state: [users] and the [Set] [refreshTokens], kept in
    insertion order. *)
Record State : Type := mkState
  { users : list XUser.t;
    refreshTokens : list Str }.

Definition boot : State := mkState [] [].

Definition set_has (x : Str) (s : list Str) : bool := existsb (Str_eqb x) s.

Definition set_add (x : Str) (s : list Str) : list Str :=
  if set_has x s then s else s ++ [x].

Definition set_delete (x : Str) (s : list Str) : list Str :=
  filter (fun y => negb (Str_eqb x y)) s.

(** [process.env.JWT_SECRET || "supersecretdevkey-changeinproduction"] *)
Definition JWT_SECRET (process_env_JWT_SECRET : option string) : string :=
  match process_env_JWT_SECRET with
  | Some s => if String.eqb s "" then "supersecretdevkey-changeinproduction"
              else s
  | None => "supersecretdevkey-changeinproduction"
  end.

Definition access_payload (u : XUser.t) (now : Z) : Payload.t :=
  Payload.make (XUser.id u) (Some (XUser.email u)) (Some (XUser.role u)) None
    now (now + 900).

Definition refresh_payload (u : XUser.t) (now : Z) : Payload.t :=
  Payload.make (XUser.id u) None None (Some "refresh") now (now + 604800).

(** [POST /auth/register] on a validated body; [uuid] is what
    [crypto.randomUUID()] returns and [date] the clock. *)
Definition register (uuid : string) (date : Z) (email password name : string)
    (st : State) : Response * State :=
  match find (fun u => String.eqb (XUser.email u) email) (users st) with
  | Some _ => (json (error_body "Email already registered" None) 409, st)
  | None =>
      let user := XUser.make uuid email name password "user" date in
      (json (user_body uuid email name "user" date) 201,
       mkState (users st ++ [user]) (refreshTokens st))
  end.

(** [POST /auth/login] on a validated body. *)
Definition login (secret : string) (date : Z) (email password : string)
    (st : State) : Response * State :=
  match find (fun u => String.eqb (XUser.email u) email) (users st) with
  | None => (json (error_body "Invalid credentials" None) 401, st)
  | Some user =>
      if negb (String.eqb (XUser.passwordHash user) password)
      then (json (error_body "Invalid credentials" None) 401, st)
      else
        let now := date / 1000 in
        let accessToken := HonoJwt.sign (access_payload user now) secret in
        let refreshToken :=
          HonoJwt.sign (refresh_payload user now) (secret ++ "_refresh") in
        (json (tokens_body accessToken refreshToken (Some 900)) 200,
         mkState (users st) (set_add refreshToken (refreshTokens st)))
  end.

(** [POST /auth/refresh]. *)
Definition refresh (secret : string) (date : Z) (refreshToken : option Str)
    (st : State) : Response * State :=
  match refreshToken with
  | None => (json (error_body "Invalid refresh token" None) 401, st)
  | Some refreshToken =>
      if negb (truthy refreshToken)
         || negb (set_has refreshToken (refreshTokens st))
      then (json (error_body "Invalid refresh token" None) 401, st)
      else
        match HonoJwt.verify refreshToken (secret ++ "_refresh") (date / 1000)
        with
        | inl _ =>
            (json (error_body "Invalid or expired refresh token" None) 401, st)
        | inr payload =>
            if negb (match Payload.type payload with
                     | Some ty => String.eqb ty "refresh"
                     | None => false
                     end)
            then
              (json (error_body "Invalid or expired refresh token" None) 401,
               st)
            else
              match find (fun u => String.eqb (XUser.id u) (Payload.sub payload))
                      (users st) with
              | None => (json (error_body "User not found" None) 401, st)
              | Some user =>
                  let now := date / 1000 in
                  let newAccessToken :=
                    HonoJwt.sign (access_payload user now) secret in
                  let newRefreshToken :=
                    HonoJwt.sign (refresh_payload user now)
                      (secret ++ "_refresh") in
                  (json (tokens_body newAccessToken newRefreshToken None) 200,
                   mkState (users st)
                     (set_add newRefreshToken
                        (set_delete refreshToken (refreshTokens st))))
              end
        end
  end.

End Example.

(** ** [@chat/config]: the validated environment *)
Module Config.

(** The variables of [process.env] the schema reads. *)
Module ProcessEnv.
Record t : Type := make
  { PORT : option string;
    NODE_ENV : option string;
    JWT_SECRET : option string }.
End ProcessEnv.

Inductive NodeEnv : Type := development | production | test.

(** The validated [env]. *)
Module Env.
Record t : Type := make
  { PORT : Z;
    NODE_ENV : NodeEnv;
    JWT_SECRET : string }.
End Env.

(** The exported [config]. *)
Record Exported : Type := mkExported
  { port : Z;
    isDev : bool;
    nodeEnv : NodeEnv;
    jwtSecret : string }.

(** [emptyStringAsUndefined: true] *)
Definition emptyStringAsUndefined (v : option string) : option string :=
  match v with
  | Some "" => None
  | _ => v
  end.

(** [z.enum(["development", "production", "test"]).default("development")] *)
Definition parse_NODE_ENV (v : option string) : option NodeEnv :=
  match v with
  | None => Some development
  | Some s =>
      if String.eqb s "development" then Some development
      else if String.eqb s "production" then Some production
      else if String.eqb s "test" then Some test
      else None
  end.

(** [z.string().min(1).default("secret")] *)
Definition parse_JWT_SECRET (v : option string) : option string :=
  match v with
  | None => Some "secret"
  | Some s => if Nat.leb 1 (String.length s) then Some s else None
  end.

Section WithNumber.

(** JavaScript's [Number(s)] on the text of a variable, [None] when the
    result is [NaN]. *)
Variable Number : string -> option Z.

(** [z.coerce.number().default(4000)] *)
Definition parse_PORT (v : option string) : option Z :=
  match v with
  | None => Some 4000
  | Some s => Number s
  end.

(** [createEnv({ server, runtimeEnv: process.env, emptyStringAsUndefined })]:
    [None] when validation throws. *)
Definition createEnv (p : ProcessEnv.t) : option Env.t :=
  match parse_PORT (emptyStringAsUndefined (ProcessEnv.PORT p)),
        parse_NODE_ENV (emptyStringAsUndefined (ProcessEnv.NODE_ENV p)),
        parse_JWT_SECRET (emptyStringAsUndefined (ProcessEnv.JWT_SECRET p))
  with
  | Some port, Some node_env, Some secret => Some (Env.make port node_env secret)
  | _, _, _ => None
  end.

End WithNumber.

Definition config (env : Env.t) : Exported :=
  mkExported (Env.PORT env)
    (match Env.NODE_ENV env with development => true | _ => false end)
    (Env.NODE_ENV env)
    (Env.JWT_SECRET env).

End Config.

(** ** [apps/backend/src/routes/auth.ts] *)
Module Routes.

(** The fields of the JSON body the schema looks at; [None] when the field
    is missing or is not a string. *)
Record LoginJson : Type := mkLoginJson
  { email : option string;
    password : option string }.

(** The JSON of a successful answer; [debug] is [Some secretSet] in
    development and absent otherwise. *)
Record LoginReply : Type := mkLoginReply
  { success : bool;
    message : string;
    token : string;
    debug : option bool }.

Inductive RouteResponse : Type :=
| validation_error
| reply (r : LoginReply).

Section WithEmail.

(** The e-mail test of [z.string().email()]. *)
Variable is_email : string -> bool.

(** [loginSchema]: [Some] of the parsed value when the body is accepted. *)
Definition loginSchema (b : LoginJson) : option (string * string) :=
  match email b, password b with
  | Some e, Some p =>
      if is_email e && Nat.leb 6 (String.length p) then Some (e, p) else None
  | _, _ => None
  end.

(** [!!secret] *)
Definition secretSet (secret : string) : bool := negb (String.eqb secret "").

(** [authRouter.post("/login", zValidator("json", loginSchema), ...)] *)
Definition post_login (env : Config.Env.t) (b : LoginJson) : RouteResponse :=
  match loginSchema b with
  | None => validation_error
  | Some (email, password) =>
      let secret := Config.Env.JWT_SECRET env in
      reply (mkLoginReply true "Login successful" "placeholder_token"
               (if Config.isDev (Config.config env)
                then Some (secretSet secret) else None))
  end.

End WithEmail.

End Routes.

(** ** Vocabulary of the properties *)

(** Every database call a program can come to issue satisfies [Q]. *)
Fixpoint issues {A : Type} (Q : Db.Query -> Prop) (p : Prog A) : Prop :=
  match p with
  | Ret _ => True
  | Await q k => Q q /\ forall r, issues Q (k r)
  end.

(** The database calls of a token endpoint served under [e] and [a]: a row
    is created only for the hash of the refresh token minted for some user
    at the clock's second, and revocations are stamped with the clock. *)
Definition token_endpoint_query (e : Auth.Env) (a : Ambient) (q : Db.Query)
  : Prop :=
  match q with
  | Db.refreshToken_create u h x =>
      exists user,
        u = User.id user
        /\ h = Bcrypt.hash
                 (HonoJwt.sign (Auth.refresh_payload user (seconds a))
                    (Auth.JWT_REFRESH_SECRET e)) (salt a)
        /\ x = Auth.in_seven_days a
  | Db.refreshToken_updateMany _ d => d = date_now a
  | Db.refreshToken_update _ d => d = date_now a
  | _ => True
  end.

(** Two states of one row: every column but [revokedAt] is the same, and a
    revoked row is still revoked. *)
Definition same_but_revokedAt (r r' : RefreshToken.t) : Prop :=
  RefreshToken.id r' = RefreshToken.id r
  /\ RefreshToken.userId r' = RefreshToken.userId r
  /\ RefreshToken.tokenHash r' = RefreshToken.tokenHash r
  /\ RefreshToken.expiresAt r' = RefreshToken.expiresAt r
  /\ (RefreshToken.revokedAt r <> None -> RefreshToken.revokedAt r' <> None).

(** [rows'] retains [rows]: it starts with the rows of [rows], in order and
    changed in [revokedAt] at most, and continues with added rows. *)
Definition retains (rows rows' : list RefreshToken.t) : Prop :=
  exists kept added : list RefreshToken.t,
    rows' = (kept ++ added)%list /\ Forall2 same_but_revokedAt rows kept.

(** A stored value that is the bcrypt hash of a signed token. *)
Definition is_digest (h : Str) : bool :=
  match h with
  | BcryptHash (Jwt _ _) _ => true
  | _ => false
  end.

Definition digest_only (rows : list RefreshToken.t) : Prop :=
  Forall (fun r => is_digest (RefreshToken.tokenHash r) = true) rows.

(** Every row of [userId] is revoked. *)
Definition all_revoked (userId : string) (rows : list RefreshToken.t) : Prop :=
  forall r, In r rows -> RefreshToken.userId r = userId ->
            RefreshToken.revokedAt r <> None.

(** The rows the refresh handler looks a token up in: those of the user
    that are neither revoked nor expired at [date]. *)
Definition active (userId : string) (date : Z) (rows : list RefreshToken.t)
  : list RefreshToken.t :=
  filter (Db.satisfies (Db.mkWhere userId (Some date) true)) rows.

(** [updateMany({ where: { userId }, data: { revokedAt } })] on the rows. *)
Definition revoke_all (u : string) (d : Z) (rows : list RefreshToken.t)
  : list RefreshToken.t :=
  map (fun r => if Db.satisfies (Db.mkWhere u None false) r
                then RefreshToken.set_revokedAt d r else r) rows.

(** [update({ where: { id }, data: { revokedAt } })] on the rows. *)
Definition revoke_id (i : N) (d : Z) (rows : list RefreshToken.t)
  : list RefreshToken.t :=
  map (fun r => if Db.has_id i r then RefreshToken.set_revokedAt d r else r)
    rows.

(** ** Concrete inputs used by the examples below *)
Module Scenario.

(** An e-mail test: the text contains an [@]. *)
Definition has_at (s : string) : bool :=
  existsb (Ascii.eqb "@"%char) (list_ascii_of_string s).

Definition dev_env : Config.Env.t :=
  Config.Env.make 4000 Config.development "secret".

Definition env : Auth.Env := Auth.mkEnv "access-key" "refresh-key" None.

Definition alice : User.t :=
  User.make "u1" "alice@example.com" (BcryptHash (Lit "correct horse") 7)
    "user".

(** The tables before anyone has logged in. *)
Definition db0 : Db.t := Db.make [alice] [].

Definition day : Z := 24 * 60 * 60 * 1000.

(** Alice's refresh token as [login] mints it at clock [date]. *)
Definition alice_refresh (date : Z) : Str :=
  HonoJwt.sign (Auth.refresh_payload alice (date / 1000)) "refresh-key".

Definition alice_access (date : Z) : Str :=
  HonoJwt.sign (Auth.access_payload alice (date / 1000)) "access-key".

Definition login_alice (date : Z) (salt : N) : Ambient * Server.Request :=
  (mkAmbient date salt,
   Server.POST_auth_login "alice@example.com" "correct horse").

(** The tables after Alice has logged in once, at clock 1000. *)
Definition db1 : Db.t := Server.serve env [login_alice 1000 1] db0.

Definition refresh_alice (date : Z) (salt : N) (token : Str)
  : Ambient * Server.Request :=
  (mkAmbient date salt, Server.POST_auth_refresh (Some token)).

(** The tables after Alice has then rotated her token at clock 5000. *)
Definition db2 : Db.t :=
  Server.serve env [refresh_alice 5000 2 (alice_refresh 1000)] db1.

(** The tables after Alice has rotated her token six days after login
    instead. *)
Definition db2_late : Db.t :=
  Server.serve env [refresh_alice (1000 + 6 * day) 2 (alice_refresh 1000)] db1.

(** The in-memory example: its signing key, Alice registered at clock 500
    and logged in at clock 1000. *)
Definition x_secret : string := Example.JWT_SECRET None.

Definition x_alice : Example.XUser.t :=
  Example.XUser.make "id-1" "alice@example.com" "Alice" "correct horse"
    "user" 500.

Definition x_refresh (date : Z) : Str :=
  HonoJwt.sign (Example.refresh_payload x_alice (date / 1000))
    (x_secret ++ "_refresh").

Definition x_access (date : Z) : Str :=
  HonoJwt.sign (Example.access_payload x_alice (date / 1000)) x_secret.

Definition st1 : Example.State :=
  snd (Example.login x_secret 1000 "alice@example.com" "correct horse"
         (snd (Example.register "id-1" 500 "alice@example.com"
                 "correct horse" "Alice" Example.boot))).

End Scenario.

(** ** Further vocabulary *)

(** The answer of [POST /auth/login] to a failed login. *)
Definition invalid_credentials : Response :=
  json (error_body "Invalid credentials" None) 401.

(** The answer of [POST /auth/refresh] when the token's subject is no user. *)
Definition user_not_found : Response :=
  json (error_body "User not found" None) 401.

(** The row a login or a refresh adds for the refresh token it has minted
    for [user]. *)
Definition issued_row (e : Auth.Env) (a : Ambient) (user : User.t)
    (rows : list RefreshToken.t) : RefreshToken.t :=
  RefreshToken.make (Db.fresh_id rows) (User.id user)
    (Bcrypt.hash
       (HonoJwt.sign (Auth.refresh_payload user (seconds a))
          (Auth.JWT_REFRESH_SECRET e)) (salt a))
    (Auth.in_seven_days a) None.

(** An unrevoked row of [u] with the hash of a refresh token of [u]: what a
    login or a rotation adds. *)
Definition session_of (u : User.t) (r : RefreshToken.t) : Prop :=
  RefreshToken.userId r = User.id u
  /\ RefreshToken.revokedAt r = None
  /\ exists s k n,
       RefreshToken.tokenHash r
       = Bcrypt.hash (HonoJwt.sign (Auth.refresh_payload u s) k) n.

(** What one request, served under [e] and [a], may do to the rows: nothing;
    add the row of a newly minted token; stamp one unrevoked row revoked;
    both, as a rotation does; or stamp every row of one user. *)
Definition handler_effect (e : Auth.Env) (a : Ambient)
    (rows rows' : list RefreshToken.t) : Prop :=
  rows' = rows
  \/ (exists user, rows' = (rows ++ [issued_row e a user rows])%list)
  \/ (exists record,
        In record rows /\ RefreshToken.revokedAt record = None
        /\ rows' = revoke_id (RefreshToken.id record) (date_now a) rows)
  \/ (exists record user,
        In record rows /\ RefreshToken.revokedAt record = None
        /\ rows' = (revoke_id (RefreshToken.id record) (date_now a) rows
                    ++ [issued_row e a user rows])%list)
  \/ (exists u, rows' = revoke_all u (date_now a) rows).

(** A deployment that signs both classes of token with one key. *)
Definition one_key_env : Auth.Env := Auth.mkEnv "one-key" "one-key" None.

(** Two users, each logged in on one device. *)
Module TwoUsers.

Definition bob : User.t :=
  User.make "u2" "bob@example.com" (BcryptHash (Lit "hunter22") 9) "admin".

Definition login_bob (date : Z) (salt : N) : Ambient * Server.Request :=
  (mkAmbient date salt, Server.POST_auth_login "bob@example.com" "hunter22").

Definition bob_refresh (date : Z) : Str :=
  HonoJwt.sign (Auth.refresh_payload bob (date / 1000)) "refresh-key".

Definition bob_row : RefreshToken.t :=
  RefreshToken.make 1 "u2" (BcryptHash (bob_refresh 2000) 2)
    (2000 + 7 * Scenario.day) None.

(** Alice has logged in at clock 1000, Bob at clock 2000, and Alice once
    more, from a second device, at clock 3000. *)
Definition db : Db.t :=
  Server.serve Scenario.env
    [Scenario.login_alice 1000 1; login_bob 2000 2;
     Scenario.login_alice 3000 3]
    (Db.make [Scenario.alice; bob] []).

End TwoUsers.

(** ** The rest of the in-memory application of chapter 28 *)
Module ExampleApp.

(** The context variables [authenticate] sets. *)
Record Variables : Type := mkVariables
  { userId : string;
    userEmail : option string;
    userRole : option string }.

(** [authenticate]: [inl] is its own answer, [inr] the variables with which
    [next()] runs.  Every verification failure gets one answer. *)
Definition authenticate (secret : string) (now : Z)
    (auth : option Auth.Authorization) : Response + Variables :=
  match auth with
  | Some (Auth.Bearer token) =>
      match HonoJwt.verify token secret now with
      | inr payload =>
          inr (mkVariables (Payload.sub payload) (Payload.email payload)
                 (Payload.role payload))
      | inl _ => inl (json (error_body "Invalid or expired token" None) 401)
      end
  | _ => inl (json (error_body "Authentication required" None) 401)
  end.

Definition admin_access_required : Response :=
  json (error_body "Admin access required" None) 403.

(** [requireAdmin]: [Some] is its answer, [None] means [next()]. *)
Definition requireAdmin (v : Variables) : option Response :=
  match userRole v with
  | Some r => if String.eqb r "admin" then None else Some admin_access_required
  | None => Some admin_access_required
  end.

(** [const { passwordHash, ...safeUser } = user] *)
Record SafeUser : Type := mkSafeUser
  { id : string;
    email : string;
    name : string;
    role : string;
    createdAt : Z }.

Definition safe (u : Example.XUser.t) : SafeUser :=
  mkSafeUser (Example.XUser.id u) (Example.XUser.email u)
    (Example.XUser.name u) (Example.XUser.role u) (Example.XUser.createdAt u).

Definition safe_body (u : Example.XUser.t) : Body :=
  user_body (Example.XUser.id u) (Example.XUser.email u)
    (Example.XUser.name u) (Example.XUser.role u) (Example.XUser.createdAt u).

Definition not_found : Response := json (error_body "Not found" None) 404.

(** [GET /users/me] behind [authenticate]. *)
Definition get_me (secret : string) (now : Z)
    (auth : option Auth.Authorization) (st : Example.State) : Response :=
  match authenticate secret now auth with
  | inl r => r
  | inr v =>
      match find (fun u => String.eqb (Example.XUser.id u) (userId v))
              (Example.users st) with
      | None => not_found
      | Some user => json (safe_body user) 200
      end
  end.

(** [{ ...users[index], ...updates }] for the validated body [{ name? }]. *)
Definition with_name (updates : option string) (u : Example.XUser.t)
  : Example.XUser.t :=
  match updates with
  | None => u
  | Some n =>
      Example.XUser.make (Example.XUser.id u) (Example.XUser.email u) n
        (Example.XUser.passwordHash u) (Example.XUser.role u)
        (Example.XUser.createdAt u)
  end.

(** [users[index] = ...] at the index [findIndex] returns: the first element
    that satisfies [f]. *)
Fixpoint update_first (f : Example.XUser.t -> bool)
    (g : Example.XUser.t -> Example.XUser.t) (l : list Example.XUser.t)
  : list Example.XUser.t :=
  match l with
  | [] => []
  | x :: t => if f x then g x :: t else x :: update_first f g t
  end.

(** [PATCH /users/me] behind [authenticate], on a validated body. *)
Definition patch_me (secret : string) (now : Z)
    (auth : option Auth.Authorization) (updates : option string)
    (st : Example.State) : Response * Example.State :=
  match authenticate secret now auth with
  | inl r => (r, st)
  | inr v =>
      match find (fun u => String.eqb (Example.XUser.id u) (userId v))
              (Example.users st) with
      | None => (not_found, st)
      | Some user =>
          (json (safe_body (with_name updates user)) 200,
           Example.mkState
             (update_first
                (fun u => String.eqb (Example.XUser.id u) (userId v))
                (with_name updates) (Example.users st))
             (Example.refreshTokens st))
      end
  end.

(** [POST /auth/logout] behind [authenticate]: nothing is revoked. *)
Definition logout (secret : string) (now : Z)
    (auth : option Auth.Authorization) : Response :=
  match authenticate secret now auth with
  | inl r => r
  | inr _ => json (message_body "Logged out") 200
  end.

(** [Array.prototype.slice(start, end)] on integer arguments. *)
Definition js_slice {A : Type} (start final : Z) (l : list A) : list A :=
  let len := Z.of_nat (length l) in
  let k := if start <? 0 then Z.max (len + start) 0 else Z.min start len in
  let f := if final <? 0 then Z.max (len + final) 0 else Z.min final len in
  firstn (Z.to_nat (f - k)) (skipn (Z.to_nat k) l).

(** [Math.ceil(n / d)] for integers [n] and [d]; [None] when [d] is zero and
    the quotient is not a finite number. *)
Definition ceil_div (n d : Z) : option Z :=
  if d =? 0 then None else Some (- ((- n) / d)).

(** The answer of [GET /admin/users]. *)
Inductive AdminAnswer : Type :=
| denied (r : Response)
| page_of_users (data : list SafeUser) (page limit total : Z)
    (totalPages : option Z).

(** [GET /admin/users] behind [authenticate] and [requireAdmin].  [page] and
    [limit] are what [parseInt] makes of the query parameters when they are
    present and numeric; [None] is an absent parameter. *)
Definition admin_users (secret : string) (now : Z)
    (auth : option Auth.Authorization) (page limit : option Z)
    (st : Example.State) : AdminAnswer :=
  match authenticate secret now auth with
  | inl r => denied r
  | inr v =>
      match requireAdmin v with
      | Some r => denied r
      | None =>
          let p := match page with Some n => n | None => 1 end in
          let l := match limit with Some n => n | None => 10 end in
          let start := (p - 1) * l in
          page_of_users
            (map safe (js_slice start (start + l) (Example.users st)))
            p l (Z.of_nat (length (Example.users st)))
            (ceil_div (Z.of_nat (length (Example.users st))) l)
      end
  end.

(** The requests that can change the state of the application. *)
Inductive Event : Type :=
| register (uuid : string) (date : Z) (email password name : string)
| login (date : Z) (email password : string)
| refresh (date : Z) (refreshToken : option Str)
| patch (date : Z) (auth : option Auth.Authorization)
    (updates : option string).

Definition apply (secret : string) (ev : Event) (st : Example.State)
  : Example.State :=
  match ev with
  | register uuid date em pw nm =>
      snd (Example.register uuid date em pw nm st)
  | login date em pw => snd (Example.login secret date em pw st)
  | refresh date t => snd (Example.refresh secret date t st)
  | patch date auth updates =>
      snd (patch_me secret (date / 1000) auth updates st)
  end.

(** The state after a sequence of requests, from the state at boot. *)
Definition run (secret : string) (events : list Event) : Example.State :=
  fold_left (fun st ev => apply secret ev st) events Example.boot.

End ExampleApp.

(** The [data] of an answer of [GET /admin/users]; a denial has none. *)
Definition data_of (ans : ExampleApp.AdminAnswer)
  : list ExampleApp.SafeUser :=
  match ans with
  | ExampleApp.page_of_users data _ _ _ _ => data
  | ExampleApp.denied _ => []
  end.

(** A token with which the in-memory application's administrator routes
    open: one that carries [role = "admin"] under the application's key. *)
Definition admin_token (secret : string) (sub : string) (now : Z) : Str :=
  HonoJwt.sign
    (Payload.make sub (Some "root@example.com") (Some "admin") None now
       (now + 900)) secret.

(** The in-memory application after three registrations. *)
Definition three_users : Example.State :=
  ExampleApp.run Scenario.x_secret
    [ExampleApp.register "id-1" 500 "alice@example.com" "correct horse"
       "Alice";
     ExampleApp.register "id-2" 600 "bob@example.com" "hunter22" "Bob";
     ExampleApp.register "id-3" 700 "carol@example.com" "pa55word" "Carol"].

(** ** Authorization middlewares of chapter 11 *)
Module Rbac.

(** [type Role]: the roles the tables are declared for. *)
Inductive Role : Type := user | moderator | admin | superadmin.

Definition all_roles : list Role := [user; moderator; admin; superadmin].

(** The string a role is at run time. *)
Definition name (r : Role) : string :=
  match r with
  | user => "user"
  | moderator => "moderator"
  | admin => "admin"
  | superadmin => "superadmin"
  end.

Definition level (r : Role) : Z :=
  match r with
  | user => 1
  | moderator => 2
  | admin => 3
  | superadmin => 4
  end.

(** The role a run-time string names, if any. *)
Definition role_of (s : string) : option Role :=
  find (fun r => String.eqb (name r) s) all_roles.

(** [roleHierarchy[userRole]] on the string the context holds: [None] is
    JavaScript's [undefined], for a string that is no key of the table. *)
Definition roleHierarchy (userRole : string) : option Z :=
  option_map level (role_of userRole).

(** JavaScript's [<] on a number or [undefined]: a comparison with
    [undefined] is false. *)
Definition js_lt (x y : option Z) : bool :=
  match x, y with
  | Some a, Some b => a <? b
  | _, _ => false
  end.

Inductive Permission : Type :=
| users_read | users_write | users_delete
| posts_read | posts_write | posts_delete
| admin_access.

Definition Permission_eqb (p q : Permission) : bool :=
  match p, q with
  | users_read, users_read | users_write, users_write
  | users_delete, users_delete | posts_read, posts_read
  | posts_write, posts_write | posts_delete, posts_delete
  | admin_access, admin_access => true
  | _, _ => false
  end.

Definition permissions_of (r : Role) : list Permission :=
  match r with
  | user => [posts_read; posts_write; users_read]
  | moderator => [posts_read; posts_write; posts_delete; users_read]
  | admin => [users_read; users_write; posts_read; posts_write; posts_delete]
  | superadmin =>
      [users_read; users_write; users_delete; posts_read; posts_write;
       posts_delete; admin_access]
  end.

(** The property names every object inherits from [Object.prototype]:
    looked up in a table, they give a function or an object, not
    [undefined]. *)
Definition inherited_keys : list string :=
  ["constructor"; "__proto__"; "hasOwnProperty"; "isPrototypeOf";
   "propertyIsEnumerable"; "toLocaleString"; "toString"; "valueOf";
   "__defineGetter__"; "__defineSetter__"; "__lookupGetter__";
   "__lookupSetter__"].

(** [rolePermissions[userRole] || []]: [None] is an inherited value, which
    is truthy and has no [includes]. *)
Definition rolePermissions (userRole : option string)
  : option (list Permission) :=
  match userRole with
  | Some s =>
      match role_of s with
      | Some r => Some (permissions_of r)
      | None =>
          if existsb (String.eqb s) inherited_keys then None else Some []
      end
  | None => Some []
  end.

(** What a middleware does: call [next()], or answer itself. *)
Inductive Verdict : Type :=
| next
| not_authenticated
| insufficient_permissions (required : string) (current : string)
| forbidden
| missing_permission (p : Permission)
| access_denied
| throws_type_error.

(** The status of the answer when the middleware does not call [next()];
    a thrown error is answered by the application's error handler. *)
Definition status_of (v : Verdict) : option Z :=
  match v with
  | next => None
  | not_authenticated => Some 401
  | throws_type_error => Some 500
  | _ => Some 403
  end.

(** [requireRole(minRole)] on the [userRole] of the context. *)
Definition requireRole (minRole : Role) (userRole : option string) : Verdict :=
  match userRole with
  | None => not_authenticated
  | Some s =>
      if String.eqb s "" then not_authenticated
      else if js_lt (roleHierarchy s) (roleHierarchy (name minRole))
           then insufficient_permissions (name minRole) s
           else next
  end.

(** [requireAnyRole(...roles)] *)
Definition requireAnyRole (roles : list Role) (userRole : option string)
  : Verdict :=
  match userRole with
  | Some s =>
      if existsb (fun r => String.eqb (name r) s) roles then next
      else forbidden
  | None => forbidden
  end.

(** [requirePermission(permission)] *)
Definition requirePermission (permission : Permission)
    (userRole : option string) : Verdict :=
  match rolePermissions userRole with
  | Some permissions =>
      if existsb (Permission_eqb permission) permissions
      then next else missing_permission permission
  | None => throws_type_error
  end.

End Rbac.

(** ** The in-memory rate limiter of chapter 17 *)
Module RateLimiter.

Record RateRecord : Type := mkRecord
  { count : Z;
    resetAt : Z }.

(** The module-level [Map<string, RateRecord>]. *)
Definition Store : Type := string -> option RateRecord.

Definition empty : Store := fun _ => None.

(** [store.set(key, record)] *)
Definition set (key : string) (r : RateRecord) (s : Store) : Store :=
  fun k => if String.eqb k key then Some r else s k.

(** [RateLimiterOptions]; an absent option takes its default. *)
Record Options : Type := mkOptions
  { windowMs : option Z;
    max : option Z;
    message : option string }.

Definition windowMs_of (o : Options) : Z :=
  match windowMs o with Some w => w | None => 60000 end.

Definition max_of (o : Options) : Z :=
  match max o with Some m => m | None => 60 end.

Definition message_of (o : Options) : string :=
  match message o with
  | Some m => m
  | None => "Too many requests, please try again later."
  end.

(** The default [keyGenerator]: [c.req.header("x-forwarded-for") ??
    "unknown"]. *)
Definition default_key (x_forwarded_for : option string) : string :=
  match x_forwarded_for with Some ip => ip | None => "unknown" end.

(** [Math.ceil(ms / 1000)] *)
Definition ceil_seconds (ms : Z) : Z := - ((- ms) / 1000).

(** What the middleware does: [next()] with the headers [X-RateLimit-Limit],
    [X-RateLimit-Remaining] and, in a fresh window, [X-RateLimit-Reset]; or
    the 429 answer with [Limit], [Reset], [Retry-After] and the message. *)
Inductive Outcome : Type :=
| passed (limit remaining : Z) (reset : option Z)
| too_many (limit reset retryAfter : Z) (error : string).

(** The middleware [rateLimiter(options)] for the request of [key] at clock
    [now]. *)
Definition rateLimiter (o : Options) (key : string) (now : Z) (s : Store)
  : Outcome * Store :=
  let fresh :=
    (passed (max_of o) (max_of o - 1)
       (Some (ceil_seconds (now + windowMs_of o))),
     set key (mkRecord 1 (now + windowMs_of o)) s) in
  match s key with
  | None => fresh
  | Some record =>
      if resetAt record <? now then fresh
      else if max_of o <=? count record
           then (too_many (max_of o) (ceil_seconds (resetAt record))
                   (ceil_seconds (resetAt record - now)) (message_of o), s)
           else (passed (max_of o) (max_of o - (count record + 1)) None,
                 set key (mkRecord (count record + 1) (resetAt record)) s)
  end.

(** The outcomes of the requests of one key at the clocks [times], in
    order. *)
Fixpoint requests (o : Options) (key : string) (times : list Z) (s : Store)
  : list Outcome * Store :=
  match times with
  | [] => ([], s)
  | now :: rest =>
      let (out, s1) := rateLimiter o key now s in
      let (outs, s2) := requests o key rest s1 in
      (out :: outs, s2)
  end.

Definition is_passed (out : Outcome) : bool :=
  match out with
  | passed _ _ _ => true
  | too_many _ _ _ _ => false
  end.

(** How many of the outcomes are [next()]. *)
Definition admitted (outs : list Outcome) : nat :=
  length (filter is_passed outs).

End RateLimiter.

(** The limiter's store after the requests [(key, clock)], in order, from
    the empty store, and the outcome of a last one. *)
Definition limiter_store (o : RateLimiter.Options)
    (reqs : list (string * Z)) : RateLimiter.Store :=
  fold_left (fun s kt => snd (RateLimiter.rateLimiter o (fst kt) (snd kt) s))
    reqs RateLimiter.empty.

(** The [X-RateLimit-Remaining] header of an outcome; the 429 answer sets it
    to ["0"]. *)
Definition remaining_of (out : RateLimiter.Outcome) : Z :=
  match out with
  | RateLimiter.passed _ remaining _ => remaining
  | RateLimiter.too_many _ _ _ _ => 0
  end.

(** ** Pagination helpers of chapter 25 *)
Module Pagination.

(** A JavaScript number that is an integer or is not finite. *)
Inductive Num : Type :=
| fin (z : Z)
| plus_infinity
| minus_infinity
| not_a_number.

(** [Math.ceil(total / limit)] on integers. *)
Definition ceil_quotient (total limit : Z) : Num :=
  if limit =? 0
  then if 0 <? total then plus_infinity
       else if total <? 0 then minus_infinity
       else not_a_number
  else fin (- ((- total) / limit)).

(** [page < totalPages] *)
Definition lt_num (page : Z) (n : Num) : bool :=
  match n with
  | fin z => page <? z
  | plus_infinity => true
  | minus_infinity => false
  | not_a_number => false
  end.

Record PaginationMeta : Type := mkMeta
  { page : Z;
    limit : Z;
    total : Z;
    totalPages : Num;
    hasNext : bool;
    hasPrev : bool }.

Definition buildPaginationMeta (page limit total : Z) : PaginationMeta :=
  let totalPages := ceil_quotient total limit in
  mkMeta page limit total totalPages (lt_num page totalPages) (1 <? page).

(** [paginate(data, page, limit, total)] *)
Definition paginate {T : Type} (data : list T) (page limit total : Z)
  : list T * PaginationMeta :=
  (data, buildPaginationMeta page limit total).

End Pagination.

(** ** [sanitize] of chapter 23 *)
Module Sanitize.

(** A JavaScript string: its UTF-16 code units. *)
Definition js_string : Type := list N.

(** ECMAScript's white space and line terminators, which [trim] removes. *)
Definition is_white_space (c : N) : bool :=
  existsb (N.eqb c)
    [9; 10; 11; 12; 13; 32; 160; 5760; 8192; 8193; 8194; 8195; 8196; 8197;
     8198; 8199; 8200; 8201; 8202; 8232; 8233; 8239; 8287; 12288; 65279]%N.

(** [<] and [>] *)
Definition is_angle (c : N) : bool := (c =? 60)%N || (c =? 62)%N.

(** [.replace(/[<>]/g, "")] *)
Definition remove_angles (s : js_string) : js_string :=
  filter (fun c => negb (is_angle c)) s.

Fixpoint trim_start (s : js_string) : js_string :=
  match s with
  | [] => []
  | c :: rest => if is_white_space c then trim_start rest else s
  end.

Definition trim_end (s : js_string) : js_string :=
  rev (trim_start (rev s)).

(** [.trim()] *)
Definition trim (s : js_string) : js_string := trim_end (trim_start s).

(** [sanitize(input)] *)
Definition sanitize (input : js_string) : js_string :=
  firstn 1000 (trim (remove_angles input)).

(** The string is empty or starts with a code unit that is no white
    space. *)
Definition starts_clean (s : js_string) : bool :=
  match s with
  | [] => true
  | c :: _ => negb (is_white_space c)
  end.

End Sanitize.

(** ** [apps/backend/src/index.ts] *)
Module BackendIndex.

(** The [origin] option given to [cors]. *)
Definition cors_origin (c : Config.Exported) : list string :=
  if Config.isDev c
  then ["http://localhost:3000"; "http://127.0.0.1:3000"]
  else ["https://your-production-domain.com"].

(** Whether [prettyJSON] is installed. *)
Definition pretty_json (c : Config.Exported) : bool := Config.isDev c.

(** The JSON bodies [{ success: false, error }] of the two handlers. *)
Record Failure : Type := mkFailure
  { error : string;
    status : Z }.

(** [app.onError]: [message] is [err.message]. *)
Definition onError (c : Config.Exported) (message : string) : Failure :=
  mkFailure (if Config.isDev c then message else "Internal Server Error") 500.

(** [app.notFound] *)
Definition notFound : Failure := mkFailure "Not Found" 404.

(** [GET /health]; [uptime] is [process.uptime()] in whole seconds. *)
Record Health : Type := mkHealth
  { h_status : string;
    environment : Config.NodeEnv;
    port : Z;
    uptimeSeconds : Z }.

Definition health (c : Config.Exported) (uptime : Z) : Health :=
  mkHealth "ok" (Config.nodeEnv c) (Config.port c) uptime.

End BackendIndex.

(** ** The upload handler of chapter 16 *)
Module Upload.

(** The [File] of the form: its MIME type, its size in bytes and its name
    as UTF-16 code units. *)
Record File : Type := mkFile
  { type : string;
    size : Z;
    name : Sanitize.js_string }.

Definition allowedTypes : list string :=
  ["image/jpeg"; "image/png"; "image/webp"; "application/pdf"].

(** [file.name.replace(/\s/g, "-")]; 45 is the hyphen. *)
Definition dashed (s : Sanitize.js_string) : Sanitize.js_string :=
  map (fun c => if Sanitize.is_white_space c then 45%N else c) s.

(** The answers of [POST /upload].  In [created], the file name of the
    answer is ["uploads/"], the decimal text of [stamp], a hyphen and
    [stored_name]. *)
Inductive Answer : Type :=
| no_file_provided
| invalid_file_type
| file_too_large
| created (stamp : Z) (stored_name : Sanitize.js_string) (size : Z)
    (type : string).

Definition status_of (a : Answer) : Z :=
  match a with
  | no_file_provided => 400
  | invalid_file_type => 415
  | file_too_large => 413
  | created _ _ _ _ => 201
  end.

(** [POST /upload]; [file] is [form.get("file")], [None] when the form has
    no such field. *)
Definition upload (now : Z) (file : option File) : Answer :=
  match file with
  | None => no_file_provided
  | Some file =>
      if negb (existsb (String.eqb (type file)) allowedTypes)
      then invalid_file_type
      else if 5 * 1024 * 1024 <? size file then file_too_large
      else created now (dashed (name file)) (size file) (type file)
  end.

End Upload.

(** ** The global error handler of chapter 13 *)
Module ErrorHandler.

(** What can reach [app.onError]: an [HTTPException], an [AppError], or any
    other error with its [name], [message] and [stack]. *)
Inductive Thrown : Type :=
| HTTPException (status : Z) (message : string)
| AppError (message : string) (statusCode : Z) (code : option string)
    (details : option string)
| Error (name message : string) (stack : string).

(** The JSON bodies of the handler. *)
Inductive ErrorBody : Type :=
| http_body (error : string) (status : Z)
| app_body (error : string) (code : option string) (details : option string)
| validation_body (message_to_parse : string)
| token_expired_body
| fallback_body (error : string) (stack : option string).

(** [app.onError]; [node_env] is [process.env.NODE_ENV].  The answer is the
    body and the status. *)
Definition onError (node_env : option string) (err : Thrown) : ErrorBody * Z :=
  match err with
  | HTTPException status message => (http_body message status, status)
  | AppError message statusCode code details =>
      (app_body message code details, statusCode)
  | Error name message stack =>
      if String.eqb name "ZodError" then (validation_body message, 422)
      else if String.eqb name "JwtTokenExpired" then (token_expired_body, 401)
      else
        let isDev := match node_env with
                     | Some s => String.eqb s "development"
                     | None => false
                     end in
        (fallback_body (if isDev then message else "Internal server error")
           (if isDev then Some stack else None), 500)
  end.

(** The body [{ error: "Token expired", code: "TOKEN_EXPIRED" }] as a
    response of the handlers. *)
Definition as_response (b : ErrorBody * Z) : option Response :=
  match fst b with
  | token_expired_body =>
      Some (json (error_body "Token expired" (Some "TOKEN_EXPIRED")) (snd b))
  | _ => None
  end.

End ErrorHandler.

(** * Properties *)

(** ** Symbolic strings *)

Lemma Str_eqb_eq (a b : Str) : Str_eqb a b = true <-> a = b.
Proof.
  unfold Str_eqb; destruct (Str_eq_dec a b); split; congruence.
Qed.

Lemma Str_eqb_refl (a : Str) : Str_eqb a a = true.
Proof. now apply Str_eqb_eq. Qed.

Lemma Str_eqb_neq (a b : Str) : Str_eqb a b = false <-> a <> b.
Proof.
  unfold Str_eqb; destruct (Str_eq_dec a b); split; congruence.
Qed.

(** ** Characters *)

Lemma append_assoc (a b c : string) : (a ++ b) ++ c = a ++ (b ++ c).
Proof. induction a as [|x a IH]; simpl; [reflexivity|now rewrite IH]. Qed.

Lemma length_append (a b : string) :
  String.length (a ++ b) = (String.length a + String.length b)%nat.
Proof. induction a as [|x a IH]; simpl; [reflexivity|now rewrite IH]. Qed.

Lemma substring_append (a b : string) (n : nat) :
  substring 0 (String.length a + n) (a ++ b) = a ++ substring 0 n b.
Proof. induction a as [|x a IH]; simpl; [reflexivity|now rewrite IH]. Qed.

Lemma substring_of_substring (n m : nat) (s : string) :
  (n <= m)%nat -> substring 0 n (substring 0 m s) = substring 0 n s.
Proof.
  revert m s; induction n as [|n IH]; intros m s H.
  - now destruct (substring 0 m s), s.
  - destruct m as [|m]; [lia|].
    destruct s as [|c s]; simpl; [reflexivity|].
    now rewrite IH by lia.
Qed.

Lemma includes_append_r (needle a b : string) :
  includes needle b = true -> includes needle (a ++ b) = true.
Proof.
  intros H; induction a as [|x a IH]; simpl; [exact H|].
  rewrite IH; apply orb_true_r.
Qed.

(** The message of the expiry error reads "expired" whatever the token. *)
Lemma message_of_expiry_error (token : Str) :
  includes "expired" (HonoJwt.message (HonoJwt.JwtTokenExpired token)) = true.
Proof.
  unfold HonoJwt.message.
  apply (includes_append_r _ "token ("), includes_append_r; reflexivity.
Qed.

(** The message of the error for a string that is no token reads "expired"
    exactly when the string does. *)
Lemma message_of_invalid_literal (s : string) :
  includes "expired" (HonoJwt.message (HonoJwt.JwtTokenInvalid (Lit s)))
  = includes "expired" s.
Proof. reflexivity. Qed.

(** The first [4 k] characters of an encoding are those of the first [3 k]
    bytes. *)
Lemma encode_prefix (k : nat) :
  forall a x y : string,
    (3 * k <= String.length a)%nat ->
    substring 0 (4 * k) (Base64Url.encode (a ++ x))
    = substring 0 (4 * k) (Base64Url.encode (a ++ y)).
Proof.
  induction k as [|k IH]; intros a x y Hlen.
  - simpl; now destruct (Base64Url.encode _), (Base64Url.encode _).
  - destruct a as [|c1 [|c2 [|c3 a]]]; simpl in Hlen; try lia.
    replace (4 * S k)%nat with (S (S (S (S (4 * k))))) by lia.
    cbn [append Base64Url.encode substring].
    now rewrite (IH a x y) by lia.
Qed.

(** ** What bcrypt sees of a refresh token *)

(** The first 72 bytes of a refresh token are the header and the start of
    the payload, [sub] first: they are the same for all refresh tokens of
    one user, whenever and under whatever key they were signed. *)
Lemma refresh_tokens_share_input (sub : string) (i x i' x' : Z)
    (k k' : string) :
  Bcrypt.input (Jwt (Payload.make sub None None (Some "refresh") i x) k)
  = Bcrypt.input (Jwt (Payload.make sub None None (Some "refresh") i' x') k').
Proof.
  cbn [Bcrypt.input]; f_equal.
  unfold HonoJwt.signing_input.
  set (h := HonoJwt.header ++ ".").
  assert (Hh : forall e, HonoJwt.header ++ "." ++ e = h ++ e)
    by (intros e; unfold h; now rewrite append_assoc).
  rewrite !Hh.
  change 72%nat with (String.length h + 35)%nat.
  rewrite !substring_append; f_equal.
  rewrite <- (substring_of_substring 35 (4 * 9)) by lia.
  rewrite <- (substring_of_substring 35 (4 * 9)
                (Base64Url.encode
                   (Json.of_payload
                      (Payload.make sub None None (Some "refresh") i' x'))))
    by lia.
  f_equal.
  unfold Json.of_payload.
  cbn [Payload.sub Payload.email Payload.role Payload.type Payload.iat
         Payload.exp Json.optional].
  set (a := "{" ++ Json.key "sub" ++ Json.of_string sub ++ ","
            ++ Json.key "type" ++ Json.of_string "refresh" ++ ","
            ++ Json.key "iat").
  assert (Ha : forall t,
             "{" ++ Json.key "sub" ++ Json.of_string sub ++ "" ++ ""
             ++ ("," ++ Json.key "type" ++ Json.of_string "refresh")
             ++ "," ++ Json.key "iat" ++ t = a ++ t).
  { intros t; unfold a; cbn [append]; f_equal.
    rewrite !append_assoc; reflexivity. }
  rewrite !Ha.
  apply encode_prefix.
  unfold a; rewrite !length_append; unfold Json.of_string.
  rewrite !length_append; cbn; lia.
Qed.

Lemma compare_hash_iff (s t : Str) (n : N) :
  Bcrypt.compare s (Bcrypt.hash t n) = true <-> Bcrypt.input s = Bcrypt.input t.
Proof.
  unfold Bcrypt.compare, Bcrypt.hash.
  destruct (Bcrypt.Input_eq_dec _ _); split; congruence.
Qed.

Lemma compare_hash_refl (s : Str) (n : N) :
  Bcrypt.compare s (Bcrypt.hash s n) = true.
Proof. now apply compare_hash_iff. Qed.

(** [bcrypt.compare] cannot tell two refresh tokens of one user apart. *)
Lemma compare_refresh_tokens (u u' : User.t) (s s' : Z) (k k' : string)
    (n : N) :
  User.id u = User.id u' ->
  Bcrypt.compare (HonoJwt.sign (Auth.refresh_payload u s) k)
    (Bcrypt.hash (HonoJwt.sign (Auth.refresh_payload u' s') k') n) = true.
Proof.
  intros Hid; apply compare_hash_iff.
  unfold HonoJwt.sign, Auth.refresh_payload; rewrite Hid.
  apply refresh_tokens_share_input.
Qed.

(** ** The environment schema and the placeholder login *)



(** C9 - placeholder login is password independent.  Every body the schema
    accepts is answered with [success: true] and the constant token
    ["placeholder_token"], and any two accepted bodies - in particular two
    that differ only in their password - get the same answer. *)
Theorem placeholder_login_password_independent :
  forall (is_email : string -> bool) (env : Config.Env.t)
         (b b' : Routes.LoginJson),
    Routes.loginSchema is_email b <> None ->
    Routes.loginSchema is_email b' <> None ->
    (exists r, Routes.post_login is_email env b = Routes.reply r
               /\ Routes.success r = true
               /\ Routes.token r = "placeholder_token")
    /\ Routes.post_login is_email env b' = Routes.post_login is_email env b.
Proof.
  intros is_email env b b' Hb Hb'; unfold Routes.post_login.
  destruct (Routes.loginSchema is_email b) as [[e p]|]; [|congruence].
  destruct (Routes.loginSchema is_email b') as [[e' p']|]; [|congruence].
  split; [eexists; repeat split|reflexivity].
Qed.

Lemma placeholder_login_password_independent_witness :
  Routes.post_login Scenario.has_at Scenario.dev_env
    (Routes.mkLoginJson (Some "a@b.io") (Some "hunter22"))
  = Routes.post_login Scenario.has_at Scenario.dev_env
      (Routes.mkLoginJson (Some "a@b.io") (Some "123456")).
Proof.
  apply (placeholder_login_password_independent Scenario.has_at
           Scenario.dev_env
           (Routes.mkLoginJson (Some "a@b.io") (Some "123456"))
           (Routes.mkLoginJson (Some "a@b.io") (Some "hunter22")));
    vm_compute; discriminate.
Defined.

(** ** Verification and the guard *)

Lemma verify_inr_inv (token : Str) (secret : string) (now : Z)
    (p : Payload.t) :
  HonoJwt.verify token secret now = inr p ->
  token = Jwt p secret /\ Payload.iat p <= now < Payload.exp p.
Proof.
  destruct token as [l|q k|h n]; simpl; try discriminate.
  destruct (Z.leb_spec (Payload.exp q) now); [discriminate|].
  destruct (Z.ltb_spec now (Payload.iat q)); [discriminate|].
  destruct (String.eqb_spec k secret); [|discriminate].
  intros [= ->]; subst; split; [reflexivity|lia].
Qed.

Lemma verify_signed (p : Payload.t) (secret : string) (now : Z) :
  Payload.iat p <= now -> now < Payload.exp p ->
  HonoJwt.verify (HonoJwt.sign p secret) secret now = inr p.
Proof.
  intros Hiat Hexp; simpl.
  destruct (Z.leb_spec (Payload.exp p) now); [lia|].
  destruct (Z.ltb_spec now (Payload.iat p)); [lia|].
  now rewrite String.eqb_refl.
Qed.

Lemma verify_expired (p : Payload.t) (key secret : string) (now : Z) :
  Payload.exp p <= now ->
  HonoJwt.verify (Jwt p key) secret now
  = inl (HonoJwt.JwtTokenExpired (Jwt p key)).
Proof.
  intros H; simpl.
  destruct (Z.leb_spec (Payload.exp p) now); [reflexivity|lia].
Qed.

(** C7 - expiry handling.  The guard does not look at the kind of the error
    that verification raised but searches the error's message for the word
    "expired", and the message of the error raised for a string that is no
    token quotes that string.  So a string that has not the three parts of a
    token is answered [TOKEN_EXPIRED] exactly when it contains the word: the
    header [Bearer expired] gets the answer that Alice's access token gets
    once it has expired, and [Bearer invalid] gets "Invalid token". *)
Theorem token_expired_code_follows_the_message :
  forall (e : Auth.Env) (now : Z) (s : string),
    HonoJwt.parts s <> 3%nat ->
    HonoJwt.verify (Lit s) (Auth.access_secret e) now
    = inl (HonoJwt.JwtTokenInvalid (Lit s))
    /\ Auth.authenticate e now (Some (Auth.Bearer (Lit s)))
       = inl (if includes "expired" s
              then json (error_body "Token expired" (Some "TOKEN_EXPIRED")) 401
              else json (error_body "Invalid token" None) 401)
    /\ Auth.authenticate e now (Some (Auth.Bearer (Lit "expired")))
       = inl (json (error_body "Token expired" (Some "TOKEN_EXPIRED")) 401)
    /\ Auth.authenticate e now (Some (Auth.Bearer (Lit "expired")))
       = Auth.authenticate e 901
           (Some (Auth.Bearer (Scenario.alice_access 1000)))
    /\ Auth.authenticate e now (Some (Auth.Bearer (Lit "invalid")))
       = inl (json (error_body "Invalid token" None) 401).
Proof.
  intros e now s _.
  assert (Hlit : forall l,
             Auth.authenticate e now (Some (Auth.Bearer (Lit l)))
             = inl (if includes "expired" l
                    then json (error_body "Token expired"
                                 (Some "TOKEN_EXPIRED")) 401
                    else json (error_body "Invalid token" None) 401)).
  { intros l; unfold Auth.authenticate; cbn [HonoJwt.verify].
    rewrite message_of_invalid_literal.
    destruct (includes "expired" l); reflexivity. }
  split; [reflexivity|split; [apply Hlit|]].
  split; [apply (Hlit "expired")|split; [|apply (Hlit "invalid")]].
  rewrite (Hlit "expired"); unfold Auth.authenticate.
  unfold Scenario.alice_access, HonoJwt.sign.
  rewrite verify_expired by (vm_compute; discriminate).
  now rewrite message_of_expiry_error.
Qed.

Lemma token_expired_code_follows_the_message_witness :
  Auth.authenticate Scenario.env 2
    (Some (Auth.Bearer (Lit "never-issued,never-expired")))
  = inl (json (error_body "Token expired" (Some "TOKEN_EXPIRED")) 401).
Proof.
  apply (token_expired_code_follows_the_message Scenario.env 2
           "never-issued,never-expired").
  vm_compute; discriminate.
Defined.

(** A token that is past its expiry is answered [TOKEN_EXPIRED] whatever
    its key, and the refresh handler rejects it without a database call. *)
Lemma expired_token_is_answered_token_expired (e : Auth.Env) (p : Payload.t)
    (key : string) (now : Z) :
  Payload.exp p <= now ->
  Auth.authenticate e now (Some (Auth.Bearer (Jwt p key)))
  = inl (json (error_body "Token expired" (Some "TOKEN_EXPIRED")) 401)
  /\ forall a db, seconds a = now ->
       exec (Auth.refresh e a (Some (Jwt p key))) db
       = (Auth.invalid_or_expired, db).
Proof.
  intros Hexp; split.
  - unfold Auth.authenticate.
    rewrite verify_expired by assumption.
    now rewrite message_of_expiry_error.
  - intros a db Ha; unfold Auth.refresh.
    cbn [truthy negb]; rewrite Ha, verify_expired by assumption.
    reflexivity.
Qed.

(** C4 - class isolation.  The refresh handler looks at the [type] claim,
    the guard does not.  An access token is never accepted by the refresh
    handler, whatever the keys: it fails verification, or it verifies and is
    answered "Invalid token type"; the tables are left alone.  A refresh
    token presented to the guard is judged by its signature and its dates
    only: when the guard's key is the refresh key it is let through, for
    the seven days it lives, with the user's id and no role. *)
Theorem refresh_token_passes_the_guard_under_one_key :
  forall (e : Auth.Env) (u : User.t) (s now : Z),
    Auth.access_secret e = Auth.JWT_REFRESH_SECRET e ->
    s <= now -> now < s + 60 * 60 * 24 * 7 ->
    Auth.authenticate e now
      (Some (Auth.Bearer
               (HonoJwt.sign (Auth.refresh_payload u s)
                  (Auth.JWT_REFRESH_SECRET e))))
    = inr (Auth.mkCtx (User.id u) None (Auth.refresh_payload u s))
    /\ forall a db,
         snd (exec (Auth.refresh e a
                      (Some (HonoJwt.sign (Auth.access_payload u s)
                               (Auth.JWT_SECRET e)))) db) = db
         /\ (fst (exec (Auth.refresh e a
                          (Some (HonoJwt.sign (Auth.access_payload u s)
                                   (Auth.JWT_SECRET e)))) db)
             = Auth.invalid_or_expired
             \/ fst (exec (Auth.refresh e a
                             (Some (HonoJwt.sign (Auth.access_payload u s)
                                      (Auth.JWT_SECRET e)))) db)
                = Auth.invalid_token_type).
Proof.
  intros e u s now Hkey Hiat Hexp; split.
  - unfold Auth.authenticate; rewrite Hkey.
    rewrite verify_signed by (cbn; lia); reflexivity.
  - intros a db; unfold Auth.refresh, HonoJwt.sign; cbn [truthy negb].
    destruct (HonoJwt.verify _ _ _) as [err|q] eqn:Hv;
      [split; [reflexivity|left; reflexivity]|].
    apply verify_inr_inv in Hv as [[= <- _] _].
    split; [reflexivity|right; reflexivity].
Qed.

Lemma refresh_token_passes_the_guard_under_one_key_witness :
  Auth.authenticate one_key_env 2
    (Some (Auth.Bearer
             (HonoJwt.sign (Auth.refresh_payload Scenario.alice 1)
                "one-key")))
  = inr (Auth.mkCtx "u1" None (Auth.refresh_payload Scenario.alice 1)).
Proof.
  apply (refresh_token_passes_the_guard_under_one_key one_key_env
           Scenario.alice 1 2); [reflexivity|lia|lia].
Defined.

(** Under two keys the refresh token fails at the guard and the access
    token at the refresh handler, each for its signature: the refresh
    handler then answers as for any token that fails verification, not
    "Invalid token type". *)
Lemma tokens_under_two_keys_fail_by_signature :
  fst (exec (Auth.refresh Scenario.env (mkAmbient 2000 2)
               (Some (Scenario.alice_access 1000))) Scenario.db1)
  = Auth.invalid_or_expired
  /\ Auth.invalid_or_expired <> Auth.invalid_token_type
  /\ Auth.authenticate Scenario.env 2
       (Some (Auth.Bearer (Scenario.alice_refresh 1000)))
     = inl (json (error_body "Invalid token" None) 401).
Proof.
  split; [vm_compute; reflexivity|split; [discriminate|vm_compute; reflexivity]].
Qed.

(** ** Logout *)

Lemma length_le_1_unique {A : Type} (l : list A) (x y : A) :
  (length l <= 1)%nat -> In x l -> In y l -> x = y.
Proof.
  destruct l as [|a [|b l]]; simpl; intros Hlen Hx Hy;
    [contradiction| |lia].
  destruct Hx as [<-|[]], Hy as [<-|[]]; reflexivity.
Qed.

Lemma first_match_none (token : Str) (stored : list RefreshToken.t) :
  Auth.first_match token stored = None <->
  forall r, In r stored ->
            Bcrypt.compare token (RefreshToken.tokenHash r) = false.
Proof.
  unfold Auth.first_match; split.
  - intros H r Hr; exact (find_none _ _ H r Hr).
  - intros H.
    destruct (find _ stored) as [r|] eqn:E; [|reflexivity].
    apply find_some in E as [Hin Hc].
    rewrite (H r Hin) in Hc; discriminate.
Qed.

Lemma first_match_some (token : Str) (stored : list RefreshToken.t)
    (r : RefreshToken.t) :
  Auth.first_match token stored = Some r ->
  In r stored /\ Bcrypt.compare token (RefreshToken.tokenHash r) = true.
Proof. apply find_some. Qed.

Lemma existsb_has_id (rows : list RefreshToken.t) (r : RefreshToken.t) :
  In r rows -> existsb (Db.has_id (RefreshToken.id r)) rows = true.
Proof.
  intros H; apply existsb_exists; exists r; split; [exact H|].
  apply N.eqb_refl.
Qed.

(** ** What the handlers ask of the database *)

Lemma issues_weaken {A : Type} (Q Q' : Db.Query -> Prop) (p : Prog A) :
  (forall q, Q q -> Q' q) -> issues Q p -> issues Q' p.
Proof.
  intros HQ; induction p as [a|q k IH]; simpl; [trivial|].
  intros [Hq Hk]; split; [auto|intros r; apply IH, Hk].
Qed.

(** An invariant of the tables that every call satisfying [Q] preserves is
    preserved by a program that issues only such calls. *)
Lemma exec_preserves {A : Type} (Q : Db.Query -> Prop) (Inv : Db.t -> Prop)
    (p : Prog A) :
  (forall q db, Q q -> Inv db -> Inv (snd (Db.perform q db))) ->
  issues Q p ->
  forall db, Inv db -> Inv (snd (exec p db)).
Proof.
  intros Hstep; induction p as [a|q k IH]; simpl; intros Hp db Hdb;
    [exact Hdb|].
  destruct Hp as [Hq Hk].
  specialize (Hstep q db Hq Hdb).
  destruct (Db.perform q db) as [r db']; simpl in Hstep.
  now apply IH.
Qed.

Ltac issues_cases :=
  repeat
    match goal with
    | |- issues _ (Ret _) => exact I
    | |- issues _ (Await _ _) => cbn [issues]; split; [|intros ?]
    | |- issues _ (match ?x with _ => _ end) => destruct x
    | |- token_endpoint_query _ _ _ => cbn [token_endpoint_query]
    | |- True => exact I
    | |- _ = _ => reflexivity
    | |- exists user, User.id ?u = User.id user /\ _ =>
        exists u; repeat split
    end.

Lemma login_issues (e : Auth.Env) (a : Ambient) (email password : string) :
  issues (token_endpoint_query e a) (Auth.login e a email password).
Proof. unfold Auth.login; issues_cases. Qed.

Lemma refresh_issues (e : Auth.Env) (a : Ambient) (t : option Str) :
  issues (token_endpoint_query e a) (Auth.refresh e a t).
Proof. unfold Auth.refresh; issues_cases. Qed.

Lemma logout_handler_issues (e : Auth.Env) (a : Ambient) (userId : string)
    (t : option Str) :
  issues (token_endpoint_query e a) (Auth.logout_handler a userId t).
Proof. unfold Auth.logout_handler; issues_cases. Qed.

Lemma handle_issues (e : Auth.Env) (a : Ambient) (r : Server.Request) :
  issues (token_endpoint_query e a) (Server.handle e a r).
Proof.
  destruct r as [em pw|t|h t]; cbn [Server.handle].
  - apply login_issues.
  - apply refresh_issues.
  - unfold Auth.logout.
    destruct (Auth.authenticate e (seconds a) h); [exact I|].
    apply logout_handler_issues.
Qed.

(** ** Frame: rows are revoked and appended, nothing else *)

Lemma same_but_revokedAt_refl (r : RefreshToken.t) : same_but_revokedAt r r.
Proof. unfold same_but_revokedAt; auto. Qed.

Lemma same_but_revokedAt_trans (r1 r2 r3 : RefreshToken.t) :
  same_but_revokedAt r1 r2 -> same_but_revokedAt r2 r3 ->
  same_but_revokedAt r1 r3.
Proof.
  unfold same_but_revokedAt.
  intros (Hi & Hu & Hh & He & Hr) (Hi' & Hu' & Hh' & He' & Hr').
  repeat split; try congruence; auto.
Qed.

Lemma same_but_revokedAt_set (d : Z) (r : RefreshToken.t) :
  same_but_revokedAt r (RefreshToken.set_revokedAt d r).
Proof. unfold same_but_revokedAt; simpl; repeat split; congruence. Qed.

Lemma Forall2_same_refl (rows : list RefreshToken.t) :
  Forall2 same_but_revokedAt rows rows.
Proof.
  induction rows; constructor; auto using same_but_revokedAt_refl.
Qed.

Lemma Forall2_same_trans (l1 l2 l3 : list RefreshToken.t) :
  Forall2 same_but_revokedAt l1 l2 -> Forall2 same_but_revokedAt l2 l3 ->
  Forall2 same_but_revokedAt l1 l3.
Proof.
  intros H12; revert l3; induction H12 as [|x y l l' Hxy _ IH];
    intros l3 H23; inversion H23; subst; constructor;
    eauto using same_but_revokedAt_trans.
Qed.

Lemma Forall2_same_map (f : RefreshToken.t -> RefreshToken.t)
    (rows : list RefreshToken.t) :
  (forall r, same_but_revokedAt r (f r)) ->
  Forall2 same_but_revokedAt rows (map f rows).
Proof. intros Hf; induction rows; simpl; constructor; auto. Qed.

Lemma retains_refl (rows : list RefreshToken.t) : retains rows rows.
Proof.
  exists rows, []; split; [now rewrite app_nil_r|apply Forall2_same_refl].
Qed.

Lemma retains_trans (l1 l2 l3 : list RefreshToken.t) :
  retains l1 l2 -> retains l2 l3 -> retains l1 l3.
Proof.
  intros (k & ad & -> & Hk) (k' & ad' & -> & Hk').
  apply Forall2_app_inv_l in Hk' as (k1 & k2 & H1 & H2 & ->).
  exists k1, (k2 ++ ad')%list; split; [now rewrite app_assoc|].
  eapply Forall2_same_trans; eassumption.
Qed.

Lemma retains_map (f : RefreshToken.t -> RefreshToken.t)
    (rows : list RefreshToken.t) :
  (forall r, same_but_revokedAt r (f r)) -> retains rows (map f rows).
Proof.
  intros Hf; exists (map f rows), []; split; [now rewrite app_nil_r|].
  now apply Forall2_same_map.
Qed.

(** C5, as stated, fails on the in-memory store: rotation there removes the
    presented token from the set. *)
Lemma in_memory_rotation_deletes_the_presented_token :
  Example.refreshTokens Scenario.st1 = [Scenario.x_refresh 1000]
  /\ Example.refresh Scenario.x_secret 5000 (Some (Scenario.x_refresh 1000))
       Scenario.st1
     = (json (tokens_body (Scenario.x_access 5000) (Scenario.x_refresh 5000)
                None) 200,
        Example.mkState [Scenario.x_alice] [Scenario.x_refresh 5000])
  /\ Example.set_has (Scenario.x_refresh 1000) [Scenario.x_refresh 5000]
     = false.
Proof. repeat split; vm_compute; reflexivity. Qed.

(** ** Stored credentials *)

Lemma digest_only_perform (e : Auth.Env) (a : Ambient) (q : Db.Query)
    (db : Db.t) :
  token_endpoint_query e a q ->
  digest_only (Db.refreshToken db) ->
  digest_only (Db.refreshToken (snd (Db.perform q db))).
Proof.
  unfold digest_only.
  destruct q as [em|i|w|w d|i d|u h x]; simpl; intros Hq Hrows; auto.
  - apply Forall_map; revert Hrows; apply Forall_impl.
    intros r; destruct (Db.satisfies w r); auto.
  - apply Forall_map; revert Hrows; apply Forall_impl.
    intros r; destruct (Db.has_id i r); auto.
  - apply Forall_app; split; [assumption|].
    destruct Hq as (user & _ & -> & _); repeat constructor.
Qed.

Lemma digest_is_no_token (rows : list RefreshToken.t) (p : Payload.t)
    (k : string) :
  digest_only rows -> ~ In (Jwt p k) (map RefreshToken.tokenHash rows).
Proof.
  intros Hrows Hin; apply in_map_iff in Hin as (r & Hr & Hin).
  unfold digest_only in Hrows; rewrite Forall_forall in Hrows.
  specialize (Hrows r Hin); rewrite Hr in Hrows; discriminate.
Qed.

(** C3 - stored-credential digest, for the persisted table.  If every row
    holds the bcrypt hash of a signed token, then so does every row after any
    sequence of logins, refreshes and logouts; the table never holds a signed
    token itself. *)
Theorem persisted_table_holds_digests_only :
  forall (e : Auth.Env) (events : list (Ambient * Server.Request)) (db : Db.t),
    digest_only (Db.refreshToken db) ->
    digest_only (Db.refreshToken (Server.serve e events db))
    /\ forall p k,
         ~ In (Jwt p k)
             (map RefreshToken.tokenHash
                (Db.refreshToken (Server.serve e events db))).
Proof.
  intros e events db Hdb.
  assert (H : digest_only (Db.refreshToken (Server.serve e events db))).
  { revert db Hdb; induction events as [|[a r] rest IH]; intros db Hdb;
      cbn [Server.serve]; [exact Hdb|].
    apply IH.
    apply (exec_preserves (token_endpoint_query e a)
             (fun db' => digest_only (Db.refreshToken db'))
             (Server.handle e a r)); auto using handle_issues.
    intros q db'; apply digest_only_perform. }
  split; [exact H|intros p k; now apply digest_is_no_token].
Qed.

Lemma persisted_table_holds_digests_only_witness :
  digest_only (Db.refreshToken Scenario.db1).
Proof.
  apply (persisted_table_holds_digests_only Scenario.env
           [Scenario.login_alice 1000 1] Scenario.db0).
  constructor.
Defined.

(** C3, as stated, fails on the in-memory store: after Alice's login the
    set holds the very string the login answered as her refresh token. *)
Lemma in_memory_store_holds_the_raw_token :
  fst (Example.login Scenario.x_secret 1000 "alice@example.com"
         "correct horse"
         (snd (Example.register "id-1" 500 "alice@example.com"
                 "correct horse" "Alice" Example.boot)))
  = json (tokens_body (Scenario.x_access 1000) (Scenario.x_refresh 1000)
            (Some 900)) 200
  /\ Example.refreshTokens Scenario.st1 = [Scenario.x_refresh 1000]
  /\ is_digest (Scenario.x_refresh 1000) = false.
Proof. repeat split; vm_compute; reflexivity. Qed.

(** ** Rotation *)

Lemma filter_nil {A : Type} (f : A -> bool) (l : list A) :
  (forall x, In x l -> f x = false) -> filter f l = [].
Proof.
  induction l as [|x l IH]; simpl; intros H; [reflexivity|].
  rewrite (H x (or_introl eq_refl)); auto.
Qed.

Lemma satisfies_userId (w : Db.Where) (r : RefreshToken.t) :
  Db.satisfies w r = true -> RefreshToken.userId r = Db.w_userId w.
Proof.
  unfold Db.satisfies; intros H.
  apply andb_prop in H as [H _]; apply andb_prop in H as [H _].
  now apply String.eqb_eq.
Qed.

Lemma satisfies_unrevoked (u : string) (d : option Z) (r : RefreshToken.t) :
  Db.satisfies (Db.mkWhere u d true) r = true ->
  RefreshToken.revokedAt r = None.
Proof.
  unfold Db.satisfies; simpl; intros H.
  apply andb_prop in H as [_ H].
  destruct (RefreshToken.revokedAt r); [discriminate|reflexivity].
Qed.

Lemma satisfies_user_only (u : string) (r : RefreshToken.t) :
  Db.satisfies (Db.mkWhere u None false) r
  = String.eqb (RefreshToken.userId r) u.
Proof. unfold Db.satisfies; simpl; now rewrite !andb_true_r. Qed.

Lemma all_revoked_revoke_all (u : string) (d : Z)
    (rows : list RefreshToken.t) :
  all_revoked u (revoke_all u d rows).
Proof.
  intros r' Hin Hu; apply in_map_iff in Hin as (r & <- & _).
  rewrite satisfies_user_only in *.
  destruct (String.eqb_spec (RefreshToken.userId r) u); [discriminate|].
  contradiction.
Qed.

Lemma all_revoked_not_active (u : string) (date : Z)
    (rows : list RefreshToken.t) :
  all_revoked u rows -> active u date rows = [].
Proof.
  intros H; apply filter_nil; intros r Hin.
  destruct (Db.satisfies _ r) eqn:Hs; [exfalso|reflexivity].
  apply (H r Hin); [apply (satisfies_userId _ _ Hs)|].
  apply (satisfies_unrevoked _ _ _ Hs).
Qed.

Lemma find_exists {A : Type} (f : A -> bool) (l : list A) (x : A) :
  In x l -> f x = true -> exists y, find f l = Some y.
Proof.
  intros Hin Hf; destruct (find f l) as [y|] eqn:E; [now exists y|].
  rewrite (find_none _ _ E x Hin) in Hf; discriminate.
Qed.

Lemma in_active (u : string) (date : Z) (rows : list RefreshToken.t)
    (r : RefreshToken.t) :
  In r (active u date rows) <->
  In r rows /\ RefreshToken.userId r = u
  /\ date < RefreshToken.expiresAt r /\ RefreshToken.revokedAt r = None.
Proof.
  unfold active; rewrite filter_In; unfold Db.satisfies; cbn.
  rewrite !andb_true_iff, String.eqb_eq, Z.ltb_lt.
  destruct (RefreshToken.revokedAt r); intuition congruence.
Qed.

Lemma seconds_within_seven_days (a a' : Ambient) :
  seconds a' < seconds a + 60 * 60 * 24 * 7 ->
  date_now a' < Auth.in_seven_days a.
Proof.
  unfold seconds, Auth.in_seven_days; intros H.
  Z.div_mod_to_equations; lia.
Qed.

(** The refresh handler on a token that verifies and matches no active row
    of its subject: every row of the subject is revoked and the answer is
    the reuse answer. *)
Lemma refresh_without_match (e : Auth.Env) (a : Ambient) (p : Payload.t)
    (db : Db.t) :
  Payload.iat p <= seconds a ->
  seconds a < Payload.exp p ->
  Payload.type p = Some "refresh" ->
  Auth.first_match (Jwt p (Auth.JWT_REFRESH_SECRET e))
    (active (Payload.sub p) (date_now a) (Db.refreshToken db)) = None ->
  exec (Auth.refresh e a (Some (Jwt p (Auth.JWT_REFRESH_SECRET e)))) db
  = (Auth.reuse_detected,
     Db.make (Db.user db)
       (revoke_all (Payload.sub p) (date_now a) (Db.refreshToken db))).
Proof.
  intros Hiat Hexp Hty Hnone; unfold Auth.refresh.
  cbn [truthy negb].
  change (Jwt p (Auth.JWT_REFRESH_SECRET e))
    with (HonoJwt.sign p (Auth.JWT_REFRESH_SECRET e)) at 1.
  rewrite (verify_signed _ _ _ Hiat Hexp), Hty.
  cbn [String.eqb Ascii.eqb Bool.eqb negb exec Db.perform].
  unfold active in Hnone; rewrite Hnone.
  reflexivity.
Qed.

(** The refresh handler on a token that verifies and matches an active row
    of its subject, when the subject is a user: the matched row is revoked,
    a row for the new token is added, and the answer is a new pair. *)
Lemma refresh_with_match (e : Auth.Env) (a : Ambient) (p : Payload.t)
    (db : Db.t) (record : RefreshToken.t) (user : User.t) :
  Payload.iat p <= seconds a ->
  seconds a < Payload.exp p ->
  Payload.type p = Some "refresh" ->
  Auth.first_match (Jwt p (Auth.JWT_REFRESH_SECRET e))
    (active (Payload.sub p) (date_now a) (Db.refreshToken db)) = Some record ->
  find (fun u => String.eqb (User.id u) (Payload.sub p)) (Db.user db)
  = Some user ->
  exec (Auth.refresh e a (Some (Jwt p (Auth.JWT_REFRESH_SECRET e)))) db
  = (json (tokens_body
             (HonoJwt.sign (Auth.access_payload user (seconds a))
                (Auth.JWT_SECRET e))
             (HonoJwt.sign (Auth.refresh_payload user (seconds a))
                (Auth.JWT_REFRESH_SECRET e))
             (Some 900)) 200,
     Db.make (Db.user db)
       (revoke_id (RefreshToken.id record) (date_now a) (Db.refreshToken db)
        ++ [issued_row e a user (Db.refreshToken db)])).
Proof.
  intros Hiat Hexp Hty Hfirst Huser; unfold Auth.refresh.
  cbn [truthy negb].
  change (Jwt p (Auth.JWT_REFRESH_SECRET e))
    with (HonoJwt.sign p (Auth.JWT_REFRESH_SECRET e)) at 1.
  rewrite (verify_signed _ _ _ Hiat Hexp), Hty.
  cbn [String.eqb Ascii.eqb Bool.eqb negb exec Db.perform].
  unfold active in Hfirst; rewrite Hfirst.
  cbn [exec Db.perform].
  apply first_match_some in Hfirst as [Hin _].
  apply filter_In in Hin as [Hin _].
  rewrite (existsb_has_id _ _ Hin).
  cbn [negb exec Db.perform Db.user]; rewrite Huser.
  cbn [exec Db.perform Db.user Db.refreshToken].
  unfold revoke_id, issued_row, Db.fresh_id; now rewrite length_map.
Qed.

(** Every run of the refresh handler is one of five: rejected before any
    database call; no active match, all rows of the subject revoked; a match
    revoked and the subject not a user; a match revoked and a new pair
    issued. *)
Lemma refresh_cases (e : Auth.Env) (a : Ambient) (t : option Str)
    (db : Db.t) :
  (snd (exec (Auth.refresh e a t) db) = db
   /\ (status (fst (exec (Auth.refresh e a t) db)) = 400
       \/ fst (exec (Auth.refresh e a t) db) = Auth.invalid_or_expired
       \/ fst (exec (Auth.refresh e a t) db) = Auth.invalid_token_type))
  \/ (exists p,
        t = Some (Jwt p (Auth.JWT_REFRESH_SECRET e))
        /\ Payload.iat p <= seconds a < Payload.exp p
        /\ Payload.type p = Some "refresh"
        /\ ((Auth.first_match (Jwt p (Auth.JWT_REFRESH_SECRET e))
               (active (Payload.sub p) (date_now a) (Db.refreshToken db))
             = None
             /\ exec (Auth.refresh e a t) db
                = (Auth.reuse_detected,
                   Db.make (Db.user db)
                     (revoke_all (Payload.sub p) (date_now a)
                        (Db.refreshToken db))))
            \/ (exists record,
                  Auth.first_match (Jwt p (Auth.JWT_REFRESH_SECRET e))
                    (active (Payload.sub p) (date_now a) (Db.refreshToken db))
                  = Some record
                  /\ ((find (fun u => String.eqb (User.id u) (Payload.sub p))
                         (Db.user db) = None
                       /\ exec (Auth.refresh e a t) db
                          = (user_not_found,
                             Db.make (Db.user db)
                               (revoke_id (RefreshToken.id record) (date_now a)
                                  (Db.refreshToken db))))
                      \/ (exists user,
                            find (fun u =>
                                    String.eqb (User.id u) (Payload.sub p))
                              (Db.user db) = Some user
                            /\ exec (Auth.refresh e a t) db
                               = (json (tokens_body
                                          (HonoJwt.sign
                                             (Auth.access_payload user
                                                (seconds a))
                                             (Auth.JWT_SECRET e))
                                          (HonoJwt.sign
                                             (Auth.refresh_payload user
                                                (seconds a))
                                             (Auth.JWT_REFRESH_SECRET e))
                                          (Some 900)) 200,
                                  Db.make (Db.user db)
                                    (revoke_id (RefreshToken.id record)
                                       (date_now a) (Db.refreshToken db)
                                     ++ [issued_row e a user
                                           (Db.refreshToken db)]))))))).
Proof.
  destruct t as [t|]; [|left; split; [reflexivity|left; reflexivity]].
  destruct (truthy t) eqn:Htruthy;
    [|left; unfold Auth.refresh; rewrite Htruthy;
      split; [reflexivity|left; reflexivity]].
  destruct (HonoJwt.verify t (Auth.JWT_REFRESH_SECRET e) (seconds a))
    as [err|p] eqn:Hv;
    [left; unfold Auth.refresh; rewrite Htruthy, Hv;
     split; [reflexivity|right; left; reflexivity]|].
  pose proof (verify_inr_inv _ _ _ _ Hv) as [-> [Hiat Hexp]].
  destruct (match Payload.type p with
            | Some ty => String.eqb ty "refresh"
            | None => false
            end) eqn:Hty;
    [|left; unfold Auth.refresh; rewrite Htruthy, Hv, Hty;
      split; [reflexivity|right; right; reflexivity]].
  assert (Hty' : Payload.type p = Some "refresh").
  { destruct (Payload.type p) as [ty|]; [|discriminate].
    now apply String.eqb_eq in Hty as ->. }
  right; exists p; repeat split; auto.
  destruct (Auth.first_match (Jwt p (Auth.JWT_REFRESH_SECRET e))
              (active (Payload.sub p) (date_now a) (Db.refreshToken db)))
    as [record|] eqn:Hfirst.
  - right; exists record; split; [reflexivity|].
    destruct (find (fun u => String.eqb (User.id u) (Payload.sub p))
                (Db.user db)) as [user|] eqn:Huser.
    + right; exists user; split; [reflexivity|].
      now apply refresh_with_match.
    + left; split; [reflexivity|].
      unfold Auth.refresh; cbn [truthy negb]; rewrite Hv, Hty.
      cbn [negb exec Db.perform].
      unfold active in Hfirst; rewrite Hfirst; cbn [exec Db.perform].
      apply first_match_some in Hfirst as [Hin _].
      apply filter_In in Hin as [Hin _].
      rewrite (existsb_has_id _ _ Hin).
      cbn [negb exec Db.perform Db.user]; rewrite Huser; reflexivity.
  - left; split; [reflexivity|].
    now apply refresh_without_match.
Qed.

(** What a successful refresh has done. *)
Lemma refresh_success_inv (e : Auth.Env) (a : Ambient) (t : option Str)
    (db db1 : Db.t) (acc new : Str) (ex : option Z) (st : Z) :
  exec (Auth.refresh e a t) db
  = (json (tokens_body acc new ex) st, db1) ->
  exists p record user,
    t = Some (Jwt p (Auth.JWT_REFRESH_SECRET e))
    /\ Payload.iat p <= seconds a < Payload.exp p
    /\ Payload.type p = Some "refresh"
    /\ Auth.first_match (Jwt p (Auth.JWT_REFRESH_SECRET e))
         (active (Payload.sub p) (date_now a) (Db.refreshToken db))
       = Some record
    /\ find (fun u => String.eqb (User.id u) (Payload.sub p)) (Db.user db)
       = Some user
    /\ User.id user = Payload.sub p
    /\ acc = HonoJwt.sign (Auth.access_payload user (seconds a))
               (Auth.JWT_SECRET e)
    /\ new = HonoJwt.sign (Auth.refresh_payload user (seconds a))
               (Auth.JWT_REFRESH_SECRET e)
    /\ db1 = Db.make (Db.user db)
               (revoke_id (RefreshToken.id record) (date_now a)
                  (Db.refreshToken db)
                ++ [issued_row e a user (Db.refreshToken db)]).
Proof.
  intros Hrun.
  destruct (refresh_cases e a t db)
    as [[_ H]|(p & Ht & Hdates & Hty & [[_ Hrun']|(record & Hfirst &
         [[_ Hrun']|(user & Huser & Hrun')])])];
    rewrite Hrun in *.
  - cbn in H; destruct H as [H|[H|H]]; [|discriminate..].
    exfalso; revert Hrun; unfold Auth.refresh.
    destruct t as [t|]; [|intros [= H1 H2]; discriminate].
    destruct (truthy t); cbn [negb]; [|discriminate].
    destruct (HonoJwt.verify _ _ _); [discriminate|].
    destruct (negb _); [discriminate|].
    cbn [exec Db.perform].
    destruct (Auth.first_match _ _); cbn [exec Db.perform]; [|discriminate].
    destruct (negb _); [discriminate|].
    cbn [exec Db.perform].
    destruct (find _ _); cbn [exec Db.perform]; [|discriminate].
    intros [= _ _ _ H1]; subst st; discriminate.
  - discriminate.
  - discriminate.
  - injection Hrun' as -> -> -> -> ->.
    pose proof (find_some _ _ Huser) as [_ Hid]; apply String.eqb_eq in Hid.
    exists p, record, user; repeat split; auto; apply Hdates.
Qed.

(** C1 - single use.  [bcrypt.compare] looks at the first 72 bytes of the
    presented token, and those are the same for every refresh token of one
    user; so the row that a rotation adds for the new token matches the old
    token as well.  Let a refresh with a refresh token of a user succeed.
    The same token, presented again at any later clock before it expires, is
    not answered with the reuse answer: it is exchanged once more for a new
    pair, and the user has an active row afterwards. *)
Theorem spent_token_is_exchanged_again :
  forall (e : Auth.Env) (u : User.t) (s : Z) (a1 a2 : Ambient) (db db1 : Db.t)
         (acc new : Str) (ex : option Z),
    exec (Auth.refresh e a1
            (Some (HonoJwt.sign (Auth.refresh_payload u s)
                     (Auth.JWT_REFRESH_SECRET e)))) db
    = (json (tokens_body acc new ex) 200, db1) ->
    seconds a1 <= seconds a2 ->
    seconds a2 < s + 60 * 60 * 24 * 7 ->
    exists user db2,
      User.id user = User.id u
      /\ exec (Auth.refresh e a2
                 (Some (HonoJwt.sign (Auth.refresh_payload u s)
                          (Auth.JWT_REFRESH_SECRET e)))) db1
         = (json (tokens_body
                    (HonoJwt.sign (Auth.access_payload user (seconds a2))
                       (Auth.JWT_SECRET e))
                    (HonoJwt.sign (Auth.refresh_payload user (seconds a2))
                       (Auth.JWT_REFRESH_SECRET e))
                    (Some 900)) 200, db2)
      /\ active (User.id u) (date_now a2) (Db.refreshToken db2) <> [].
Proof.
  intros e u s a1 a2 db db1 acc new ex Hrun Hle Hexp.
  apply refresh_success_inv in Hrun
    as (p & record & user & Hp & [Hiat _] & Hty & _ & Huser & Hid & _ & _
        & ->).
  injection Hp as <-.
  cbn [Auth.refresh_payload Payload.iat Payload.sub] in Hiat, Hid, Huser.
  set (p := Auth.refresh_payload u s).
  set (rows1 := (revoke_id (RefreshToken.id record) (date_now a1)
                   (Db.refreshToken db)
                 ++ [issued_row e a1 user (Db.refreshToken db)])%list).
  assert (Hnew : In (issued_row e a1 user (Db.refreshToken db))
                   (active (Payload.sub p) (date_now a2) rows1)).
  { apply in_active; split; [apply in_or_app; right; now left|].
    unfold issued_row; cbn; repeat split; auto.
    apply seconds_within_seven_days; lia. }
  destruct (find_exists
              (fun r => Bcrypt.compare (Jwt p (Auth.JWT_REFRESH_SECRET e))
                          (RefreshToken.tokenHash r))
              _ _ Hnew) as [record' Hrecord'].
  { unfold issued_row; cbn [RefreshToken.tokenHash].
    now apply (compare_refresh_tokens u user). }
  exists user; eexists; split; [exact Hid|split].
  - apply (refresh_with_match e a2 p _ record' user); auto; cbn; lia.
  - intros Hnil.
    assert (Hin : In (issued_row e a2 user rows1)
                    (active (User.id u) (date_now a2)
                       (revoke_id (RefreshToken.id record') (date_now a2) rows1
                        ++ [issued_row e a2 user rows1])))
      by (apply in_active; split; [apply in_or_app; right; now left|];
          unfold issued_row, Auth.in_seven_days; cbn; repeat split; auto; lia).
    cbn [Db.refreshToken] in Hnil; rewrite Hnil in Hin; contradiction.
Qed.

Lemma spent_token_is_exchanged_again_witness :
  exists user db3,
    User.id user = "u1"
    /\ exec (Auth.refresh Scenario.env (mkAmbient 9000 4)
               (Some (Scenario.alice_refresh 1000))) Scenario.db2
       = (json (tokens_body
                  (HonoJwt.sign (Auth.access_payload user 9) "access-key")
                  (HonoJwt.sign (Auth.refresh_payload user 9) "refresh-key")
                  (Some 900)) 200, db3)
    /\ active "u1" 9000 (Db.refreshToken db3) <> [].
Proof.
  apply (spent_token_is_exchanged_again Scenario.env Scenario.alice 1
           (mkAmbient 5000 2) (mkAmbient 9000 4) Scenario.db1 Scenario.db2
           (Scenario.alice_access 5000) (Scenario.alice_refresh 5000)
           (Some 900)).
  - vm_compute; reflexivity.
  - vm_compute; discriminate.
  - vm_compute; reflexivity.
Defined.

(** Once a token has expired it is rejected at verification.  Alice rotates
    her token six days after login; eight days after login the old token is
    answered "Invalid or expired refresh token", nothing is revoked, and the
    session the rotation created is still active. *)
Lemma expired_spent_token_is_not_reuse :
  fst (exec (Auth.refresh Scenario.env (mkAmbient (1000 + 6 * Scenario.day) 2)
               (Some (Scenario.alice_refresh 1000))) Scenario.db1)
  = json (tokens_body (Scenario.alice_access (1000 + 6 * Scenario.day))
            (Scenario.alice_refresh (1000 + 6 * Scenario.day)) (Some 900)) 200
  /\ exec (Auth.refresh Scenario.env (mkAmbient (1000 + 8 * Scenario.day) 3)
             (Some (Scenario.alice_refresh 1000))) Scenario.db2_late
     = (Auth.invalid_or_expired, Scenario.db2_late)
  /\ Auth.invalid_or_expired <> Auth.reuse_detected
  /\ map RefreshToken.revokedAt
       (active "u1" (1000 + 8 * Scenario.day)
          (Db.refreshToken Scenario.db2_late))
     = [None].
Proof.
  split; [vm_compute; reflexivity|].
  split; [vm_compute; reflexivity|].
  split; [discriminate|vm_compute; reflexivity].
Qed.

(** C6 - rotation freshness fails within one clock second.  Alice logs in at
    clock 1000 and refreshes at clock 1500: the refresh succeeds and the
    refresh token it returns is the string she presented; presented once
    more, that string is accepted again. *)
Theorem refresh_in_the_same_second_returns_the_presented_token :
  exec (Auth.refresh Scenario.env (mkAmbient 1500 2)
          (Some (Scenario.alice_refresh 1000))) Scenario.db1
  = (json (tokens_body (Scenario.alice_access 1000)
             (Scenario.alice_refresh 1000) (Some 900)) 200,
     Db.make [Scenario.alice]
       [RefreshToken.make 0 "u1" (BcryptHash (Scenario.alice_refresh 1000) 1)
          (1000 + 7 * Scenario.day) (Some 1500);
        RefreshToken.make 1 "u1" (BcryptHash (Scenario.alice_refresh 1000) 2)
          (1500 + 7 * Scenario.day) None])
  /\ fst (exec (Auth.refresh Scenario.env (mkAmbient 1900 3)
                 (Some (Scenario.alice_refresh 1000)))
            (snd (exec (Auth.refresh Scenario.env (mkAmbient 1500 2)
                          (Some (Scenario.alice_refresh 1000)))
                    Scenario.db1)))
     = json (tokens_body (Scenario.alice_access 1000)
               (Scenario.alice_refresh 1000) (Some 900)) 200.
Proof. split; vm_compute; reflexivity. Qed.

(** The refresh token of a successful refresh is determined by the user and
    the clock second: it is the presented token exactly when the token was
    issued for that user in the same second. *)
Lemma rotated_token_is_a_function_of_user_and_second (e : Auth.Env)
    (a : Ambient) (token : Str) (db db1 : Db.t) (acc new : Str)
    (ex : option Z) (st : Z) :
  exec (Auth.refresh e a (Some token)) db
  = (json (tokens_body acc new ex) st, db1) ->
  exists user,
    find (fun u => String.eqb (User.id u) (User.id user)) (Db.user db)
    = Some user
    /\ new = HonoJwt.sign (Auth.refresh_payload user (seconds a))
               (Auth.JWT_REFRESH_SECRET e)
    /\ (token = HonoJwt.sign (Auth.refresh_payload user (seconds a))
                  (Auth.JWT_REFRESH_SECRET e) -> new = token).
Proof.
  unfold Auth.refresh.
  destruct (truthy token); cbn [negb]; [|discriminate].
  destruct (HonoJwt.verify token (Auth.JWT_REFRESH_SECRET e) (seconds a))
    as [err|p] eqn:Hv; [discriminate|].
  destruct (negb _); [discriminate|].
  cbn [exec Db.perform].
  destruct (Auth.first_match _ _) as [record|]; cbn [exec Db.perform];
    [|discriminate].
  destruct (existsb _ _); cbn [negb exec Db.perform]; [|discriminate].
  cbn [Db.user].
  destruct (find _ (Db.user db)) as [user|] eqn:Huser; cbn [exec Db.perform];
    [|discriminate].
  intros [= <- <- <- <- <-].
  exists user; split; [|split; [reflexivity|congruence]].
  pose proof (find_some _ _ Huser) as [_ Hid]; apply String.eqb_eq in Hid.
  now rewrite Hid.
Qed.

(** ** Several refreshes with one token *)

(** The revoke step is unconditional: [update] succeeds on a row whether or
    not that row is already revoked. *)
Lemma update_succeeds_again (i : N) (d d' : Z) (db : Db.t) :
  fst (Db.perform (Db.refreshToken_update i d) db) = true ->
  fst (Db.perform (Db.refreshToken_update i d')
         (snd (Db.perform (Db.refreshToken_update i d) db))) = true.
Proof.
  simpl; intros H; apply existsb_exists in H as (r & Hin & Hid).
  apply existsb_exists.
  exists (RefreshToken.set_revokedAt d r); split; [|exact Hid].
  apply in_map_iff; exists r; now rewrite Hid.
Qed.

Lemma existsb_has_id_revoke_id (i j : N) (d : Z)
    (rows : list RefreshToken.t) :
  existsb (Db.has_id i) (revoke_id j d rows) = existsb (Db.has_id i) rows.
Proof.
  unfold revoke_id; induction rows as [|r rows IH]; simpl; [reflexivity|].
  rewrite IH; destruct (Db.has_id j r); reflexivity.
Qed.

(** C2 - several refreshes with one token.  The handler has no conditional
    consume.  Its revoke step is an update by id that succeeds on a row
    whether or not the row is already revoked, and the reuse answer is given
    only by a call whose own read found no active row matching the token.
    So whenever a token is valid for two calls - within its dates, of type
    refresh, matching an active row of its subject, who is a user - and the
    calls take turns at each [await], both find the row before either
    revokes it, and both answer with a new pair. *)
Theorem interleaved_refreshes_each_succeed :
  forall (e : Auth.Env) (p : Payload.t) (a1 a2 : Ambient) (db : Db.t)
         (record1 record2 : RefreshToken.t) (user : User.t),
    Payload.iat p <= seconds a1 < Payload.exp p ->
    Payload.iat p <= seconds a2 < Payload.exp p ->
    Payload.type p = Some "refresh" ->
    Auth.first_match (HonoJwt.sign p (Auth.JWT_REFRESH_SECRET e))
      (active (Payload.sub p) (date_now a1) (Db.refreshToken db))
    = Some record1 ->
    Auth.first_match (HonoJwt.sign p (Auth.JWT_REFRESH_SECRET e))
      (active (Payload.sub p) (date_now a2) (Db.refreshToken db))
    = Some record2 ->
    find (fun u => String.eqb (User.id u) (Payload.sub p)) (Db.user db)
    = Some user ->
    map answer
      (fst (run_schedule [0; 1; 0; 1; 0; 1; 0; 1]%nat
              [Auth.refresh e a1
                 (Some (HonoJwt.sign p (Auth.JWT_REFRESH_SECRET e)));
               Auth.refresh e a2
                 (Some (HonoJwt.sign p (Auth.JWT_REFRESH_SECRET e)))]
              db))
    = [Some (json (tokens_body
                     (HonoJwt.sign (Auth.access_payload user (seconds a1))
                        (Auth.JWT_SECRET e))
                     (HonoJwt.sign (Auth.refresh_payload user (seconds a1))
                        (Auth.JWT_REFRESH_SECRET e))
                     (Some 900)) 200);
       Some (json (tokens_body
                     (HonoJwt.sign (Auth.access_payload user (seconds a2))
                        (Auth.JWT_SECRET e))
                     (HonoJwt.sign (Auth.refresh_payload user (seconds a2))
                        (Auth.JWT_REFRESH_SECRET e))
                     (Some 900)) 200)]
    /\ (forall i d d' db',
          fst (Db.perform (Db.refreshToken_update i d) db') = true ->
          fst (Db.perform (Db.refreshToken_update i d')
                 (snd (Db.perform (Db.refreshToken_update i d) db'))) = true)
    /\ (forall a t db',
          fst (exec (Auth.refresh e a t) db') = Auth.reuse_detected ->
          exists q,
            t = Some (Jwt q (Auth.JWT_REFRESH_SECRET e))
            /\ Auth.first_match (Jwt q (Auth.JWT_REFRESH_SECRET e))
                 (active (Payload.sub q) (date_now a) (Db.refreshToken db'))
               = None).
Proof.
  unfold HonoJwt.sign.
  intros e p a1 a2 db record1 record2 user [Hiat1 Hexp1] [Hiat2 Hexp2] Hty
    Hfirst1 Hfirst2 Huser.
  split; [|split; [intros i d d' db'; apply update_succeeds_again|]].
  - unfold Auth.refresh.
    cbn [truthy negb].
    pose proof (verify_signed p (Auth.JWT_REFRESH_SECRET e) _ Hiat1 Hexp1)
      as Hv1.
    pose proof (verify_signed p (Auth.JWT_REFRESH_SECRET e) _ Hiat2 Hexp2)
      as Hv2.
    unfold HonoJwt.sign in Hv1, Hv2; rewrite Hv1, Hv2, Hty.
    cbn [String.eqb Ascii.eqb Bool.eqb negb].
    unfold active in Hfirst1, Hfirst2.
    cbn [run_schedule nth_error step Db.perform replace_nth].
    rewrite Hfirst1.
    cbn [run_schedule nth_error step Db.perform replace_nth].
    rewrite Hfirst2.
    cbn [run_schedule nth_error step Db.perform replace_nth Db.refreshToken].
    apply first_match_some in Hfirst1 as [Hin1 _].
    apply filter_In in Hin1 as [Hin1 _].
    apply first_match_some in Hfirst2 as [Hin2 _].
    apply filter_In in Hin2 as [Hin2 _].
    rewrite (existsb_has_id _ _ Hin1).
    cbn [negb run_schedule nth_error step Db.perform replace_nth
           Db.refreshToken Db.user].
    fold (revoke_id (RefreshToken.id record1) (date_now a1)
            (Db.refreshToken db)).
    rewrite existsb_has_id_revoke_id, (existsb_has_id _ _ Hin2).
    cbn [negb run_schedule nth_error step Db.perform replace_nth
           Db.refreshToken Db.user].
    rewrite Huser.
    reflexivity.
  - intros a t db' Hreuse.
    destruct (refresh_cases e a t db')
      as [[_ H]|(q & Ht & _ & _ & [[Hnone _]|(record & _ &
           [[_ Hrun]|(user' & _ & Hrun)])])].
    + rewrite Hreuse in H; cbn in H.
      destruct H as [H|[H|H]]; discriminate.
    + now exists q.
    + rewrite Hrun in Hreuse; discriminate.
    + rewrite Hrun in Hreuse; discriminate.
Qed.

Lemma interleaved_refreshes_each_succeed_witness :
  map answer
    (fst (run_schedule [0; 1; 0; 1; 0; 1; 0; 1]%nat
            [Auth.refresh Scenario.env (mkAmbient 7000 4)
               (Some (TwoUsers.bob_refresh 2000));
             Auth.refresh Scenario.env (mkAmbient 8000 5)
               (Some (TwoUsers.bob_refresh 2000))]
            TwoUsers.db))
  = [Some (json (tokens_body
                   (HonoJwt.sign (Auth.access_payload TwoUsers.bob 7)
                      "access-key")
                   (TwoUsers.bob_refresh 7000) (Some 900)) 200);
     Some (json (tokens_body
                   (HonoJwt.sign (Auth.access_payload TwoUsers.bob 8)
                      "access-key")
                   (TwoUsers.bob_refresh 8000) (Some 900)) 200)].
Proof.
  apply (interleaved_refreshes_each_succeed Scenario.env
           (Auth.refresh_payload TwoUsers.bob 2)
           (mkAmbient 7000 4) (mkAmbient 8000 5) TwoUsers.db
           TwoUsers.bob_row TwoUsers.bob_row TwoUsers.bob).
  - vm_compute; split; [discriminate|reflexivity].
  - vm_compute; split; [discriminate|reflexivity].
  - reflexivity.
  - vm_compute; reflexivity.
  - vm_compute; reflexivity.
  - vm_compute; reflexivity.
Defined.

(** C2, as stated, fails when the calls interleave.  Two refreshes with
    Alice's token take turns at each [await]: both find her row active
    before either revokes it, both revocations succeed, and both calls
    answer with a new pair. *)
Lemma interleaved_refreshes_both_succeed :
  map answer
    (fst (run_schedule [0; 1; 0; 1; 0; 1; 0; 1]%nat
            [Auth.refresh Scenario.env (mkAmbient 5000 2)
               (Some (Scenario.alice_refresh 1000));
             Auth.refresh Scenario.env (mkAmbient 6000 3)
               (Some (Scenario.alice_refresh 1000))]
            Scenario.db1))
  = [Some (json (tokens_body (Scenario.alice_access 5000)
                   (Scenario.alice_refresh 5000) (Some 900)) 200);
     Some (json (tokens_body (Scenario.alice_access 6000)
                   (Scenario.alice_refresh 6000) (Some 900)) 200)].
Proof. vm_compute; reflexivity. Qed.

(** * Further properties of the handlers *)

(** ** Login *)

(** What a successful login has done. *)
Lemma login_success_inv (e : Auth.Env) (a : Ambient) (em pw : string)
    (db db1 : Db.t) (acc tok : Str) (ex : Z) (tt uid uem uro : string)
    (st : Z) :
  exec (Auth.login e a em pw) db
  = (json (login_body acc tok ex tt uid uem uro) st, db1) ->
  exists user,
    find (fun u => String.eqb (User.email u) em) (Db.user db) = Some user
    /\ Bcrypt.compare (Lit pw) (User.passwordHash user) = true
    /\ uid = User.id user /\ uem = User.email user /\ uro = User.role user
    /\ acc = HonoJwt.sign (Auth.access_payload user (seconds a))
               (Auth.JWT_SECRET e)
    /\ tok = HonoJwt.sign (Auth.refresh_payload user (seconds a))
               (Auth.JWT_REFRESH_SECRET e)
    /\ db1 = Db.make (Db.user db)
               (Db.refreshToken db
                ++ [RefreshToken.make (Db.fresh_id (Db.refreshToken db))
                      (User.id user) (Bcrypt.hash tok (salt a))
                      (Auth.in_seven_days a) None]).
Proof.
  unfold Auth.login; cbn [exec Db.perform].
  destruct (find _ (Db.user db)) as [user|] eqn:Huser; [|discriminate].
  destruct (Bcrypt.compare _ _) eqn:Hpw; cbn [negb exec Db.perform];
    [|discriminate].
  intros [= <- <- <- <- <- <- <- <- <-].
  exists user; repeat split; auto.
Qed.

(** X1 - a login's refresh token can be exchanged.  The refresh token that a
    successful login answers is accepted by the refresh handler on the
    tables the login left, at any clock from the second of the login on and
    less than seven days of seconds after it: the answer is a new pair for a
    user with the same id. *)
Theorem login_token_is_accepted_by_refresh :
  forall (e : Auth.Env) (a a' : Ambient) (em pw : string) (db db1 : Db.t)
         (acc tok : Str) (ex : Z) (tt uid uem uro : string),
    exec (Auth.login e a em pw) db
    = (json (login_body acc tok ex tt uid uem uro) 200, db1) ->
    seconds a <= seconds a' ->
    seconds a' < seconds a + 60 * 60 * 24 * 7 ->
    exists user' db2,
      User.id user' = uid
      /\ exec (Auth.refresh e a' (Some tok)) db1
         = (json (tokens_body
                    (HonoJwt.sign (Auth.access_payload user' (seconds a'))
                       (Auth.JWT_SECRET e))
                    (HonoJwt.sign (Auth.refresh_payload user' (seconds a'))
                       (Auth.JWT_REFRESH_SECRET e))
                    (Some 900)) 200, db2).
Proof.
  intros e a a' em pw db db1 acc tok ex tt uid uem uro Hlogin Hiat Hsec.
  apply login_success_inv in Hlogin
    as (user & Huser & _ & -> & _ & _ & _ & -> & ->).
  pose proof (seconds_within_seven_days a a' Hsec) as Hdate.
  set (p := Auth.refresh_payload user (seconds a)).
  set (row := RefreshToken.make (Db.fresh_id (Db.refreshToken db))
                (User.id user)
                (Bcrypt.hash (HonoJwt.sign p (Auth.JWT_REFRESH_SECRET e))
                   (salt a))
                (Auth.in_seven_days a) None).
  assert (Hrow : In row (active (Payload.sub p) (date_now a')
                           (Db.refreshToken db ++ [row]))).
  { apply in_active; split; [apply in_or_app; right; now left|].
    cbn; repeat split; auto. }
  destruct (find_exists
              (fun record =>
                 Bcrypt.compare (Jwt p (Auth.JWT_REFRESH_SECRET e))
                   (RefreshToken.tokenHash record))
              _ row Hrow (compare_hash_refl _ _)) as [record Hrecord].
  apply find_some in Huser as [Hin _].
  destruct (find_exists
              (fun u => String.eqb (User.id u) (Payload.sub p))
              (Db.user db) user Hin (String.eqb_refl _)) as [user' Huser'].
  exists user'; eexists; split.
  - apply find_some in Huser' as [_ Hid]; now apply String.eqb_eq in Hid.
  - apply (refresh_with_match e a' p _ record user'); auto; cbn; lia.
Qed.

Lemma login_token_is_accepted_by_refresh_witness :
  exists user' db2,
    User.id user' = "u1"
    /\ exec (Auth.refresh Scenario.env (mkAmbient (1000 + 6 * Scenario.day) 2)
               (Some (Scenario.alice_refresh 1000))) Scenario.db1
       = (json (tokens_body
                  (HonoJwt.sign
                     (Auth.access_payload user'
                        (seconds (mkAmbient (1000 + 6 * Scenario.day) 2)))
                     (Auth.JWT_SECRET Scenario.env))
                  (HonoJwt.sign
                     (Auth.refresh_payload user'
                        (seconds (mkAmbient (1000 + 6 * Scenario.day) 2)))
                     (Auth.JWT_REFRESH_SECRET Scenario.env))
                  (Some 900)) 200, db2).
Proof.
  apply (login_token_is_accepted_by_refresh Scenario.env (mkAmbient 1000 1)
           (mkAmbient (1000 + 6 * Scenario.day) 2)
           "alice@example.com" "correct horse" Scenario.db0 Scenario.db1
           (Scenario.alice_access 1000) (Scenario.alice_refresh 1000)
           900 "Bearer" "u1" "alice@example.com" "user").
  - vm_compute; reflexivity.
  - vm_compute; discriminate.
  - vm_compute; reflexivity.
Defined.

(** X2 - a failed login tells nothing and writes nothing.  When the e-mail
    is unknown, or the password does not match the stored hash of the user
    found, the answer is the same 401 "Invalid credentials" and the tables
    are left as they were. *)
Theorem failed_login_is_uniform :
  forall (e : Auth.Env) (a : Ambient) (em pw : string) (db : Db.t),
    (forall user,
        find (fun u => String.eqb (User.email u) em) (Db.user db) = Some user ->
        Bcrypt.compare (Lit pw) (User.passwordHash user) = false) ->
    exec (Auth.login e a em pw) db = (invalid_credentials, db).
Proof.
  intros e a em pw db H; unfold Auth.login; cbn [exec Db.perform].
  destruct (find _ (Db.user db)) as [user|]; [|reflexivity].
  now rewrite (H user eq_refl).
Qed.

Lemma failed_login_is_uniform_witness :
  exec (Auth.login Scenario.env (mkAmbient 1000 1) "bob@example.com" "x")
    Scenario.db0
  = (invalid_credentials, Scenario.db0)
  /\ exec (Auth.login Scenario.env (mkAmbient 1000 1) "alice@example.com"
             "wrong horse") Scenario.db0
     = (invalid_credentials, Scenario.db0).
Proof.
  split.
  - apply (failed_login_is_uniform Scenario.env (mkAmbient 1000 1)
             "bob@example.com" "x" Scenario.db0).
    intros user; vm_compute; discriminate.
  - apply (failed_login_is_uniform Scenario.env (mkAmbient 1000 1)
             "alice@example.com" "wrong horse" Scenario.db0).
    intros user; vm_compute; intros [= <-]; reflexivity.
Defined.

(** X3 - a login's access token passes the guard for fifteen minutes.  When
    the guard verifies with the key the login signs with, the access token
    of a successful login is accepted at every clock second from the second
    of the login on until fifteen minutes have passed, with the user's id
    and role attached to the context, and from then on it is answered
    [TOKEN_EXPIRED]. *)
Theorem login_access_token_passes_the_guard :
  forall (e : Auth.Env) (a : Ambient) (em pw : string) (db db1 : Db.t)
         (acc tok : Str) (ex : Z) (tt uid uem uro : string) (now : Z),
    exec (Auth.login e a em pw) db
    = (json (login_body acc tok ex tt uid uem uro) 200, db1) ->
    Auth.access_secret e = Auth.JWT_SECRET e ->
    (seconds a <= now < seconds a + 60 * 15 ->
     exists ctx,
       Auth.authenticate e now (Some (Auth.Bearer acc)) = inr ctx
       /\ Auth.userId ctx = uid
       /\ Auth.userRole ctx = Some uro)
    /\ (seconds a + 60 * 15 <= now ->
        Auth.authenticate e now (Some (Auth.Bearer acc))
        = inl (json (error_body "Token expired" (Some "TOKEN_EXPIRED")) 401)).
Proof.
  intros e a em pw db db1 acc tok ex tt uid uem uro now Hlogin Hkey.
  apply login_success_inv in Hlogin
    as (user & _ & _ & -> & _ & -> & -> & _ & _).
  split; intros Hnow.
  - unfold Auth.authenticate; rewrite Hkey.
    rewrite verify_signed by (cbn; lia).
    eexists; split; [reflexivity|split; reflexivity].
  - now apply expired_token_is_answered_token_expired.
Qed.

Lemma login_access_token_passes_the_guard_witness :
  (exists ctx,
      Auth.authenticate Scenario.env 900
        (Some (Auth.Bearer (Scenario.alice_access 1000))) = inr ctx
      /\ Auth.userId ctx = "u1"
      /\ Auth.userRole ctx = Some "user")
  /\ Auth.authenticate Scenario.env 901
       (Some (Auth.Bearer (Scenario.alice_access 1000)))
     = inl (json (error_body "Token expired" (Some "TOKEN_EXPIRED")) 401).
Proof.
  split.
  - apply (login_access_token_passes_the_guard Scenario.env (mkAmbient 1000 1)
             "alice@example.com" "correct horse" Scenario.db0 Scenario.db1
             (Scenario.alice_access 1000) (Scenario.alice_refresh 1000)
             900 "Bearer" "u1" "alice@example.com" "user" 900);
      [vm_compute; reflexivity..|].
    split; [vm_compute; discriminate|vm_compute; reflexivity].
  - apply (login_access_token_passes_the_guard Scenario.env (mkAmbient 1000 1)
             "alice@example.com" "correct horse" Scenario.db0 Scenario.db1
             (Scenario.alice_access 1000) (Scenario.alice_refresh 1000)
             900 "Bearer" "u1" "alice@example.com" "user" 901);
      vm_compute; try reflexivity; discriminate.
Defined.

(** ** Refresh, case by case *)

Lemma id_unique (rows : list RefreshToken.t) (r r' : RefreshToken.t) :
  NoDup (map RefreshToken.id rows) ->
  In r rows -> In r' rows -> RefreshToken.id r = RefreshToken.id r' -> r = r'.
Proof.
  induction rows as [|x rows IH]; simpl; [contradiction|].
  intros Hnd Hr Hr' Hid; inversion_clear Hnd as [|? ? Hx Hd].
  destruct Hr as [<-|Hr], Hr' as [<-|Hr']; auto.
  - elim Hx; rewrite Hid; now apply in_map.
  - elim Hx; rewrite <- Hid; now apply in_map.
Qed.

Lemma in_revoke_all_other (u : string) (d : Z) (rows : list RefreshToken.t)
    (r : RefreshToken.t) :
  In r rows -> RefreshToken.userId r <> u -> In r (revoke_all u d rows).
Proof.
  intros Hin Hu; apply in_map_iff; exists r; split; [|exact Hin].
  rewrite satisfies_user_only.
  destruct (String.eqb_spec (RefreshToken.userId r) u);
    [contradiction|reflexivity].
Qed.

Lemma in_revoke_id_other (record : RefreshToken.t) (d : Z)
    (rows : list RefreshToken.t) (r : RefreshToken.t) :
  NoDup (map RefreshToken.id rows) ->
  In record rows -> In r rows -> r <> record ->
  In r (revoke_id (RefreshToken.id record) d rows).
Proof.
  intros Hnd Hrec Hin Hne; apply in_map_iff; exists r; split; [|exact Hin].
  destruct (Db.has_id (RefreshToken.id record) r) eqn:Hid; [|reflexivity].
  apply N.eqb_eq in Hid; elim Hne; eapply id_unique; eauto.
Qed.

(** X4 - a rejected token causes no write.  When the refresh handler
    answers 400, "Invalid or expired refresh token" or "Invalid token type",
    the tables are exactly as before the call. *)
Theorem rejected_refresh_writes_nothing :
  forall (e : Auth.Env) (a : Ambient) (t : option Str) (db : Db.t),
    status (fst (exec (Auth.refresh e a t) db)) = 400
    \/ fst (exec (Auth.refresh e a t) db) = Auth.invalid_or_expired
    \/ fst (exec (Auth.refresh e a t) db) = Auth.invalid_token_type ->
    snd (exec (Auth.refresh e a t) db) = db.
Proof.
  intros e a t db H.
  destruct (refresh_cases e a t db)
    as [[Hdb _]|(p & _ & _ & _ & [[_ Hrun]|(record & _ &
         [[_ Hrun]|(user & _ & Hrun)])])];
    [exact Hdb|rewrite Hrun in H..];
    cbn in H; destruct H as [H|[H|H]]; discriminate.
Qed.

Lemma rejected_refresh_writes_nothing_witness :
  snd (exec (Auth.refresh Scenario.env (mkAmbient 2000 2) (Some (Lit "abc")))
         Scenario.db1) = Scenario.db1.
Proof.
  apply (rejected_refresh_writes_nothing Scenario.env (mkAmbient 2000 2)
           (Some (Lit "abc")) Scenario.db1).
  right; left; vm_compute; reflexivity.
Defined.

(** X5 - a refresh for a user who is gone consumes the token.  When the
    answer is "User not found", the row the token matched has been stamped
    revoked all the same, and no row has been added. *)
Theorem refresh_for_missing_user_consumes_the_token :
  forall (e : Auth.Env) (a : Ambient) (t : Str) (db db1 : Db.t),
    exec (Auth.refresh e a (Some t)) db = (user_not_found, db1) ->
    length (Db.refreshToken db1) = length (Db.refreshToken db)
    /\ exists record,
         In record (Db.refreshToken db)
         /\ RefreshToken.revokedAt record = None
         /\ Bcrypt.compare t (RefreshToken.tokenHash record) = true
         /\ In (RefreshToken.set_revokedAt (date_now a) record)
              (Db.refreshToken db1).
Proof.
  intros e a t db db1 Hrun.
  destruct (refresh_cases e a (Some t) db)
    as [[_ H]|(p & Ht & _ & _ & [[_ Hrun']|(record & Hfirst &
         [[_ Hrun']|(user & _ & Hrun')])])];
    rewrite Hrun in *; try discriminate.
  - cbn in H; destruct H as [H|[H|H]]; discriminate.
  - injection Hrun' as ->; injection Ht as ->.
    cbn [Db.refreshToken]; unfold revoke_id; rewrite length_map.
    split; [reflexivity|].
    apply first_match_some in Hfirst as [Hin Hc].
    apply in_active in Hin as (Hin & _ & _ & Hnone).
    exists record; repeat split; auto.
    apply in_map_iff; exists record; split; [|exact Hin].
    unfold Db.has_id; now rewrite N.eqb_refl.
Qed.

Lemma refresh_for_missing_user_consumes_the_token_witness :
  exists record,
    In record (Db.refreshToken Scenario.db1)
    /\ RefreshToken.revokedAt record = None
    /\ Bcrypt.compare (Scenario.alice_refresh 1000)
         (RefreshToken.tokenHash record) = true
    /\ In (RefreshToken.set_revokedAt 5000 record)
         (Db.refreshToken
            (snd (exec (Auth.refresh Scenario.env (mkAmbient 5000 2)
                          (Some (Scenario.alice_refresh 1000)))
                    (Db.make [] (Db.refreshToken Scenario.db1))))).
Proof.
  apply (refresh_for_missing_user_consumes_the_token Scenario.env
           (mkAmbient 5000 2) (Scenario.alice_refresh 1000)
           (Db.make [] (Db.refreshToken Scenario.db1))
           (snd (exec (Auth.refresh Scenario.env (mkAmbient 5000 2)
                         (Some (Scenario.alice_refresh 1000)))
                   (Db.make [] (Db.refreshToken Scenario.db1))))).
  vm_compute; reflexivity.
Defined.

(** X6 - a refresh touches the rows of the token's subject only.  In a table
    whose ids are distinct, every row that belongs to a user other than the
    subject of the presented token is in the table after the call exactly as
    it was, whatever the answer. *)
Theorem refresh_changes_only_rows_of_the_subject :
  forall (e : Auth.Env) (a : Ambient) (t : option Str) (db : Db.t)
         (r : RefreshToken.t),
    NoDup (map RefreshToken.id (Db.refreshToken db)) ->
    In r (Db.refreshToken db) ->
    (forall p k, t = Some (Jwt p k) -> RefreshToken.userId r <> Payload.sub p) ->
    In r (Db.refreshToken (snd (exec (Auth.refresh e a t) db))).
Proof.
  intros e a t db r Hnd Hin Hother.
  destruct (refresh_cases e a t db)
    as [[-> _]|(p & Ht & _ & _ & [[_ Hrun]|(record & Hfirst &
         [[_ Hrun]|(user & _ & Hrun)])])];
    [exact Hin|rewrite Hrun; cbn [snd Db.refreshToken]..];
    specialize (Hother p _ Ht).
  - now apply in_revoke_all_other.
  - apply first_match_some in Hfirst as [Hrec _].
    apply in_active in Hrec as (Hrec & Hu & _).
    apply in_revoke_id_other; auto; congruence.
  - apply first_match_some in Hfirst as [Hrec _].
    apply in_active in Hrec as (Hrec & Hu & _).
    apply in_or_app; left; apply in_revoke_id_other; auto; congruence.
Qed.

Lemma refresh_changes_only_rows_of_the_subject_witness :
  In TwoUsers.bob_row
    (Db.refreshToken
       (snd (exec (Auth.refresh Scenario.env (mkAmbient 5000 4)
                     (Some (Scenario.alice_refresh 1000))) TwoUsers.db))).
Proof.
  apply (refresh_changes_only_rows_of_the_subject Scenario.env
           (mkAmbient 5000 4) (Some (Scenario.alice_refresh 1000))
           TwoUsers.db TwoUsers.bob_row).
  - vm_compute; repeat constructor; simpl; intuition discriminate.
  - vm_compute; auto.
  - intros p k [= <- _]; vm_compute; discriminate.
Defined.

(** ** Logout *)

Lemma refresh_status_when_all_revoked (e : Auth.Env) (a : Ambient)
    (p : Payload.t) (k : string) (db : Db.t) :
  all_revoked (Payload.sub p) (Db.refreshToken db) ->
  status (fst (exec (Auth.refresh e a (Some (Jwt p k))) db)) = 401.
Proof.
  intros Hall.
  destruct (refresh_cases e a (Some (Jwt p k)) db)
    as [[_ [H|[->| ->]]]|(p' & Ht & _ & _ & [[_ ->]|(record & Hfirst & _)])];
    try reflexivity.
  - unfold Auth.refresh in H; cbn [truthy negb] in H.
    destruct (HonoJwt.verify _ _ _); [discriminate|].
    destruct (negb _); [discriminate|].
    cbn [exec Db.perform] in H.
    destruct (Auth.first_match _ _); cbn [exec Db.perform] in H;
      [|discriminate].
    destruct (negb _); [discriminate|].
    cbn [exec Db.perform] in H.
    destruct (find _ _); discriminate.
  - injection Ht as <- _.
    rewrite (all_revoked_not_active _ _ _ Hall) in Hfirst; discriminate.
Qed.

(** X7 - logout without a token ends every session of the user.  A logout
    whose body has no refresh token, or an empty one, is answered "Logged
    out successfully"; afterwards every row of the user is revoked, the rows
    of other users are as they were, and every refresh with a token of that
    user is answered 401. *)
Theorem logout_without_token_ends_every_session :
  forall (a : Ambient) (u : string) (t : option Str) (db : Db.t),
    t = None \/ t = Some (Lit "") ->
    fst (exec (Auth.logout_handler a u t) db) = Auth.logged_out
    /\ all_revoked u
         (Db.refreshToken (snd (exec (Auth.logout_handler a u t) db)))
    /\ (forall r,
          In r (Db.refreshToken db) -> RefreshToken.userId r <> u ->
          In r (Db.refreshToken (snd (exec (Auth.logout_handler a u t) db))))
    /\ (forall e a' p k,
          Payload.sub p = u ->
          status
            (fst (exec (Auth.refresh e a' (Some (Jwt p k)))
                    (snd (exec (Auth.logout_handler a u t) db)))) = 401).
Proof.
  intros a u t db Ht.
  assert (Hrun : exec (Auth.logout_handler a u t) db
                 = (Auth.logged_out,
                    Db.make (Db.user db)
                      (revoke_all u (date_now a) (Db.refreshToken db))))
    by (destruct Ht as [-> | ->]; reflexivity).
  rewrite Hrun; cbn [fst snd Db.refreshToken].
  split; [reflexivity|split; [apply all_revoked_revoke_all|split]].
  - intros r; apply in_revoke_all_other.
  - intros e a' p k <-; apply refresh_status_when_all_revoked.
    apply all_revoked_revoke_all.
Qed.

Lemma logout_without_token_ends_every_session_witness :
  all_revoked "u1"
    (Db.refreshToken
       (snd (exec (Auth.logout_handler (mkAmbient 5000 4) "u1"
                     (Some (Lit ""))) TwoUsers.db))).
Proof.
  apply (logout_without_token_ends_every_session (mkAmbient 5000 4) "u1"
           (Some (Lit "")) TwoUsers.db).
  right; reflexivity.
Defined.

(** A logout with a non-empty token, case by case: no unrevoked row of the
    user matches and nothing is written, or the first match is revoked. *)
Lemma logout_handler_cases (a : Ambient) (u : string) (token : Str)
    (db : Db.t) :
  truthy token = true ->
  (Auth.first_match token
     (filter (Db.satisfies (Db.mkWhere u None true)) (Db.refreshToken db))
   = None
   /\ exec (Auth.logout_handler a u (Some token)) db = (Auth.logged_out, db))
  \/ (exists record,
        Auth.first_match token
          (filter (Db.satisfies (Db.mkWhere u None true)) (Db.refreshToken db))
        = Some record
        /\ exec (Auth.logout_handler a u (Some token)) db
           = (Auth.logged_out,
              Db.make (Db.user db)
                (revoke_id (RefreshToken.id record) (date_now a)
                   (Db.refreshToken db)))).
Proof.
  intros Htruthy; unfold Auth.logout_handler; rewrite Htruthy.
  cbn [exec Db.perform].
  destruct (Auth.first_match token _) as [record|] eqn:Hfirst;
    [right; exists record|left]; split; try reflexivity.
  cbn [exec Db.perform].
  apply first_match_some in Hfirst as [Hin _].
  apply filter_In in Hin as [Hin _].
  now rewrite (existsb_has_id _ _ Hin).
Qed.

(** X8 - the token of a user's only session, once logged out, ends up in the
    reuse answer.  Let a user have at most one unrevoked row.  After a
    logout of that user with a refresh token of theirs, a refresh with the
    same token, within its dates, gets the reuse answer, and every row of
    the user is revoked. *)
Theorem logged_out_token_replayed_revokes_all :
  forall (e : Auth.Env) (a a' : Ambient) (p : Payload.t) (db : Db.t),
    Payload.type p = Some "refresh" ->
    Payload.iat p <= seconds a' < Payload.exp p ->
    (length
       (filter (Db.satisfies (Db.mkWhere (Payload.sub p) None true))
          (Db.refreshToken db)) <= 1)%nat ->
    exists db2,
      exec (Auth.refresh e a' (Some (Jwt p (Auth.JWT_REFRESH_SECRET e))))
        (snd (exec (Auth.logout_handler a (Payload.sub p)
                      (Some (Jwt p (Auth.JWT_REFRESH_SECRET e)))) db))
      = (Auth.reuse_detected, db2)
      /\ all_revoked (Payload.sub p) (Db.refreshToken db2).
Proof.
  intros e a a' p db Hty [Hiat Hexp] Hone.
  set (token := Jwt p (Auth.JWT_REFRESH_SECRET e)) in *.
  set (u := Payload.sub p) in *.
  assert (Hnone :
    Auth.first_match token
      (active u (date_now a')
         (Db.refreshToken
            (snd (exec (Auth.logout_handler a u (Some token)) db)))) = None).
  { apply first_match_none; intros r' Hin'.
    apply in_active in Hin' as (Hin' & Hu & _ & Hrev).
    destruct (logout_handler_cases a u token db eq_refl)
      as [[Hnone Hrun]|(record & Hfirst & Hrun)];
      rewrite Hrun in Hin'; cbn [snd Db.refreshToken] in Hin'.
    - apply (proj1 (first_match_none _ _) Hnone).
      apply filter_In; split; [exact Hin'|].
      unfold Db.satisfies; cbn.
      now rewrite Hu, String.eqb_refl, Hrev.
    - exfalso.
      apply first_match_some in Hfirst as [Hrec _].
      apply in_map_iff in Hin' as (r & <- & Hin).
      destruct (Db.has_id (RefreshToken.id record) r) eqn:Hid;
        [discriminate|].
      assert (r = record).
      { apply (length_le_1_unique _ r record Hone); [|exact Hrec].
        apply filter_In; split; [exact Hin|].
        unfold Db.satisfies; cbn.
        now rewrite Hu, String.eqb_refl, Hrev. }
      subst r; unfold Db.has_id in Hid; rewrite N.eqb_refl in Hid.
      discriminate. }
  eexists; split.
  - now apply refresh_without_match.
  - apply all_revoked_revoke_all.
Qed.

Lemma logged_out_token_replayed_revokes_all_witness :
  exists db2,
    exec (Auth.refresh Scenario.env (mkAmbient 6000 5)
            (Some (Scenario.alice_refresh 1000)))
      (snd (exec (Auth.logout_handler (mkAmbient 5000 4) "u1"
                    (Some (Scenario.alice_refresh 1000))) Scenario.db1))
    = (Auth.reuse_detected, db2)
    /\ all_revoked "u1" (Db.refreshToken db2).
Proof.
  apply (logged_out_token_replayed_revokes_all Scenario.env
           (mkAmbient 5000 4) (mkAmbient 6000 5)
           (Auth.refresh_payload Scenario.alice 1) Scenario.db1).
  - reflexivity.
  - vm_compute; split; [discriminate|reflexivity].
  - vm_compute; lia.
Defined.

(** A row that a logout has not revoked is still what the refresh handler
    looks it up as. *)
Lemma active_after_revoke_id (record r : RefreshToken.t) (u : string)
    (date d : Z) (rows : list RefreshToken.t) :
  NoDup (map RefreshToken.id rows) ->
  In record rows -> r <> record ->
  In r (active u date rows) ->
  In r (active u date (revoke_id (RefreshToken.id record) d rows)).
Proof.
  intros Hnd Hrec Hne Hin.
  apply in_active in Hin as (Hin & Hrest); apply in_active; split; auto.
  now apply in_revoke_id_other.
Qed.

(** X9 - a logout ends one session at most.  In a table whose ids are
    distinct, let a refresh token be valid - within its dates, of type
    refresh, its subject a user - and match two different active rows of
    its subject, as the tokens of a user who is logged in on two devices
    do.  After one logout with a non-empty token, whoever's it is, that
    refresh token is still exchanged for a new pair. *)
Theorem logout_of_one_device_leaves_the_others :
  forall (e : Auth.Env) (a a' : Ambient) (u : string) (token : Str)
         (p2 : Payload.t) (db : Db.t) (r1 r2 : RefreshToken.t) (user : User.t),
    truthy token = true ->
    NoDup (map RefreshToken.id (Db.refreshToken db)) ->
    Payload.type p2 = Some "refresh" ->
    Payload.iat p2 <= seconds a' < Payload.exp p2 ->
    In r1 (active (Payload.sub p2) (date_now a') (Db.refreshToken db)) ->
    In r2 (active (Payload.sub p2) (date_now a') (Db.refreshToken db)) ->
    r1 <> r2 ->
    Bcrypt.compare (Jwt p2 (Auth.JWT_REFRESH_SECRET e))
      (RefreshToken.tokenHash r1) = true ->
    Bcrypt.compare (Jwt p2 (Auth.JWT_REFRESH_SECRET e))
      (RefreshToken.tokenHash r2) = true ->
    find (fun x => String.eqb (User.id x) (Payload.sub p2)) (Db.user db)
    = Some user ->
    exists db2,
      exec (Auth.refresh e a' (Some (Jwt p2 (Auth.JWT_REFRESH_SECRET e))))
        (snd (exec (Auth.logout_handler a u (Some token)) db))
      = (json (tokens_body
                 (HonoJwt.sign (Auth.access_payload user (seconds a'))
                    (Auth.JWT_SECRET e))
                 (HonoJwt.sign (Auth.refresh_payload user (seconds a'))
                    (Auth.JWT_REFRESH_SECRET e))
                 (Some 900)) 200, db2).
Proof.
  intros e a a' u token p2 db r1 r2 user Htruthy Hnd Hty [Hiat Hexp]
    Hr1 Hr2 Hne Hc1 Hc2 Huser.
  assert (Hleft :
    exists r,
      In r (active (Payload.sub p2) (date_now a')
              (Db.refreshToken
                 (snd (exec (Auth.logout_handler a u (Some token)) db))))
      /\ Bcrypt.compare (Jwt p2 (Auth.JWT_REFRESH_SECRET e))
           (RefreshToken.tokenHash r) = true).
  { destruct (logout_handler_cases a u token db Htruthy)
      as [[_ ->]|(record & Hfirst & ->)]; cbn [snd Db.refreshToken];
      [now exists r1|].
    apply first_match_some in Hfirst as [Hrec _].
    apply filter_In in Hrec as [Hrec _].
    destruct (RefreshToken.eq_dec r1 record) as [->|Hne1].
    - exists r2; split; [|exact Hc2].
      apply active_after_revoke_id; auto.
    - exists r1; split; [|exact Hc1].
      apply active_after_revoke_id; auto. }
  destruct Hleft as (r & Hin & Hc).
  assert (Husers :
    Db.user (snd (exec (Auth.logout_handler a u (Some token)) db))
    = Db.user db)
    by (destruct (logout_handler_cases a u token db Htruthy)
          as [[_ ->]|(record & _ & ->)]; reflexivity).
  destruct (find_exists
              (fun record =>
                 Bcrypt.compare (Jwt p2 (Auth.JWT_REFRESH_SECRET e))
                   (RefreshToken.tokenHash record)) _ r Hin Hc)
    as [record Hrecord].
  eexists; apply (refresh_with_match e a' p2 _ record user); auto.
  now rewrite Husers.
Qed.

Lemma logout_of_one_device_leaves_the_others_witness :
  exists db2,
    exec (Auth.refresh Scenario.env (mkAmbient 6000 5)
            (Some (Scenario.alice_refresh 3000)))
      (snd (exec (Auth.logout_handler (mkAmbient 5000 4) "u1"
                    (Some (Scenario.alice_refresh 1000))) TwoUsers.db))
    = (json (tokens_body (Scenario.alice_access 6000)
               (Scenario.alice_refresh 6000) (Some 900)) 200, db2).
Proof.
  apply (logout_of_one_device_leaves_the_others Scenario.env
           (mkAmbient 5000 4) (mkAmbient 6000 5) "u1"
           (Scenario.alice_refresh 1000)
           (Auth.refresh_payload Scenario.alice 3) TwoUsers.db
           (RefreshToken.make 0 "u1"
              (BcryptHash (Scenario.alice_refresh 1000) 1)
              (1000 + 7 * Scenario.day) None)
           (RefreshToken.make 2 "u1"
              (BcryptHash (Scenario.alice_refresh 3000) 3)
              (3000 + 7 * Scenario.day) None)
           Scenario.alice).
  - reflexivity.
  - vm_compute; repeat constructor; simpl; intuition discriminate.
  - reflexivity.
  - vm_compute; split; [discriminate|reflexivity].
  - vm_compute; auto.
  - vm_compute; auto.
  - discriminate.
  - vm_compute; reflexivity.
  - vm_compute; reflexivity.
  - vm_compute; reflexivity.
Defined.

(** ** Logging out twice *)

Lemma map_fixes_elements {A : Type} (f : A -> A) (l : list A) (x : A) :
  map f l = l -> In x l -> f x = x.
Proof.
  induction l as [|y l IH]; simpl; [contradiction|].
  intros [= Hy Hl] [<-|Hin]; auto.
Qed.

Lemma revoke_id_changes_the_rows (record : RefreshToken.t) (d : Z)
    (rows : list RefreshToken.t) :
  In record rows -> RefreshToken.revokedAt record = None ->
  revoke_id (RefreshToken.id record) d rows <> rows.
Proof.
  intros Hin Hrev Heq.
  pose proof (map_fixes_elements _ _ _ Heq Hin) as Hfix; cbn in Hfix.
  unfold Db.has_id in Hfix; rewrite N.eqb_refl in Hfix.
  apply (f_equal RefreshToken.revokedAt) in Hfix; cbn in Hfix; congruence.
Qed.

(** A session matches every refresh token of its user. *)
Lemma session_matches (u : User.t) (r : RefreshToken.t) (s : Z) (k : string) :
  session_of u r ->
  Bcrypt.compare (HonoJwt.sign (Auth.refresh_payload u s) k)
    (RefreshToken.tokenHash r) = true.
Proof.
  intros (_ & _ & s' & k' & n & ->); now apply compare_refresh_tokens.
Qed.

Lemma session_is_unrevoked (u : User.t) (r : RefreshToken.t)
    (rows : list RefreshToken.t) :
  session_of u r -> In r rows ->
  In r (filter (Db.satisfies (Db.mkWhere (User.id u) None true)) rows).
Proof.
  intros (Hu & Hrev & _) Hin; apply filter_In; split; [exact Hin|].
  unfold Db.satisfies; cbn; now rewrite Hu, String.eqb_refl, Hrev.
Qed.

(** C8 - idempotent logout.  The lookup of the logout handler compares with
    [bcrypt.compare], which cannot tell the refresh tokens of one user
    apart.  In a table whose ids are distinct, let a user have two sessions:
    two unrevoked rows, each with the hash of a refresh token of theirs.  A
    logout with any refresh token of the user revokes one row, and a second
    logout with the same token is no no-op: it is answered "Logged out
    successfully" too and revokes a row that the first call had left
    unrevoked. *)
Theorem second_logout_revokes_another_session :
  forall (a a' : Ambient) (u : User.t) (s : Z) (k : string) (db : Db.t)
         (r1 r2 : RefreshToken.t),
    NoDup (map RefreshToken.id (Db.refreshToken db)) ->
    In r1 (Db.refreshToken db) -> In r2 (Db.refreshToken db) -> r1 <> r2 ->
    session_of u r1 -> session_of u r2 ->
    exists record1 record2 : RefreshToken.t,
      exec (Auth.logout_handler a (User.id u)
              (Some (HonoJwt.sign (Auth.refresh_payload u s) k))) db
      = (Auth.logged_out,
         Db.make (Db.user db)
           (revoke_id (RefreshToken.id record1) (date_now a)
              (Db.refreshToken db)))
      /\ In record2
           (revoke_id (RefreshToken.id record1) (date_now a)
              (Db.refreshToken db))
      /\ RefreshToken.revokedAt record2 = None
      /\ exec (Auth.logout_handler a' (User.id u)
                 (Some (HonoJwt.sign (Auth.refresh_payload u s) k)))
           (Db.make (Db.user db)
              (revoke_id (RefreshToken.id record1) (date_now a)
                 (Db.refreshToken db)))
         = (Auth.logged_out,
            Db.make (Db.user db)
              (revoke_id (RefreshToken.id record2) (date_now a')
                 (revoke_id (RefreshToken.id record1) (date_now a)
                    (Db.refreshToken db))))
      /\ revoke_id (RefreshToken.id record2) (date_now a')
           (revoke_id (RefreshToken.id record1) (date_now a)
              (Db.refreshToken db))
         <> revoke_id (RefreshToken.id record1) (date_now a)
              (Db.refreshToken db).
Proof.
  intros a a' u s k db r1 r2 Hnd Hin1 Hin2 Hne Hs1 Hs2.
  set (token := HonoJwt.sign (Auth.refresh_payload u s) k).
  destruct (logout_handler_cases a (User.id u) token db eq_refl)
    as [[Hnone _]|(record1 & Hfirst1 & Hrun1)].
  { pose proof (proj1 (first_match_none _ _) Hnone r1
                  (session_is_unrevoked u r1 _ Hs1 Hin1)) as Hno.
    unfold token in Hno; rewrite (session_matches u r1 s k Hs1) in Hno.
    discriminate. }
  apply first_match_some in Hfirst1 as [Hrec1 _].
  apply filter_In in Hrec1 as [Hrec1 _].
  set (rows1 := revoke_id (RefreshToken.id record1) (date_now a)
                  (Db.refreshToken db)) in *.
  assert (Hleft : exists r, In r rows1 /\ session_of u r).
  { destruct (RefreshToken.eq_dec r1 record1) as [->|Hne1].
    - exists r2; split; [|exact Hs2].
      apply in_revoke_id_other; auto.
    - exists r1; split; [|exact Hs1].
      apply in_revoke_id_other; auto. }
  destruct Hleft as (r & Hr & Hs).
  destruct (logout_handler_cases a' (User.id u) token
              (Db.make (Db.user db) rows1) eq_refl)
    as [[Hnone _]|(record2 & Hfirst2 & Hrun2)].
  { pose proof (proj1 (first_match_none _ _) Hnone r
                  (session_is_unrevoked u r _ Hs Hr)) as Hno.
    unfold token in Hno; rewrite (session_matches u r s k Hs) in Hno.
    discriminate. }
  apply first_match_some in Hfirst2 as [Hrec2 _].
  apply filter_In in Hrec2 as [Hrec2 Hsat2].
  apply satisfies_unrevoked in Hsat2.
  exists record1, record2; repeat split; auto.
  now apply revoke_id_changes_the_rows.
Qed.

Lemma second_logout_revokes_another_session_witness :
  exists record1 record2 : RefreshToken.t,
    exec (Auth.logout_handler (mkAmbient 5000 4) "u1"
            (Some (Scenario.alice_refresh 1000))) TwoUsers.db
    = (Auth.logged_out,
       Db.make (Db.user TwoUsers.db)
         (revoke_id (RefreshToken.id record1) 5000
            (Db.refreshToken TwoUsers.db)))
    /\ In record2
         (revoke_id (RefreshToken.id record1) 5000
            (Db.refreshToken TwoUsers.db))
    /\ RefreshToken.revokedAt record2 = None
    /\ exec (Auth.logout_handler (mkAmbient 6000 5) "u1"
               (Some (Scenario.alice_refresh 1000)))
         (Db.make (Db.user TwoUsers.db)
            (revoke_id (RefreshToken.id record1) 5000
               (Db.refreshToken TwoUsers.db)))
       = (Auth.logged_out,
          Db.make (Db.user TwoUsers.db)
            (revoke_id (RefreshToken.id record2) 6000
               (revoke_id (RefreshToken.id record1) 5000
                  (Db.refreshToken TwoUsers.db))))
    /\ revoke_id (RefreshToken.id record2) 6000
         (revoke_id (RefreshToken.id record1) 5000
            (Db.refreshToken TwoUsers.db))
       <> revoke_id (RefreshToken.id record1) 5000
            (Db.refreshToken TwoUsers.db).
Proof.
  apply (second_logout_revokes_another_session
           (mkAmbient 5000 4) (mkAmbient 6000 5) Scenario.alice 1
           "refresh-key" TwoUsers.db
           (RefreshToken.make 0 "u1"
              (BcryptHash (Scenario.alice_refresh 1000) 1)
              (1000 + 7 * Scenario.day) None)
           (RefreshToken.make 2 "u1"
              (BcryptHash (Scenario.alice_refresh 3000) 3)
              (3000 + 7 * Scenario.day) None)).
  - vm_compute; repeat constructor; simpl; intuition discriminate.
  - vm_compute; auto.
  - vm_compute; auto.
  - discriminate.
  - repeat split; exists 1, "refresh-key", 1%N; reflexivity.
  - repeat split; exists 3, "refresh-key", 3%N; reflexivity.
Defined.

(** What the two logouts of Alice, who is logged in on two devices, with the
    token of her first device leave: both her rows are revoked, the second
    by the second call. *)
Lemma two_logouts_with_one_token :
  map RefreshToken.revokedAt
    (Db.refreshToken
       (snd (exec (Auth.logout_handler (mkAmbient 5000 4) "u1"
                     (Some (Scenario.alice_refresh 1000))) TwoUsers.db)))
  = [Some 5000; None; None]
  /\ map RefreshToken.revokedAt
       (Db.refreshToken
          (snd (exec (Auth.logout_handler (mkAmbient 6000 5) "u1"
                        (Some (Scenario.alice_refresh 1000)))
                  (snd (exec (Auth.logout_handler (mkAmbient 5000 4) "u1"
                                (Some (Scenario.alice_refresh 1000)))
                          TwoUsers.db)))))
     = [Some 5000; None; Some 6000].
Proof. split; vm_compute; reflexivity. Qed.

(** ** Frame, handler by handler *)

(** A login fails and writes nothing, or adds one row. *)
Lemma login_cases (e : Auth.Env) (a : Ambient) (em pw : string) (db : Db.t) :
  exec (Auth.login e a em pw) db = (invalid_credentials, db)
  \/ exists user,
       snd (exec (Auth.login e a em pw) db)
       = Db.make (Db.user db)
           (Db.refreshToken db ++ [issued_row e a user (Db.refreshToken db)]).
Proof.
  unfold Auth.login; cbn [exec Db.perform].
  destruct (find _ (Db.user db)) as [user|]; [|now left].
  destruct (Bcrypt.compare _ _); cbn [negb exec Db.perform]; [|now left].
  right; exists user; reflexivity.
Qed.

Lemma handler_effect_retains (e : Auth.Env) (a : Ambient)
    (rows rows' : list RefreshToken.t) :
  handler_effect e a rows rows' -> retains rows rows'.
Proof.
  assert (Hid : forall i d,
             Forall2 same_but_revokedAt rows (revoke_id i d rows)).
  { intros i d; apply Forall2_same_map; intros r.
    destruct (Db.has_id i r);
      auto using same_but_revokedAt_refl, same_but_revokedAt_set. }
  intros [->|[(user & ->)|[(record & _ & _ & ->)|[(record & user & _ & _ & ->)
                                                  |(u & ->)]]]].
  - apply retains_refl.
  - eexists _, _; split; [reflexivity|apply Forall2_same_refl].
  - eexists _, []; split; [now rewrite app_nil_r|apply Hid].
  - eexists _, _; split; [reflexivity|apply Hid].
  - apply retains_map; intros r; destruct (Db.satisfies _ r);
      auto using same_but_revokedAt_refl, same_but_revokedAt_set.
Qed.

Lemma logout_handler_effect (e : Auth.Env) (a : Ambient) (u : string)
    (t : option Str) (db : Db.t) :
  Db.user (snd (exec (Auth.logout_handler a u t) db)) = Db.user db
  /\ handler_effect e a (Db.refreshToken db)
       (Db.refreshToken (snd (exec (Auth.logout_handler a u t) db))).
Proof.
  destruct t as [t|];
    [|split; [reflexivity|repeat right; now exists u]].
  destruct (truthy t) eqn:Htruthy;
    [|unfold Auth.logout_handler; rewrite Htruthy;
      split; [reflexivity|repeat right; now exists u]].
  destruct (logout_handler_cases a u t db Htruthy)
    as [[_ ->]|(record & Hfirst & ->)]; cbn [snd Db.user Db.refreshToken];
    split; try reflexivity; [now left|].
  apply first_match_some in Hfirst as [Hrec _].
  apply filter_In in Hrec as [Hrec Hsat].
  right; right; left; exists record; repeat split; auto.
  now apply satisfies_unrevoked in Hsat.
Qed.

Lemma handle_effect (e : Auth.Env) (a : Ambient) (r : Server.Request)
    (db : Db.t) :
  Db.user (snd (exec (Server.handle e a r) db)) = Db.user db
  /\ handler_effect e a (Db.refreshToken db)
       (Db.refreshToken (snd (exec (Server.handle e a r) db))).
Proof.
  destruct r as [em pw|t|h t]; cbn [Server.handle].
  - destruct (login_cases e a em pw db) as [->|(user & ->)];
      cbn [snd Db.user Db.refreshToken]; split; try reflexivity;
      [now left|right; left; now exists user].
  - destruct (refresh_cases e a t db)
      as [[-> _]|(p & _ & _ & _ & [[_ ->]|(record & Hfirst &
           [[_ ->]|(user & _ & ->)])])];
      cbn [snd Db.user Db.refreshToken]; split; try reflexivity.
    + now left.
    + repeat right; now eexists.
    + apply first_match_some in Hfirst as [Hrec _].
      apply in_active in Hrec as (Hrec & _ & _ & Hrev).
      right; right; left; now exists record.
    + apply first_match_some in Hfirst as [Hrec _].
      apply in_active in Hrec as (Hrec & _ & _ & Hrev).
      right; right; right; left; now exists record, user.
  - unfold Auth.logout.
    destruct (Auth.authenticate e (seconds a) h) as [resp|ctx];
      [split; [reflexivity|now left]|].
    apply logout_handler_effect.
Qed.

(** C5 - frame and retention, for the handlers over the persisted table.
    One request leaves the user table alone and does one of five things to
    the rows: nothing; adds the row of the token it has minted; stamps
    [revokedAt], with the clock, on one row that was unrevoked; does both;
    or stamps every row of one user.  A refresh that answers a new pair is
    a rotation: it has stamped one row that was active for the token's user
    and added, after all rows, the row with the hash of the refresh token it
    returns.  Hence, whatever requests are served, every row that was in the
    table is still there, in its place, with the same id, user, hash and
    expiry, and new rows come after the old ones. *)
Theorem handlers_only_revoke_and_append :
  forall (e : Auth.Env),
    (forall a r db,
        Db.user (snd (exec (Server.handle e a r) db)) = Db.user db
        /\ handler_effect e a (Db.refreshToken db)
             (Db.refreshToken (snd (exec (Server.handle e a r) db))))
    /\ (forall a t db acc new ex st db1,
          exec (Auth.refresh e a t) db
          = (json (tokens_body acc new ex) st, db1) ->
          exists record user,
            In record
              (active (User.id user) (date_now a) (Db.refreshToken db))
            /\ Db.refreshToken db1
               = (revoke_id (RefreshToken.id record) (date_now a)
                    (Db.refreshToken db)
                  ++ [RefreshToken.make (Db.fresh_id (Db.refreshToken db))
                        (User.id user) (Bcrypt.hash new (salt a))
                        (Auth.in_seven_days a) None])%list)
    /\ (forall events db,
          retains (Db.refreshToken db)
            (Db.refreshToken (Server.serve e events db))
          /\ Db.user (Server.serve e events db) = Db.user db).
Proof.
  intros e; split; [intros a r db; apply handle_effect|split].
  - intros a t db acc new ex st db1 Hrun.
    apply refresh_success_inv in Hrun
      as (p & record & user & _ & _ & _ & Hfirst & _ & Hid & _ & -> & ->).
    apply first_match_some in Hfirst as [Hrec _].
    exists record, user; split; [now rewrite Hid|reflexivity].
  - intros events; induction events as [|[a r] rest IH]; intros db;
      cbn [Server.serve].
    + split; [apply retains_refl|reflexivity].
    + destruct (handle_effect e a r db) as [Hu Heff].
      apply handler_effect_retains in Heff.
      destruct (IH (snd (exec (Server.handle e a r) db))) as [Hr' Hu'].
      split; [eapply retains_trans; eassumption|congruence].
Qed.

Lemma handlers_only_revoke_and_append_witness :
  exists record user,
    In record (active (User.id user) 5000 (Db.refreshToken Scenario.db1))
    /\ Db.refreshToken Scenario.db2
       = (revoke_id (RefreshToken.id record) 5000
            (Db.refreshToken Scenario.db1)
          ++ [RefreshToken.make 1 (User.id user)
                (BcryptHash (Scenario.alice_refresh 5000) 2)
                (5000 + 7 * Scenario.day) None])%list.
Proof.
  destruct (handlers_only_revoke_and_append Scenario.env) as (_ & Hrot & _).
  apply (Hrot (mkAmbient 5000 2) (Some (Scenario.alice_refresh 1000))
           Scenario.db1 (Scenario.alice_access 5000)
           (Scenario.alice_refresh 5000) (Some 900) 200 Scenario.db2).
  vm_compute; reflexivity.
Defined.

(** * The in-memory application *)

Lemma run_snoc (secret : string) (events : list ExampleApp.Event)
    (ev : ExampleApp.Event) :
  ExampleApp.run secret (events ++ [ev])
  = ExampleApp.apply secret ev (ExampleApp.run secret events).
Proof. unfold ExampleApp.run; now rewrite fold_left_app. Qed.

(** What a request can do to the [users] array: leave it, push a user with
    role ["user"] and an e-mail no element has, or rename one element. *)
Lemma apply_users (secret : string) (ev : ExampleApp.Event)
    (st : Example.State) :
  Example.users (ExampleApp.apply secret ev st) = Example.users st
  \/ (exists uuid date em pw nm,
        find (fun u => String.eqb (Example.XUser.email u) em)
          (Example.users st) = None
        /\ Example.users (ExampleApp.apply secret ev st)
           = (Example.users st
              ++ [Example.XUser.make uuid em nm pw "user" date])%list)
  \/ (exists f updates,
        Example.users (ExampleApp.apply secret ev st)
        = ExampleApp.update_first f (ExampleApp.with_name updates)
            (Example.users st)).
Proof.
  destruct ev as [uuid date em pw nm|date em pw|date t|date auth updates];
    cbn [ExampleApp.apply].
  - unfold Example.register.
    destruct (find _ (Example.users st)) eqn:Hfind; [now left|].
    right; left; exists uuid, date, em, pw, nm; auto.
  - left; unfold Example.login.
    destruct (find _ _); [|reflexivity].
    destruct (negb _); reflexivity.
  - left; unfold Example.refresh.
    destruct t as [t|]; [|reflexivity].
    destruct (_ || _); [reflexivity|].
    destruct (HonoJwt.verify _ _ _); [reflexivity|].
    destruct (negb _); [reflexivity|].
    destruct (find _ _); reflexivity.
  - unfold ExampleApp.patch_me.
    destruct (ExampleApp.authenticate _ _ _) as [r|v]; [now left|].
    destruct (find _ _); [|now left].
    right; right; eexists _, _; reflexivity.
Qed.

Lemma update_first_map {B : Type} (h : Example.XUser.t -> B)
    (f : Example.XUser.t -> bool) (g : Example.XUser.t -> Example.XUser.t)
    (l : list Example.XUser.t) :
  (forall u, h (g u) = h u) ->
  map h (ExampleApp.update_first f g l) = map h l.
Proof.
  intros Hg; induction l as [|x l IH]; simpl; [reflexivity|].
  destruct (f x); simpl; now rewrite ?Hg, ?IH.
Qed.

Lemma roles_of_run (secret : string) (events : list ExampleApp.Event) :
  Forall (fun r => r = "user")
    (map Example.XUser.role (Example.users (ExampleApp.run secret events))).
Proof.
  induction events as [|ev events IH] using rev_ind; [constructor|].
  rewrite run_snoc.
  destruct (apply_users secret ev (ExampleApp.run secret events))
    as [->|[(uuid & date & em & pw & nm & _ & ->)|(f & updates & ->)]].
  - exact IH.
  - rewrite map_app; apply Forall_app; split; [exact IH|].
    repeat constructor.
  - rewrite update_first_map; [exact IH|].
    intros u; destruct updates; reflexivity.
Qed.

(** X10 - nobody is an administrator.  Whatever requests the in-memory
    application has served since boot, the access token of a successful
    login never opens [GET /admin/users]: the answer is 403 "Admin access
    required" at a clock within the token's dates - from the second of the
    login on and before the token expires - and 401 at any other clock,
    whatever the state asked. *)
Theorem admin_routes_are_out_of_reach :
  forall (secret : string) (events : list ExampleApp.Event) (date : Z)
         (em pw : string) (acc rt : Str) (ex : option Z)
         (st' : Example.State),
    Example.login secret date em pw (ExampleApp.run secret events)
    = (json (tokens_body acc rt ex) 200, st') ->
    forall now page limit st,
      ExampleApp.admin_users secret now (Some (Auth.Bearer acc)) page limit st
      = ExampleApp.denied
          (if (date / 1000 + 900 <=? now) || (now <? date / 1000)
           then json (error_body "Invalid or expired token" None) 401
           else ExampleApp.admin_access_required).
Proof.
  intros secret events date em pw acc rt ex st' Hlogin now page limit st.
  unfold Example.login in Hlogin.
  destruct (find _ _) as [user|] eqn:Huser; [|discriminate].
  destruct (negb _); [discriminate|].
  injection Hlogin as <- _ _ _.
  assert (Hrole : Example.XUser.role user = "user").
  { apply find_some in Huser as [Hin _].
    pose proof (roles_of_run secret events) as Hall.
    rewrite Forall_forall in Hall; apply Hall.
    now apply in_map. }
  unfold ExampleApp.admin_users, ExampleApp.authenticate.
  cbn [HonoJwt.sign HonoJwt.verify Example.access_payload Payload.exp
         Payload.iat].
  destruct (date / 1000 + 900 <=? now); [reflexivity|].
  destruct (now <? date / 1000); [reflexivity|].
  rewrite String.eqb_refl.
  unfold ExampleApp.requireAdmin; cbn; now rewrite Hrole.
Qed.

Lemma admin_routes_are_out_of_reach_witness :
  ExampleApp.admin_users Scenario.x_secret 2 
    (Some (Auth.Bearer (Scenario.x_access 1000))) None None Scenario.st1
  = ExampleApp.denied ExampleApp.admin_access_required.
Proof.
  apply (admin_routes_are_out_of_reach Scenario.x_secret
           [ExampleApp.register "id-1" 500 "alice@example.com"
              "correct horse" "Alice"]
           1000 "alice@example.com" "correct horse"
           (Scenario.x_access 1000) (Scenario.x_refresh 1000) (Some 900)
           Scenario.st1 (eq_refl) 2 None None Scenario.st1).
Defined.

Lemma find_none_not_in_emails (em : string) (l : list Example.XUser.t) :
  find (fun u => String.eqb (Example.XUser.email u) em) l = None ->
  ~ In em (map Example.XUser.email l).
Proof.
  intros Hfind Hin; apply in_map_iff in Hin as (u & <- & Hin).
  pose proof (find_none _ _ Hfind u Hin) as H; cbn in H.
  now rewrite String.eqb_refl in H.
Qed.

Lemma NoDup_snoc {A : Type} (l : list A) (x : A) :
  NoDup l -> ~ In x l -> NoDup (l ++ [x]).
Proof.
  induction l as [|y l IH]; simpl; intros Hnd Hx.
  - repeat constructor; auto.
  - inversion_clear Hnd as [|? ? Hy Hl]; constructor.
    + intros Hin; apply in_app_or in Hin as [Hin|[<-|[]]]; auto.
    + apply IH; auto.
Qed.

(** X11 - one account per e-mail.  Whatever requests the in-memory
    application has served since boot, no two elements of [users] have the
    same e-mail. *)
Theorem emails_stay_unique :
  forall (secret : string) (events : list ExampleApp.Event),
    NoDup (map Example.XUser.email
             (Example.users (ExampleApp.run secret events))).
Proof.
  intros secret events.
  induction events as [|ev events IH] using rev_ind; [constructor|].
  rewrite run_snoc.
  destruct (apply_users secret ev (ExampleApp.run secret events))
    as [->|[(uuid & date & em & pw & nm & Hfind & ->)|(f & updates & ->)]].
  - exact IH.
  - rewrite map_app; cbn [map Example.XUser.email].
    apply NoDup_snoc; [exact IH|now apply find_none_not_in_emails].
  - rewrite update_first_map; [exact IH|].
    intros u; destruct updates; reflexivity.
Qed.

Lemma find_app_none {A : Type} (f : A -> bool) (l : list A) (x : A) :
  find f l = None -> f x = true -> find f (l ++ [x]) = Some x.
Proof.
  induction l as [|y l IH]; simpl; intros Hnone Hx; [now rewrite Hx|].
  destruct (f y); [discriminate|auto].
Qed.

(** X12 - register, then log in.  After a registration is answered 201, a
    login with the same e-mail and password succeeds at any clock, and a
    login with the same e-mail and any other password is answered 401 and
    leaves the state as it was. *)
Theorem registered_user_can_log_in :
  forall (secret uuid : string) (date : Z) (em pw nm : string)
         (st st1 : Example.State) (b : Body),
    Example.register uuid date em pw nm st = (json b 201, st1) ->
    (forall date',
        Example.login secret date' em pw st1
        = (json (tokens_body
                   (HonoJwt.sign
                      (Payload.make uuid (Some em) (Some "user") None
                         (date' / 1000) (date' / 1000 + 900)) secret)
                   (HonoJwt.sign
                      (Payload.make uuid None None (Some "refresh")
                         (date' / 1000) (date' / 1000 + 604800))
                      (secret ++ "_refresh"))
                   (Some 900)) 200,
           Example.mkState (Example.users st1)
             (Example.set_add
                (HonoJwt.sign
                   (Payload.make uuid None None (Some "refresh")
                      (date' / 1000) (date' / 1000 + 604800))
                   (secret ++ "_refresh"))
                (Example.refreshTokens st1))))
    /\ (forall date' pw',
          pw' <> pw ->
          Example.login secret date' em pw' st1
          = (json (error_body "Invalid credentials" None) 401, st1)).
Proof.
  intros secret uuid date em pw nm st st1 b; unfold Example.register.
  destruct (find _ (Example.users st)) eqn:Hfind; [discriminate|].
  intros [= <- <-].
  assert (Hnew :
    find (fun u => String.eqb (Example.XUser.email u) em)
      (Example.users st
       ++ [Example.XUser.make uuid em nm pw "user" date])
    = Some (Example.XUser.make uuid em nm pw "user" date))
    by (apply find_app_none; [exact Hfind|cbn; apply String.eqb_refl]).
  split.
  - intros date'; unfold Example.login; cbn [Example.users].
    rewrite Hnew; cbn [Example.XUser.passwordHash].
    now rewrite String.eqb_refl.
  - intros date' pw' Hne; unfold Example.login; cbn [Example.users].
    rewrite Hnew; cbn [Example.XUser.passwordHash].
    destruct (String.eqb_spec pw pw'); [congruence|reflexivity].
Qed.

Lemma registered_user_can_log_in_witness :
  Example.login Scenario.x_secret 1000 "alice@example.com" "wrong horse"
    (snd (Example.register "id-1" 500 "alice@example.com" "correct horse"
            "Alice" Example.boot))
  = (json (error_body "Invalid credentials" None) 401,
     snd (Example.register "id-1" 500 "alice@example.com" "correct horse"
            "Alice" Example.boot)).
Proof.
  destruct (registered_user_can_log_in Scenario.x_secret "id-1" 500
              "alice@example.com" "correct horse" "Alice" Example.boot
              (snd (Example.register "id-1" 500 "alice@example.com"
                      "correct horse" "Alice" Example.boot))
              (user_body "id-1" "alice@example.com" "Alice" "user" 500)
              eq_refl) as [_ Hwrong].
  apply Hwrong; discriminate.
Defined.

Lemma set_has_delete (x y : Str) (s : list Str) :
  Example.set_has x (Example.set_delete y s)
  = negb (Str_eqb y x) && Example.set_has x s.
Proof.
  unfold Example.set_has, Example.set_delete.
  induction s as [|z s IH]; simpl; [now rewrite andb_false_r|].
  destruct (Str_eq_dec y z) as [<-|Hyz].
  - rewrite Str_eqb_refl; simpl; rewrite IH.
    destruct (Str_eqb x y) eqn:Hxy; simpl; [|reflexivity].
    apply Str_eqb_eq in Hxy as ->; now rewrite Str_eqb_refl.
  - rewrite (proj2 (Str_eqb_neq y z) Hyz); simpl; rewrite IH.
    destruct (Str_eqb y x) eqn:Hyx; simpl; [|reflexivity].
    apply Str_eqb_eq in Hyx as ->.
    now rewrite (proj2 (Str_eqb_neq x z) Hyz).
Qed.

Lemma set_has_add (x y : Str) (s : list Str) :
  Example.set_has x (Example.set_add y s)
  = Str_eqb x y || Example.set_has x s.
Proof.
  unfold Example.set_add.
  destruct (Example.set_has y s) eqn:Hy.
  - destruct (Str_eqb x y) eqn:Hxy; [|reflexivity].
    apply Str_eqb_eq in Hxy as ->; now rewrite Hy.
  - unfold Example.set_has; rewrite existsb_app; simpl.
    now rewrite orb_false_r, orb_comm.
Qed.

(** What a successful in-memory refresh has done. *)
Lemma example_refresh_success_inv (secret : string) (date : Z) (t : Str)
    (st st1 : Example.State) (acc new : Str) (ex : option Z) (code : Z) :
  Example.refresh secret date (Some t) st
  = (json (tokens_body acc new ex) code, st1) ->
  Example.set_has t (Example.refreshTokens st) = true
  /\ st1 = Example.mkState (Example.users st)
             (Example.set_add new
                (Example.set_delete t (Example.refreshTokens st))).
Proof.
  unfold Example.refresh.
  destruct (truthy t); cbn [negb orb]; [|discriminate].
  destruct (Example.set_has t _); cbn [negb]; [|discriminate].
  destruct (HonoJwt.verify _ _ _); [discriminate|].
  destruct (negb _); [discriminate|].
  destruct (find _ _); [|discriminate].
  intros [= <- <- <- <- <-]; auto.
Qed.

(** X13 - the in-memory rotation is single use, without reuse detection.
    After a refresh has succeeded and issued a different string, the
    presented token is answered 401 "Invalid refresh token" at any clock and
    the state is left alone; every other token that was in the set is still
    in it. *)
Theorem in_memory_rotation_is_single_use :
  forall (secret : string) (date : Z) (t : Str) (st st1 : Example.State)
         (acc new : Str) (ex : option Z),
    Example.refresh secret date (Some t) st
    = (json (tokens_body acc new ex) 200, st1) ->
    new <> t ->
    (forall date',
        Example.refresh secret date' (Some t) st1
        = (json (error_body "Invalid refresh token" None) 401, st1))
    /\ (forall t',
          t' <> t ->
          Example.set_has t' (Example.refreshTokens st) = true ->
          Example.set_has t' (Example.refreshTokens st1) = true).
Proof.
  intros secret date t st st1 acc new ex Hrun Hnew.
  apply example_refresh_success_inv in Hrun as [Hhas ->].
  split.
  - intros date'; unfold Example.refresh; cbn [Example.refreshTokens].
    rewrite set_has_add, set_has_delete, Str_eqb_refl.
    rewrite (proj2 (Str_eqb_neq t new)) by congruence.
    cbn; now rewrite orb_true_r.
  - intros t' Hne Hin; cbn [Example.refreshTokens].
    rewrite set_has_add, set_has_delete, Hin.
    rewrite (proj2 (Str_eqb_neq t t')) by congruence.
    cbn; now rewrite orb_true_r.
Qed.

Lemma in_memory_rotation_is_single_use_witness :
  Example.refresh Scenario.x_secret 9000 (Some (Scenario.x_refresh 1000))
    (snd (Example.refresh Scenario.x_secret 5000
            (Some (Scenario.x_refresh 1000)) Scenario.st1))
  = (json (error_body "Invalid refresh token" None) 401,
     snd (Example.refresh Scenario.x_secret 5000
            (Some (Scenario.x_refresh 1000)) Scenario.st1)).
Proof.
  destruct (in_memory_rotation_is_single_use Scenario.x_secret 5000
              (Scenario.x_refresh 1000) Scenario.st1
              (snd (Example.refresh Scenario.x_secret 5000
                      (Some (Scenario.x_refresh 1000)) Scenario.st1))
              (Scenario.x_access 5000) (Scenario.x_refresh 5000) None)
    as [Hagain _].
  - vm_compute; reflexivity.
  - vm_compute; discriminate.
  - apply Hagain.
Defined.

Lemma find_update_first (u : string) (g : Example.XUser.t -> Example.XUser.t)
    (l : list Example.XUser.t) (user : Example.XUser.t) :
  (forall x, Example.XUser.id (g x) = Example.XUser.id x) ->
  find (fun x => String.eqb (Example.XUser.id x) u) l = Some user ->
  find (fun x => String.eqb (Example.XUser.id x) u)
    (ExampleApp.update_first (fun x => String.eqb (Example.XUser.id x) u) g l)
  = Some (g user).
Proof.
  intros Hg; induction l as [|x l IH]; simpl; [discriminate|].
  destruct (String.eqb (Example.XUser.id x) u) eqn:Hx; simpl.
  - intros [= <-]; now rewrite Hg, Hx.
  - now rewrite Hx.
Qed.

(** X14 - a profile update is what the profile then shows.  When [PATCH
    /users/me] is answered 200, [GET /users/me] with the same token at the
    same clock answers the same body on the new state; the e-mails, roles
    and passwords of all users and the refresh tokens are as they were. *)
Theorem patched_profile_is_read_back :
  forall (secret : string) (now : Z) (auth : option Auth.Authorization)
         (updates : option string) (st st1 : Example.State) (b : Body),
    ExampleApp.patch_me secret now auth updates st = (json b 200, st1) ->
    ExampleApp.get_me secret now auth st1 = json b 200
    /\ map Example.XUser.email (Example.users st1)
       = map Example.XUser.email (Example.users st)
    /\ map Example.XUser.role (Example.users st1)
       = map Example.XUser.role (Example.users st)
    /\ map Example.XUser.passwordHash (Example.users st1)
       = map Example.XUser.passwordHash (Example.users st)
    /\ Example.refreshTokens st1 = Example.refreshTokens st.
Proof.
  intros secret now auth updates st st1 b.
  unfold ExampleApp.patch_me, ExampleApp.get_me.
  destruct (ExampleApp.authenticate secret now auth) as [r|v] eqn:Hauth.
  - intros [= -> <-].
    unfold ExampleApp.authenticate in Hauth.
    destruct auth as [[token|raw]|]; try discriminate.
    destruct (HonoJwt.verify _ _ _); discriminate.
  - destruct (find _ (Example.users st)) as [user|] eqn:Huser;
      [|discriminate].
    intros [= <- <-]; cbn [Example.users Example.refreshTokens].
    rewrite (find_update_first _ _ _ user) by
      (try exact Huser; intros x; destruct updates; reflexivity).
    repeat split; try reflexivity;
      apply update_first_map; intros u; destruct updates; reflexivity.
Qed.

Lemma patched_profile_is_read_back_witness :
  ExampleApp.get_me Scenario.x_secret 2
    (Some (Auth.Bearer (Scenario.x_access 1000)))
    (snd (ExampleApp.patch_me Scenario.x_secret 2
            (Some (Auth.Bearer (Scenario.x_access 1000))) (Some "Alicia")
            Scenario.st1))
  = json (user_body "id-1" "alice@example.com" "Alicia" "user" 500) 200.
Proof.
  apply (patched_profile_is_read_back Scenario.x_secret 2
           (Some (Auth.Bearer (Scenario.x_access 1000))) (Some "Alicia")
           Scenario.st1
           (snd (ExampleApp.patch_me Scenario.x_secret 2
                   (Some (Auth.Bearer (Scenario.x_access 1000)))
                   (Some "Alicia") Scenario.st1))).
  vm_compute; reflexivity.
Defined.

(** ** Paging through the users *)

Lemma firstn_plus {A : Type} (a b : nat) (xs : list A) :
  firstn (a + b) xs = (firstn a xs ++ firstn b (skipn a xs))%list.
Proof.
  revert xs; induction a as [|a IH]; intros [|x xs]; simpl;
    try reflexivity.
  - now rewrite firstn_nil.
  - now rewrite IH.
Qed.

Lemma chunks_concat {A : Type} (l k : nat) (xs : list A) :
  concat (map (fun i => firstn l (skipn (i * l) xs)) (seq 0 k))
  = firstn (k * l) xs.
Proof.
  induction k as [|k IH]; [reflexivity|].
  rewrite seq_S, map_app, concat_app, IH; cbn [map concat plus].
  rewrite app_nil_r, <- firstn_plus; f_equal; lia.
Qed.

Lemma js_slice_chunk {A : Type} (i l : nat) (xs : list A) :
  ExampleApp.js_slice (Z.of_nat (i * l)) (Z.of_nat (i * l) + Z.of_nat l) xs
  = firstn l (skipn (i * l) xs).
Proof.
  unfold ExampleApp.js_slice.
  destruct (Z.ltb_spec (Z.of_nat (i * l)) 0); [lia|].
  destruct (Z.ltb_spec (Z.of_nat (i * l) + Z.of_nat l) 0); [lia|].
  destruct (Nat.le_gt_cases (length xs) (i * l)) as [Hout|Hin].
  - rewrite (skipn_all2 xs Hout), firstn_nil.
    rewrite skipn_all2 by lia; apply firstn_nil.
  - replace (Z.to_nat (Z.min (Z.of_nat (i * l)) (Z.of_nat (length xs))))
      with (i * l)%nat by lia.
    destruct (Nat.le_gt_cases (i * l + l) (length xs)) as [Hfull|Hpart].
    + f_equal; lia.
    + rewrite !firstn_all2; auto; rewrite length_skipn; lia.
Qed.

Lemma admin_users_data (secret : string) (now : Z)
    (auth : option Auth.Authorization) (v : ExampleApp.Variables)
    (p l : Z) (st : Example.State) :
  ExampleApp.authenticate secret now auth = inr v ->
  ExampleApp.requireAdmin v = None ->
  ExampleApp.admin_users secret now auth (Some p) (Some l) st
  = ExampleApp.page_of_users
      (map ExampleApp.safe
         (ExampleApp.js_slice ((p - 1) * l) ((p - 1) * l + l)
            (Example.users st)))
      p l (Z.of_nat (length (Example.users st)))
      (ExampleApp.ceil_div (Z.of_nat (length (Example.users st))) l).
Proof.
  intros Hauth Hadmin; unfold ExampleApp.admin_users.
  now rewrite Hauth, Hadmin.
Qed.

(** X15 - the pages of [GET /admin/users] partition the users.  For a caller
    the two middlewares let through and a limit of at least one, the number
    of pages announced is the least that covers the users; the data of pages
    1 to that number, one after the other, are the users in order, each
    without its password; no page has more entries than the limit, and every
    later page is empty. *)
Theorem admin_pages_partition_the_users :
  forall (secret : string) (now : Z) (auth : option Auth.Authorization)
         (v : ExampleApp.Variables) (st : Example.State) (l : Z),
    1 <= l ->
    ExampleApp.authenticate secret now auth = inr v ->
    ExampleApp.requireAdmin v = None ->
    exists n : nat,
      ExampleApp.ceil_div (Z.of_nat (length (Example.users st))) l
      = Some (Z.of_nat n)
      /\ (Z.of_nat n - 1) * l < Z.of_nat (length (Example.users st))
         <= Z.of_nat n * l
      /\ concat
           (map (fun i =>
                   data_of
                     (ExampleApp.admin_users secret now auth
                        (Some (Z.of_nat i + 1)) (Some l) st))
              (seq 0 n))
         = map ExampleApp.safe (Example.users st)
      /\ (forall p,
            (length
               (data_of
                  (ExampleApp.admin_users secret now auth (Some p) (Some l)
                     st)) <= Z.to_nat l)%nat)
      /\ (forall p,
            Z.of_nat n < p ->
            data_of
              (ExampleApp.admin_users secret now auth (Some p) (Some l) st)
            = []).
Proof.
  intros secret now auth v st l Hl Hauth Hadmin.
  set (xs := Example.users st).
  set (len := Z.of_nat (length xs)).
  assert (Hn : 0 <= - (- len / l)
               /\ (- (- len / l) - 1) * l < len <= - (- len / l) * l)
    by (subst len; Z.div_mod_to_equations; nia).
  exists (Z.to_nat (- (- len / l))).
  rewrite Z2Nat.id by lia.
  split; [|split; [lia|split; [|split]]].
  - unfold ExampleApp.ceil_div.
    destruct (Z.eqb_spec l 0); [lia|reflexivity].
  - rewrite (map_ext_in _
               (fun i => map ExampleApp.safe
                           (firstn (Z.to_nat l)
                              (skipn (i * Z.to_nat l) xs)))).
    + rewrite <- (map_map
                    (fun i => firstn (Z.to_nat l) (skipn (i * Z.to_nat l) xs))
                    (map ExampleApp.safe)).
      rewrite <- concat_map, chunks_concat, firstn_all2; [reflexivity|].
      subst len; nia.
    + intros i _; rewrite (admin_users_data _ _ _ v) by assumption.
      cbn [data_of]; f_equal.
      rewrite <- (js_slice_chunk i (Z.to_nat l) xs).
      f_equal; nia.
  - intros p; rewrite (admin_users_data _ _ _ v) by assumption.
    cbn [data_of]; rewrite length_map; unfold ExampleApp.js_slice.
    etransitivity; [apply firstn_le_length|].
    destruct (Z.ltb_spec ((p - 1) * l) 0),
             (Z.ltb_spec ((p - 1) * l + l) 0); lia.
  - intros p Hp; rewrite (admin_users_data _ _ _ v) by assumption.
    cbn [data_of]; unfold ExampleApp.js_slice; fold xs; fold len.
    destruct (Z.ltb_spec ((p - 1) * l) 0); [nia|].
    destruct (Z.ltb_spec ((p - 1) * l + l) 0); [nia|].
    replace (Z.to_nat (Z.min ((p - 1) * l + l) len
                       - Z.min ((p - 1) * l) len)) with O by nia.
    reflexivity.
Qed.

Lemma admin_pages_partition_the_users_witness :
  exists n : nat,
    ExampleApp.ceil_div (Z.of_nat (length (Example.users three_users))) 2
    = Some (Z.of_nat n)
    /\ concat
         (map (fun i =>
                 data_of
                   (ExampleApp.admin_users Scenario.x_secret 2
                      (Some (Auth.Bearer
                               (admin_token Scenario.x_secret "root" 1)))
                      (Some (Z.of_nat i + 1)) (Some 2) three_users))
            (seq 0 n))
       = map ExampleApp.safe (Example.users three_users).
Proof.
  destruct (admin_pages_partition_the_users Scenario.x_secret 2
              (Some (Auth.Bearer (admin_token Scenario.x_secret "root" 1)))
              (ExampleApp.mkVariables "root" (Some "root@example.com")
                 (Some "admin"))
              three_users 2) as (n & Hn & _ & Hcat & _).
  - lia.
  - vm_compute; reflexivity.
  - reflexivity.
  - exists n; split; assumption.
Defined.

(** * Authorization middlewares *)

Lemma role_of_name (r : Rbac.Role) : Rbac.role_of (Rbac.name r) = Some r.
Proof. destruct r; reflexivity. Qed.

Lemma role_of_some (s : string) (r : Rbac.Role) :
  Rbac.role_of s = Some r -> s = Rbac.name r.
Proof.
  unfold Rbac.role_of; intros H; apply find_some in H as [_ H].
  symmetry; now apply String.eqb_eq.
Qed.

(** X16 - [requireRole] follows the hierarchy.  For a user whose role is one
    of the four, [requireRole(minRole)] calls [next()] exactly when the
    role's level is at least that of [minRole], and otherwise answers 403
    naming both roles; so whoever passes for a role passes for every lower
    one, and a superadmin passes everywhere. *)
Theorem require_role_follows_the_hierarchy :
  forall (minRole r : Rbac.Role),
    Rbac.requireRole minRole (Some (Rbac.name r))
    = (if Rbac.level minRole <=? Rbac.level r then Rbac.next
       else Rbac.insufficient_permissions (Rbac.name minRole) (Rbac.name r))
    /\ (forall lower,
          Rbac.level lower <= Rbac.level minRole ->
          Rbac.requireRole minRole (Some (Rbac.name r)) = Rbac.next ->
          Rbac.requireRole lower (Some (Rbac.name r)) = Rbac.next)
    /\ Rbac.requireRole minRole (Some (Rbac.name Rbac.superadmin)) = Rbac.next.
Proof.
  intros minRole r; split; [destruct minRole, r; reflexivity|].
  split; [|destruct minRole; reflexivity].
  intros lower; destruct minRole, r, lower; cbn;
    intros Hle H; try reflexivity; try discriminate; lia.
Qed.

(** X17 - an unknown role passes [requireRole].  A non-empty role string
    that is none of the four role names is let through by [requireRole]
    whatever the minimum role, because the comparison with a missing table
    entry is false; [requirePermission] and [requireAnyRole] never let such
    a role through. *)
Theorem unknown_role_passes_require_role :
  forall (s : string),
    s <> "" ->
    Rbac.role_of s = None ->
    (forall minRole, Rbac.requireRole minRole (Some s) = Rbac.next)
    /\ (forall permission,
          Rbac.requirePermission permission (Some s) <> Rbac.next)
    /\ (forall roles, Rbac.requireAnyRole roles (Some s) = Rbac.forbidden).
Proof.
  intros s Hs Hrole; split; [|split].
  - intros minRole; unfold Rbac.requireRole, Rbac.roleHierarchy.
    destruct (String.eqb_spec s ""); [contradiction|].
    now rewrite Hrole.
  - intros permission; unfold Rbac.requirePermission, Rbac.rolePermissions.
    rewrite Hrole; destruct (existsb _ Rbac.inherited_keys); discriminate.
  - intros roles; unfold Rbac.requireAnyRole.
    destruct (existsb _ roles) eqn:Hex; [|reflexivity].
    apply existsb_exists in Hex as (r & _ & Hr).
    apply String.eqb_eq in Hr; subst s.
    rewrite role_of_name in Hrole; discriminate.
Qed.

Lemma unknown_role_passes_require_role_witness :
  Rbac.requireRole Rbac.superadmin (Some "guest") = Rbac.next.
Proof.
  apply (unknown_role_passes_require_role "guest");
    [discriminate|reflexivity].
Defined.

(** X18 - a higher role has every permission of a lower one.  If
    [requireRole(minRole)] lets a user of one of the four roles through, then
    every [requirePermission] that lets [minRole] through lets that user
    through as well. *)
Theorem passing_role_has_the_permissions_of_the_minimum :
  forall (minRole r : Rbac.Role) (permission : Rbac.Permission),
    Rbac.requireRole minRole (Some (Rbac.name r)) = Rbac.next ->
    Rbac.requirePermission permission (Some (Rbac.name minRole)) = Rbac.next ->
    Rbac.requirePermission permission (Some (Rbac.name r)) = Rbac.next.
Proof.
  intros minRole r permission.
  destruct minRole, r; cbn; try discriminate; intros _;
    destruct permission; cbn; auto; discriminate.
Qed.

Lemma passing_role_has_the_permissions_of_the_minimum_witness :
  Rbac.requirePermission Rbac.posts_delete (Some "admin") = Rbac.next.
Proof.
  apply (passing_role_has_the_permissions_of_the_minimum Rbac.moderator
           Rbac.admin Rbac.posts_delete); reflexivity.
Defined.

Lemma require_role_follows_the_hierarchy_witness :
  Rbac.requireRole Rbac.user (Some "moderator") = Rbac.next.
Proof.
  destruct (require_role_follows_the_hierarchy Rbac.admin Rbac.superadmin)
    as (_ & Hlower & Htop).
  destruct (require_role_follows_the_hierarchy Rbac.moderator Rbac.moderator)
    as (_ & Hlower' & _).
  apply (Hlower' Rbac.user); [cbn; lia|reflexivity].
Defined.

(** * The rate limiter *)

(** Within a window that is open for [key], with [c] requests counted. *)
Lemma requests_in_window (o : RateLimiter.Options) (key : string)
    (times : list Z) :
  forall (c reset : Z) (s : RateLimiter.Store),
    s key = Some (RateLimiter.mkRecord c reset) ->
    Forall (fun t => t <= reset) times ->
    RateLimiter.admitted (fst (RateLimiter.requests o key times s))
    = Nat.min (length times) (Z.to_nat (RateLimiter.max_of o - c)).
Proof.
  induction times as [|now rest IH]; intros c reset s Hs Htimes;
    [reflexivity|].
  inversion_clear Htimes as [|? ? Hnow Hrest].
  cbn [RateLimiter.requests]; unfold RateLimiter.rateLimiter; rewrite Hs.
  cbn [RateLimiter.resetAt RateLimiter.count].
  destruct (Z.ltb_spec reset now); [lia|].
  destruct (Z.leb_spec (RateLimiter.max_of o) c) as [Hfull|Hroom].
  - specialize (IH c reset s Hs Hrest).
    destruct (RateLimiter.requests o key rest s) as [outs s2].
    unfold RateLimiter.admitted in *; cbn [fst filter RateLimiter.is_passed]
      in *.
    rewrite IH; replace (Z.to_nat (RateLimiter.max_of o - c)) with O by lia.
    now rewrite !Nat.min_0_r.
  - specialize (IH (c + 1) reset
                  (RateLimiter.set key (RateLimiter.mkRecord (c + 1) reset) s)).
    unfold RateLimiter.set at 1 in IH; rewrite String.eqb_refl in IH.
    specialize (IH eq_refl Hrest).
    destruct (RateLimiter.requests o key rest _) as [outs s2].
    unfold RateLimiter.admitted in *;
      cbn [fst filter RateLimiter.is_passed length] in *.
    rewrite IH; lia.
Qed.

(** X19 - at most [max] requests per key and window.  When no window is open
    for a key at clock [t0] - the key is unknown or its window is over - the
    requests of that key at [t0] and at later clocks up to the end of the
    new window, [t0 + windowMs] included, are let through until [max] of
    them have been, and answered 429 from then on.  The first request of a
    window is let through whatever [max] is, so with [max] at most zero one
    request per window still passes. *)
Theorem window_admits_at_most_max :
  forall (o : RateLimiter.Options) (key : string) (t0 : Z) (times : list Z)
         (s : RateLimiter.Store),
    (forall r, s key = Some r -> RateLimiter.resetAt r < t0) ->
    Forall (fun t => t <= t0 + RateLimiter.windowMs_of o) times ->
    RateLimiter.admitted
      (fst (RateLimiter.requests o key (t0 :: times) s))
    = Nat.min (S (length times))
        (Z.to_nat (Z.max 1 (RateLimiter.max_of o))).
Proof.
  intros o key t0 times s Hopen Htimes.
  cbn [RateLimiter.requests].
  assert (Hfirst :
    RateLimiter.rateLimiter o key t0 s
    = (RateLimiter.passed (RateLimiter.max_of o) (RateLimiter.max_of o - 1)
         (Some (RateLimiter.ceil_seconds (t0 + RateLimiter.windowMs_of o))),
       RateLimiter.set key
         (RateLimiter.mkRecord 1 (t0 + RateLimiter.windowMs_of o)) s)).
  { unfold RateLimiter.rateLimiter.
    destruct (s key) as [r|] eqn:Hr; [|reflexivity].
    specialize (Hopen r eq_refl).
    destruct (Z.ltb_spec (RateLimiter.resetAt r) t0); [reflexivity|lia]. }
  rewrite Hfirst.
  pose proof (requests_in_window o key times 1
                (t0 + RateLimiter.windowMs_of o)
                (RateLimiter.set key
                   (RateLimiter.mkRecord 1 (t0 + RateLimiter.windowMs_of o))
                   s)) as Hrest.
  unfold RateLimiter.set at 1 in Hrest; rewrite String.eqb_refl in Hrest.
  specialize (Hrest eq_refl Htimes).
  destruct (RateLimiter.requests o key times _) as [outs s2].
  unfold RateLimiter.admitted in *;
    cbn [fst filter RateLimiter.is_passed length] in *.
  rewrite Hrest; lia.
Qed.

Lemma window_admits_at_most_max_witness :
  RateLimiter.admitted
    (fst (RateLimiter.requests
            (RateLimiter.mkOptions (Some 1000) (Some 2) None) "10.0.0.1"
            [5000; 5100; 5200; 6000] RateLimiter.empty))
  = 2%nat.
Proof.
  apply (window_admits_at_most_max
           (RateLimiter.mkOptions (Some 1000) (Some 2) None) "10.0.0.1"
           5000 [5100; 5200; 6000] RateLimiter.empty).
  - intros r; discriminate.
  - repeat constructor; cbn; lia.
Defined.

(** X20 - the keys do not interfere.  A request of one key leaves the
    record of every other key as it was, and its outcome depends on the
    record of its own key only. *)
Theorem rate_limit_keys_are_independent :
  forall (o : RateLimiter.Options) (key other : string) (now : Z)
         (s s' : RateLimiter.Store),
    other <> key ->
    snd (RateLimiter.rateLimiter o key now s) other = s other
    /\ (s' key = s key ->
        fst (RateLimiter.rateLimiter o key now s')
        = fst (RateLimiter.rateLimiter o key now s)).
Proof.
  intros o key other now s s' Hne; unfold RateLimiter.rateLimiter; split.
  - destruct (s key) as [r|]; [destruct (_ <? _); [|destruct (_ <=? _)]|];
      cbn [snd]; unfold RateLimiter.set;
      try (destruct (String.eqb_spec other key); [contradiction|]);
      reflexivity.
  - intros ->; destruct (s key) as [r|];
      [destruct (_ <? _); [|destruct (_ <=? _)]|]; reflexivity.
Qed.

Lemma rate_limit_keys_are_independent_witness :
  snd (RateLimiter.rateLimiter
         (RateLimiter.mkOptions None None None) "10.0.0.1" 5000
         RateLimiter.empty) "10.0.0.2" = None.
Proof.
  apply (rate_limit_keys_are_independent
           (RateLimiter.mkOptions None None None) "10.0.0.1" "10.0.0.2" 5000
           RateLimiter.empty RateLimiter.empty).
  discriminate.
Defined.

Lemma limiter_counts (o : RateLimiter.Options) (reqs : list (string * Z)) :
  forall key r,
    limiter_store o reqs key = Some r ->
    1 <= RateLimiter.count r <= Z.max 1 (RateLimiter.max_of o).
Proof.
  induction reqs as [|[k now] reqs IH] using rev_ind; intros key r;
    [discriminate|].
  unfold limiter_store in *; rewrite fold_left_app; cbn [fold_left fst snd].
  set (s := fold_left _ reqs RateLimiter.empty) in *.
  unfold RateLimiter.rateLimiter.
  destruct (s k) as [rk|] eqn:Hk.
  - pose proof (IH k rk Hk) as Hrk.
    destruct (Z.ltb_spec (RateLimiter.resetAt rk) now);
      [|destruct (Z.leb_spec (RateLimiter.max_of o) (RateLimiter.count rk))];
      cbn [snd]; unfold RateLimiter.set;
      try (destruct (String.eqb_spec key k);
           [intros [= <-]; cbn; lia|apply IH]).
    apply IH.
  - cbn [snd]; unfold RateLimiter.set.
    destruct (String.eqb_spec key k); [intros [= <-]; cbn; lia|apply IH].
Qed.

(** X21 - the counters stay within the limit.  Whatever requests of
    whatever keys the limiter has handled since the store was empty, every
    record counts at least one request and at most [max] (one, when [max] is
    smaller); so, for [max] at least one, the [X-RateLimit-Remaining] header
    of the next request is between zero and [max - 1]. *)
Theorem limiter_remaining_is_within_bounds :
  forall (o : RateLimiter.Options) (reqs : list (string * Z)) (key : string)
         (now : Z),
    1 <= RateLimiter.max_of o ->
    (forall k r,
        limiter_store o reqs k = Some r ->
        1 <= RateLimiter.count r <= RateLimiter.max_of o)
    /\ 0 <= remaining_of
              (fst (RateLimiter.rateLimiter o key now (limiter_store o reqs)))
         <= RateLimiter.max_of o - 1.
Proof.
  intros o reqs key now Hmax.
  assert (Hinv : forall k r,
             limiter_store o reqs k = Some r ->
             1 <= RateLimiter.count r <= RateLimiter.max_of o).
  { intros k r Hr; pose proof (limiter_counts o reqs k r Hr); lia. }
  split; [exact Hinv|].
  unfold RateLimiter.rateLimiter.
  destruct (limiter_store o reqs key) as [r|] eqn:Hr; [|cbn; lia].
  specialize (Hinv key r Hr).
  destruct (_ <? _); [cbn; lia|].
  destruct (Z.leb_spec (RateLimiter.max_of o) (RateLimiter.count r));
    cbn; lia.
Qed.

Lemma limiter_remaining_is_within_bounds_witness :
  0 <= remaining_of
         (fst (RateLimiter.rateLimiter
                 (RateLimiter.mkOptions (Some 1000) (Some 2) None)
                 "10.0.0.1" 5200
                 (limiter_store
                    (RateLimiter.mkOptions (Some 1000) (Some 2) None)
                    [("10.0.0.1", 5000); ("10.0.0.2", 5050);
                     ("10.0.0.1", 5100)])))
    <= 1.
Proof.
  apply (limiter_remaining_is_within_bounds
           (RateLimiter.mkOptions (Some 1000) (Some 2) None)
           [("10.0.0.1", 5000); ("10.0.0.2", 5050); ("10.0.0.1", 5100)]
           "10.0.0.1" 5200).
  cbn; lia.
Defined.

(** * Pagination *)

(** X22 - the pagination meta counts pages correctly.  For a limit of at
    least one and a total that is not negative, [totalPages] is the least
    number of pages that holds [total] items, [hasNext] is true exactly when
    items remain after the page, and [hasPrev] exactly when the page is
    after the first.  With a limit of zero and a positive total, every page
    announces a next one. *)
Theorem pagination_meta_counts_pages :
  forall (page limit total : Z),
    (1 <= limit -> 0 <= total ->
     exists n,
       Pagination.totalPages (Pagination.buildPaginationMeta page limit total)
       = Pagination.fin n
       /\ (n - 1) * limit < total <= n * limit
       /\ (Pagination.hasNext
             (Pagination.buildPaginationMeta page limit total) = true
           <-> page * limit < total)
       /\ (Pagination.hasPrev
             (Pagination.buildPaginationMeta page limit total) = true
           <-> 1 < page))
    /\ (0 < total ->
        Pagination.hasNext (Pagination.buildPaginationMeta page 0 total)
        = true).
Proof.
  intros page limit total; split.
  - intros Hlimit Htotal; exists (- (- total / limit)).
    assert (Hn : (- (- total / limit) - 1) * limit < total
                 <= - (- total / limit) * limit)
      by (Z.div_mod_to_equations; nia).
    unfold Pagination.buildPaginationMeta, Pagination.ceil_quotient.
    destruct (Z.eqb_spec limit 0); [lia|].
    cbn [Pagination.totalPages Pagination.hasNext Pagination.hasPrev
           Pagination.lt_num].
    rewrite !Z.ltb_lt; repeat split; try lia; nia.
  - intros Htotal.
    unfold Pagination.buildPaginationMeta, Pagination.ceil_quotient; cbn.
    destruct (Z.ltb_spec 0 total); [reflexivity|lia].
Qed.

Lemma pagination_meta_counts_pages_witness :
  Pagination.hasNext (Pagination.buildPaginationMeta 3 0 5) = true
  /\ exists n,
       Pagination.totalPages (Pagination.buildPaginationMeta 2 10 25)
       = Pagination.fin n
       /\ (n - 1) * 10 < 25 <= n * 10.
Proof.
  split.
  - apply (pagination_meta_counts_pages 3 0 5); lia.
  - destruct (pagination_meta_counts_pages 2 10 25) as [H _].
    destruct (H ltac:(lia) ltac:(lia)) as (n & Hn & Hb & _).
    exists n; split; assumption.
Defined.

(** * Input sanitization *)

Lemma trim_start_suffix (s : Sanitize.js_string) :
  exists p, s = (p ++ Sanitize.trim_start s)%list.
Proof.
  induction s as [|c s [p IH]]; simpl; [now exists []|].
  destruct (Sanitize.is_white_space c); [|now exists []].
  exists (c :: p); simpl; now rewrite <- IH.
Qed.

Lemma trim_start_starts_clean (s : Sanitize.js_string) :
  Sanitize.starts_clean (Sanitize.trim_start s) = true.
Proof.
  induction s as [|c s IH]; simpl; [reflexivity|].
  destruct (Sanitize.is_white_space c) eqn:Hc; [exact IH|].
  simpl; now rewrite Hc.
Qed.

Lemma trim_start_of_clean (s : Sanitize.js_string) :
  Sanitize.starts_clean s = true -> Sanitize.trim_start s = s.
Proof.
  destruct s as [|c s]; simpl; [reflexivity|].
  now destruct (Sanitize.is_white_space c).
Qed.

Lemma starts_clean_prefix (a b : Sanitize.js_string) :
  Sanitize.starts_clean (a ++ b)%list = true ->
  Sanitize.starts_clean a = true.
Proof. destruct a; auto. Qed.

Lemma trim_end_prefix (s : Sanitize.js_string) :
  exists q, s = (Sanitize.trim_end s ++ q)%list.
Proof.
  unfold Sanitize.trim_end.
  destruct (trim_start_suffix (rev s)) as [p Hp].
  exists (rev p); rewrite <- rev_app_distr, <- Hp; now rewrite rev_involutive.
Qed.

Lemma trim_clean_at_both_ends (s : Sanitize.js_string) :
  Sanitize.starts_clean (Sanitize.trim s) = true
  /\ Sanitize.starts_clean (rev (Sanitize.trim s)) = true.
Proof.
  unfold Sanitize.trim; split.
  - destruct (trim_end_prefix (Sanitize.trim_start s)) as [q Hq].
    apply (starts_clean_prefix _ q); rewrite <- Hq.
    apply trim_start_starts_clean.
  - unfold Sanitize.trim_end; rewrite rev_involutive.
    apply trim_start_starts_clean.
Qed.

Lemma trim_idempotent (s : Sanitize.js_string) :
  Sanitize.trim (Sanitize.trim s) = Sanitize.trim s.
Proof.
  destruct (trim_clean_at_both_ends s) as [Hstart Hend].
  unfold Sanitize.trim at 1.
  rewrite (trim_start_of_clean _ Hstart); unfold Sanitize.trim_end.
  rewrite (trim_start_of_clean _ Hend); apply rev_involutive.
Qed.

Lemma Forall_trim (P : N -> Prop) (s : Sanitize.js_string) :
  Forall P s -> Forall P (Sanitize.trim s).
Proof.
  intros H; unfold Sanitize.trim.
  destruct (trim_start_suffix s) as [p Hp].
  destruct (trim_end_prefix (Sanitize.trim_start s)) as [q Hq].
  rewrite Hp, Hq in H.
  apply Forall_app in H as [_ H]; now apply Forall_app in H as [H _].
Qed.

Lemma length_trim (s : Sanitize.js_string) :
  (length (Sanitize.trim s) <= length s)%nat.
Proof.
  unfold Sanitize.trim.
  destruct (trim_start_suffix s) as [p Hp].
  destruct (trim_end_prefix (Sanitize.trim_start s)) as [q Hq].
  rewrite Hp at 2; rewrite Hq at 2; rewrite !length_app; lia.
Qed.

Lemma remove_angles_clean (s : Sanitize.js_string) :
  Forall (fun c => Sanitize.is_angle c = false) (Sanitize.remove_angles s).
Proof.
  apply Forall_forall; intros c Hc.
  apply filter_In in Hc as [_ Hc]; now destruct (Sanitize.is_angle c).
Qed.

Lemma remove_angles_of_clean (s : Sanitize.js_string) :
  Forall (fun c => Sanitize.is_angle c = false) s ->
  Sanitize.remove_angles s = s.
Proof.
  induction 1 as [|c s Hc _ IH]; simpl; [reflexivity|].
  now rewrite Hc, IH.
Qed.

(** X23 - what [sanitize] guarantees.  Its result holds neither [<] nor
    [>], has at most 1000 code units and does not start with white space.
    When the input has at most 1000 code units the result does not end with
    white space either and sanitizing it again changes nothing. *)
Theorem sanitize_guarantees :
  forall (input : Sanitize.js_string),
    Forall (fun c => Sanitize.is_angle c = false) (Sanitize.sanitize input)
    /\ (length (Sanitize.sanitize input) <= 1000)%nat
    /\ Sanitize.starts_clean (Sanitize.sanitize input) = true
    /\ ((length input <= 1000)%nat ->
        Sanitize.starts_clean (rev (Sanitize.sanitize input)) = true
        /\ Sanitize.sanitize (Sanitize.sanitize input)
           = Sanitize.sanitize input).
Proof.
  intros input; unfold Sanitize.sanitize.
  pose proof (Forall_trim _ _ (remove_angles_clean input)) as Hclean.
  destruct (trim_clean_at_both_ends (Sanitize.remove_angles input))
    as [Hstart Hend].
  split; [|split; [|split]].
  - rewrite <- (firstn_skipn 1000) in Hclean.
    now apply Forall_app in Hclean as [H _].
  - apply firstn_le_length.
  - rewrite <- (firstn_skipn 1000 (Sanitize.trim _)) in Hstart.
    now apply starts_clean_prefix in Hstart.
  - intros Hshort.
    assert (Hall : firstn 1000 (Sanitize.trim (Sanitize.remove_angles input))
                   = Sanitize.trim (Sanitize.remove_angles input)).
    { apply firstn_all2.
      etransitivity; [apply length_trim|].
      etransitivity; [apply filter_length_le|exact Hshort]. }
    rewrite !Hall; split; [exact Hend|].
    rewrite (remove_angles_of_clean _ Hclean), trim_idempotent.
    exact Hall.
Qed.

Lemma sanitize_guarantees_witness :
  Sanitize.sanitize (Sanitize.sanitize [32; 60; 97; 62; 98; 32]%N)
  = Sanitize.sanitize [32; 60; 97; 62; 98; 32]%N.
Proof.
  apply (sanitize_guarantees [32; 60; 97; 62; 98; 32]%N).
  cbn; lia.
Defined.

(** * The validated environment and what depends on it *)

Lemma parse_JWT_SECRET_total (v : option string) :
  exists s,
    Config.parse_JWT_SECRET (Config.emptyStringAsUndefined v) = Some s
    /\ s <> ""
    /\ (forall given, v = Some given -> given <> "" -> s = given).
Proof.
  destruct v as [[|c given]|]; cbn.
  - exists "secret"; repeat split; try discriminate.
    intros given [= <-] H; now elim H.
  - exists (String c given); repeat split; try discriminate.
    now intros g [= <-].
  - exists "secret"; repeat split; discriminate.
Qed.

(** X24 - the secret never fails validation and is never empty.  Validation
    of the environment fails exactly when [PORT] or [NODE_ENV] is invalid,
    whatever [JWT_SECRET] is; when it succeeds, [env.JWT_SECRET] is not the
    empty string, and it is the variable's value whenever that is
    non-empty. *)
Theorem secret_never_fails_validation :
  forall (Number : string -> option Z) (p : Config.ProcessEnv.t),
    (Config.createEnv Number p = None <->
     Config.parse_PORT Number
       (Config.emptyStringAsUndefined (Config.ProcessEnv.PORT p)) = None
     \/ Config.parse_NODE_ENV
          (Config.emptyStringAsUndefined (Config.ProcessEnv.NODE_ENV p))
        = None)
    /\ (forall env,
          Config.createEnv Number p = Some env ->
          Config.Env.JWT_SECRET env <> ""
          /\ (forall given,
                Config.ProcessEnv.JWT_SECRET p = Some given ->
                given <> "" -> Config.Env.JWT_SECRET env = given)).
Proof.
  intros Number p; unfold Config.createEnv.
  destruct (parse_JWT_SECRET_total (Config.ProcessEnv.JWT_SECRET p))
    as (s & -> & Hs & Hgiven).
  destruct (Config.parse_PORT _ _) as [port|];
    destruct (Config.parse_NODE_ENV _) as [node_env|]; split;
    try (split; [auto; discriminate|intros [H|H]; discriminate || reflexivity]);
    try (intros env; discriminate).
  intros env [= <-]; cbn; auto.
Qed.

Lemma secret_never_fails_validation_witness :
  Config.Env.JWT_SECRET
    (Config.Env.make 4000 Config.production "s3cret") = "s3cret".
Proof.
  destruct (secret_never_fails_validation (fun _ => None)
              (Config.ProcessEnv.make None (Some "production")
                 (Some "s3cret"))) as [_ H].
  destruct (H (Config.Env.make 4000 Config.production "s3cret") eq_refl)
    as [_ Hgiven].
  apply (Hgiven "s3cret" eq_refl); discriminate.
Defined.

Lemma secret_nonempty_of_createEnv (Number : string -> option Z)
    (p : Config.ProcessEnv.t) (env : Config.Env.t) :
  Config.createEnv Number p = Some env -> Config.Env.JWT_SECRET env <> "".
Proof.
  unfold Config.createEnv.
  destruct (parse_JWT_SECRET_total (Config.ProcessEnv.JWT_SECRET p))
    as (s & -> & Hs & _).
  destruct (Config.parse_PORT _ _); [|discriminate].
  destruct (Config.parse_NODE_ENV _); [|discriminate].
  now intros [= <-].
Qed.

Lemma isDev_of_createEnv (Number : string -> option Z)
    (p : Config.ProcessEnv.t) (env : Config.Env.t) :
  Config.createEnv Number p = Some env ->
  (Config.isDev (Config.config env) = true <->
   Config.ProcessEnv.NODE_ENV p = None
   \/ Config.ProcessEnv.NODE_ENV p = Some ""
   \/ Config.ProcessEnv.NODE_ENV p = Some "development").
Proof.
  unfold Config.createEnv.
  destruct (Config.parse_PORT _ _) as [port|]; [|discriminate].
  destruct (Config.parse_NODE_ENV _) as [node_env|] eqn:Hnode;
    [|discriminate].
  destruct (Config.parse_JWT_SECRET _) as [secret|]; [|discriminate].
  intros [= <-]; cbn.
  destruct (Config.ProcessEnv.NODE_ENV p) as [[|c s]|].
  - injection Hnode as <-; intuition.
  - unfold Config.emptyStringAsUndefined, Config.parse_NODE_ENV in Hnode.
    destruct (String.eqb_spec (String c s) "development") as [Heq|Hne].
    + injection Hnode as <-.
      split; [intros _; right; right; now rewrite Heq|reflexivity].
    + destruct (String.eqb (String c s) "production");
        [|destruct (String.eqb (String c s) "test"); [|discriminate]];
        injection Hnode as <-; split; try discriminate;
        intros [H|[H|H]]; try discriminate; congruence.
  - injection Hnode as <-; intuition.
Qed.

(** X25 - the login's debug field never says the secret is missing.  For an
    environment that has passed validation, the answer to an accepted login
    body carries [debug: { secretSet: true }] when [NODE_ENV] is unset, empty
    or ["development"], and no [debug] field otherwise; [secretSet] is never
    false. *)
Theorem login_debug_reports_secret_set :
  forall (is_email : string -> bool) (Number : string -> option Z)
         (p : Config.ProcessEnv.t) (env : Config.Env.t)
         (b : Routes.LoginJson),
    Config.createEnv Number p = Some env ->
    Routes.loginSchema is_email b <> None ->
    (Config.ProcessEnv.NODE_ENV p = None
     \/ Config.ProcessEnv.NODE_ENV p = Some ""
     \/ Config.ProcessEnv.NODE_ENV p = Some "development" ->
     Routes.post_login is_email env b
     = Routes.reply
         (Routes.mkLoginReply true "Login successful" "placeholder_token"
            (Some true)))
    /\ (~ (Config.ProcessEnv.NODE_ENV p = None
           \/ Config.ProcessEnv.NODE_ENV p = Some ""
           \/ Config.ProcessEnv.NODE_ENV p = Some "development") ->
        Routes.post_login is_email env b
        = Routes.reply
            (Routes.mkLoginReply true "Login successful" "placeholder_token"
               None)).
Proof.
  intros is_email Number p env b Henv Hb.
  pose proof (isDev_of_createEnv Number p env Henv) as Hdev.
  pose proof (secret_nonempty_of_createEnv Number p env Henv) as Hsecret.
  unfold Routes.post_login.
  destruct (Routes.loginSchema is_email b) as [[e pw]|]; [|congruence].
  split; intros Hmode.
  - rewrite (proj2 Hdev Hmode); unfold Routes.secretSet.
    destruct (String.eqb_spec (Config.Env.JWT_SECRET env) "");
      [contradiction|reflexivity].
  - destruct (Config.isDev (Config.config env)); [|reflexivity].
    elim Hmode; now apply Hdev.
Qed.

Lemma login_debug_reports_secret_set_witness :
  Routes.post_login Scenario.has_at
    (Config.Env.make 4000 Config.development "secret")
    (Routes.mkLoginJson (Some "a@b.io") (Some "hunter22"))
  = Routes.reply
      (Routes.mkLoginReply true "Login successful" "placeholder_token"
         (Some true)).
Proof.
  destruct (login_debug_reports_secret_set Scenario.has_at (fun _ => None)
              (Config.ProcessEnv.make None (Some "") (Some ""))
              (Config.Env.make 4000 Config.development "secret")
              (Routes.mkLoginJson (Some "a@b.io") (Some "hunter22"))
              eq_refl ltac:(vm_compute; discriminate)) as [Hdev _].
  apply Hdev; right; left; reflexivity.
Defined.

(** X26 - error details are shown in development only, and development is
    the default.  For an environment that has passed validation: when
    [NODE_ENV] is unset, empty or ["development"], the error handler of the
    backend answers 500 with the message of the error and the CORS origins
    are the two local ones; otherwise it answers 500 with "Internal Server
    Error", whatever the message, and the only origin is the production
    one. *)
Theorem error_details_only_in_development :
  forall (Number : string -> option Z) (p : Config.ProcessEnv.t)
         (env : Config.Env.t) (message : string),
    Config.createEnv Number p = Some env ->
    (Config.ProcessEnv.NODE_ENV p = None
     \/ Config.ProcessEnv.NODE_ENV p = Some ""
     \/ Config.ProcessEnv.NODE_ENV p = Some "development" ->
     BackendIndex.onError (Config.config env) message
     = BackendIndex.mkFailure message 500
     /\ BackendIndex.cors_origin (Config.config env)
        = ["http://localhost:3000"; "http://127.0.0.1:3000"])
    /\ (~ (Config.ProcessEnv.NODE_ENV p = None
           \/ Config.ProcessEnv.NODE_ENV p = Some ""
           \/ Config.ProcessEnv.NODE_ENV p = Some "development") ->
        BackendIndex.onError (Config.config env) message
        = BackendIndex.mkFailure "Internal Server Error" 500
        /\ BackendIndex.cors_origin (Config.config env)
           = ["https://your-production-domain.com"]).
Proof.
  intros Number p env message Henv.
  pose proof (isDev_of_createEnv Number p env Henv) as Hdev.
  unfold BackendIndex.onError, BackendIndex.cors_origin.
  split; intros Hmode.
  - now rewrite (proj2 Hdev Hmode).
  - destruct (Config.isDev (Config.config env)); [|split; reflexivity].
    elim Hmode; now apply Hdev.
Qed.

Lemma error_details_only_in_development_witness :
  BackendIndex.onError
    (Config.config (Config.Env.make 4000 Config.production "secret"))
    "connect ECONNREFUSED 10.0.0.5:5432"
  = BackendIndex.mkFailure "Internal Server Error" 500.
Proof.
  destruct (error_details_only_in_development (fun _ => None)
              (Config.ProcessEnv.make None (Some "production") None)
              (Config.Env.make 4000 Config.production "secret")
              "connect ECONNREFUSED 10.0.0.5:5432" eq_refl) as [_ Hprod].
  apply Hprod; intros [H|[H|H]]; discriminate.
Defined.

(** * More of the in-memory application *)

(** X27 - who logs in can read their profile.  In the in-memory
    application, the access token of a successful login opens [GET
    /users/me] on the state the login left, at every clock second from that
    of the login on and before the token expires: the answer is 200 with
    the profile, without the password, of a user that has the id of the one
    who logged in. *)
Theorem example_login_opens_the_profile :
  forall (secret : string) (date : Z) (em pw : string)
         (st st1 : Example.State) (acc rt : Str) (ex : option Z) (now : Z),
    Example.login secret date em pw st
    = (json (tokens_body acc rt ex) 200, st1) ->
    date / 1000 <= now < date / 1000 + 900 ->
    exists user0 user,
      find (fun u => String.eqb (Example.XUser.email u) em) (Example.users st)
      = Some user0
      /\ In user (Example.users st1)
      /\ Example.XUser.id user = Example.XUser.id user0
      /\ ExampleApp.get_me secret now (Some (Auth.Bearer acc)) st1
         = json (ExampleApp.safe_body user) 200.
Proof.
  intros secret date em pw st st1 acc rt ex now; unfold Example.login.
  destruct (find _ (Example.users st)) as [user0|] eqn:Huser0;
    [|discriminate].
  destruct (negb _); [discriminate|].
  intros [= <- _ _ <-] Hnow.
  pose proof (find_some _ _ Huser0) as [Hin _].
  destruct (find_exists
              (fun u => String.eqb (Example.XUser.id u)
                          (Example.XUser.id user0))
              (Example.users st) user0 Hin (String.eqb_refl _))
    as [user Huser].
  pose proof (find_some _ _ Huser) as [Hin' Hid].
  apply String.eqb_eq in Hid.
  exists user0, user; repeat split; auto.
  unfold ExampleApp.get_me, ExampleApp.authenticate.
  rewrite verify_signed by (cbn; lia).
  cbn [ExampleApp.userId Example.access_payload Payload.sub Example.users].
  now rewrite Huser.
Qed.

Lemma example_login_opens_the_profile_witness :
  exists user0 user,
    find (fun u => String.eqb (Example.XUser.email u) "bob@example.com")
      (Example.users three_users) = Some user0
    /\ In user
         (Example.users
            (snd (Example.login Scenario.x_secret 1000 "bob@example.com"
                    "hunter22" three_users)))
    /\ Example.XUser.id user = Example.XUser.id user0
    /\ ExampleApp.get_me Scenario.x_secret 900
         (Some (Auth.Bearer
                  (HonoJwt.sign
                     (Payload.make "id-2" (Some "bob@example.com")
                        (Some "user") None 1 901) Scenario.x_secret)))
         (snd (Example.login Scenario.x_secret 1000 "bob@example.com"
                 "hunter22" three_users))
       = json (ExampleApp.safe_body user) 200.
Proof.
  apply (example_login_opens_the_profile Scenario.x_secret 1000
           "bob@example.com" "hunter22" three_users
           (snd (Example.login Scenario.x_secret 1000 "bob@example.com"
                   "hunter22" three_users))
           (HonoJwt.sign
              (Payload.make "id-2" (Some "bob@example.com") (Some "user")
                 None 1 901) Scenario.x_secret)
           (HonoJwt.sign
              (Payload.make "id-2" None None (Some "refresh") 1 604801)
              (Scenario.x_secret ++ "_refresh"))
           (Some 900) 900).
  - vm_compute; reflexivity.
  - vm_compute; split; [discriminate|reflexivity].
Defined.

(** * Uploads *)

Lemma dashed_has_no_white_space (s : Sanitize.js_string) :
  Forall (fun c => Sanitize.is_white_space c = false) (Upload.dashed s).
Proof.
  unfold Upload.dashed; apply Forall_map, Forall_forall; intros c _.
  destruct (Sanitize.is_white_space c) eqn:Hc; [reflexivity|exact Hc].
Qed.

(** X28 - what an accepted upload looks like.  [POST /upload] answers 201
    exactly for a file whose type is one of the four allowed and whose size
    is at most 5 MiB, the bound included; the stored name then has the
    length of the file's name and no white space, and the stamp is the
    clock.  A file of another type is answered 415, also when it is too
    large. *)
Theorem accepted_upload_is_checked :
  forall (now : Z) (file : Upload.File),
    (Upload.status_of (Upload.upload now (Some file)) = 201 <->
     In (Upload.type file) Upload.allowedTypes
     /\ Upload.size file <= 5 * 1024 * 1024)
    /\ (forall stamp stored size type,
          Upload.upload now (Some file) = Upload.created stamp stored size type ->
          stamp = now
          /\ length stored = length (Upload.name file)
          /\ Forall (fun c => Sanitize.is_white_space c = false) stored
          /\ size = Upload.size file /\ type = Upload.type file)
    /\ (~ In (Upload.type file) Upload.allowedTypes ->
        Upload.upload now (Some file) = Upload.invalid_file_type).
Proof.
  intros now file; unfold Upload.upload.
  destruct (existsb _ Upload.allowedTypes) eqn:Hty; cbn [negb].
  - apply existsb_exists in Hty as (t & Hin & Ht).
    apply String.eqb_eq in Ht; subst t.
    destruct (Z.ltb_spec (5 * 1024 * 1024) (Upload.size file))
      as [Hbig|Hok].
    + split; [split; [discriminate|lia]|].
      split; [discriminate|intros H; contradiction].
    + split; [split; [auto|reflexivity]|].
      split; [|intros H; contradiction].
      intros stamp stored size type [= <- <- <- <-].
      repeat split; auto using dashed_has_no_white_space.
      unfold Upload.dashed; apply length_map.
  - assert (Hnot : ~ In (Upload.type file) Upload.allowedTypes).
    { intros Hin.
      assert (H : existsb (String.eqb (Upload.type file)) Upload.allowedTypes
                  = true)
        by (apply existsb_exists; eexists; split;
            [exact Hin|apply String.eqb_refl]).
      congruence. }
    split; [split; [discriminate|intros [H _]; contradiction]|].
    split; [discriminate|reflexivity].
Qed.

Lemma accepted_upload_is_checked_witness :
  Upload.upload 1700000000000
    (Some (Upload.mkFile "image/png" (5 * 1024 * 1024) [97; 32; 98]%N))
  = Upload.created 1700000000000 [97; 45; 98]%N (5 * 1024 * 1024)
      "image/png"
  /\ Upload.upload 1700000000000
       (Some (Upload.mkFile "text/html" (6 * 1024 * 1024) [97]%N))
     = Upload.invalid_file_type.
Proof.
  split; [reflexivity|].
  apply (accepted_upload_is_checked 1700000000000
           (Upload.mkFile "text/html" (6 * 1024 * 1024) [97]%N)).
  cbn; intuition discriminate.
Defined.

(** * The global error handler *)

(** X29 - what the global error handler gives away.  For an error that is
    neither an [HTTPException] nor an [AppError] and is not named
    ["ZodError"] or ["JwtTokenExpired"], the answer is 500, and unless
    [NODE_ENV] is ["development"] its body is "Internal server error"
    without a stack, whatever the error's message.  An uncaught expiry error
    of the token library gets the very answer the [authenticate] middleware
    gives to an expired token. *)
Theorem global_error_handler_hides_details :
  forall (node_env : option string) (name message stack : string)
         (e : Auth.Env) (p : Payload.t) (key : string) (now : Z),
    (name <> "ZodError" -> name <> "JwtTokenExpired" ->
     node_env <> Some "development" ->
     ErrorHandler.onError node_env (ErrorHandler.Error name message stack)
     = (ErrorHandler.fallback_body "Internal server error" None, 500))
    /\ (Payload.exp p <= now ->
        option_map inl
          (ErrorHandler.as_response
             (ErrorHandler.onError node_env
                (ErrorHandler.Error "JwtTokenExpired" message stack)))
        = Some (Auth.authenticate e now (Some (Auth.Bearer (Jwt p key))))).
Proof.
  intros node_env name message stack e p key now; split.
  - intros Hzod Hjwt Hdev; unfold ErrorHandler.onError.
    destruct (String.eqb_spec name "ZodError"); [contradiction|].
    destruct (String.eqb_spec name "JwtTokenExpired"); [contradiction|].
    destruct node_env as [s|]; [|reflexivity].
    destruct (String.eqb_spec s "development"); [congruence|reflexivity].
  - intros Hexp.
    now rewrite (proj1 (expired_token_is_answered_token_expired e p key now
                          Hexp)).
Qed.

Lemma global_error_handler_hides_details_witness :
  ErrorHandler.onError (Some "production")
    (ErrorHandler.Error "PrismaClientKnownRequestError"
       "Unique constraint failed on the fields: (`email`)" "at ...")
  = (ErrorHandler.fallback_body "Internal server error" None, 500).
Proof.
  destruct (global_error_handler_hides_details (Some "production")
              "PrismaClientKnownRequestError"
              "Unique constraint failed on the fields: (`email`)" "at ..."
              Scenario.env (Auth.access_payload Scenario.alice 1)
              "access-key" 901) as [Hhide Hsame].
  pose proof (Hsame ltac:(cbn; lia)) as _.
  apply Hhide; discriminate.
Defined.
